(** * week1/tools.py: a shallow embedding and its verified properties

    The development follows the layout of [tools.py]:
    - the Python values and exceptions the module manipulates;
    - [hashlib.sha1], the digest behind the train/validation split;
    - binary64 arithmetic as Python's [float] performs it;
    - [Config] and its [identifier];
    - [linear_decay] and [lr_scheduler];
    - [create_image_lists] over a file-system interface;
    - [except_catcher], the error-swallowing generator;
    - [ImageListIterator] and [get_image_path];
    - [get_generators], [find_files] and [get_classes_map].

    A Python [str] is held as the [string] of its UTF-8 encoding, so that
    [str.encode('utf-8')] reads the bytes off.  Byte order on such strings is
    code-point order, which is what [sorted] uses.  A file name that is not
    UTF-8 reaches Python as a [str] with lone surrogates, one for each stray
    byte; it is held as the bytes of the name, a string that is not
    well-formed UTF-8, and [str.encode('utf-8')] fails on it. *)

From Stdlib Require Import ZArith List String Ascii Bool Lia Permutation.
From Stdlib Require Import Floats.SpecFloat.
From Stdlib Require Import Strings.Byte DecimalString.
From Stdlib Require Import Sorting.Sorted.
From stdpp Require Import base list.

Import ListNotations.

(** ** Exceptions and fallible results *)

(** The exception classes [tools.py] raises itself or receives from the
    built-ins it calls. *)
Inductive exc_class :=
| AttributeError | TypeError | ValueError | KeyError | IndexError
| ZeroDivisionError | OverflowError | StopIteration | OSError
| UnicodeEncodeError | RecursionError
| KeyboardInterrupt | SystemExit | GeneratorExit.

(** [issubclass(c, Exception)]: the last three derive from [BaseException]
    only. *)
Definition is_Exception (c : exc_class) : bool :=
  match c with
  | KeyboardInterrupt | SystemExit | GeneratorExit => false
  | _ => true
  end.

(** An exception instance: its class and its [args].  Built-in failures whose
    text depends on the interpreter carry no args. *)
Record exception := Exc { exc_cls : exc_class; exc_args : list string }.

Inductive res (A : Type) :=
| Ok (a : A)
| Raise (e : exception).
Arguments Ok {A} a.
Arguments Raise {A} e.

Definition res_bind {A B} (r : res A) (k : A -> res B) : res B :=
  match r with
  | Ok a => k a
  | Raise e => Raise e
  end.

Declare Scope res_scope.
Delimit Scope res_scope with res.
Notation "'let*' x ':=' r 'in' k" := (res_bind r (fun x => k))
  (at level 10, x pattern, r at level 100, k at level 200) : res_scope.
Open Scope res_scope.

Definition raised {A} (r : res A) (c : exc_class) : Prop :=
  exists args, r = Raise (Exc c args).

(** ** hashlib.sha1 *)

Module SHA1.
Local Open Scope Z_scope.

Definition w32 (x : Z) : Z := x mod 2 ^ 32.
Definition add32 (x y : Z) : Z := w32 (x + y).
Definition rotl32 (n x : Z) : Z :=
  Z.lor (w32 (Z.shiftl x n)) (Z.shiftr x (32 - n)).
Definition not32 (x : Z) : Z := 2 ^ 32 - 1 - x.

Definition byte_val (b : byte) : Z := Z.of_N (Byte.to_N b).

(** Big-endian value of a byte sequence. *)
Definition be_value (bs : list byte) : Z :=
  fold_left (fun acc b => acc * 256 + byte_val b) bs 0.

(** The [n] low bytes of [x], most significant first. *)
Fixpoint be_bytes (n : nat) (x : Z) : list Z :=
  match n with
  | O => []
  | S n' => be_bytes n' (x / 256) ++ [x mod 256]
  end.

(** Message followed by 0x80, zero bytes up to 56 mod 64, and the bit length
    on 8 bytes. *)
Definition pad (msg : list byte) : list Z :=
  let len := Z.of_nat (length msg) in
  let zeros := Z.to_nat ((55 - len) mod 64) in
  map byte_val msg ++ [128] ++ repeat 0 zeros ++ be_bytes 8 (8 * len).

Fixpoint words_of (n : nat) (bs : list Z) : list Z :=
  match n, bs with
  | S n', b0 :: b1 :: b2 :: b3 :: rest =>
      (((b0 * 256 + b1) * 256 + b2) * 256 + b3) :: words_of n' rest
  | _, _ => []
  end.

Fixpoint blocks_of (n : nat) (bs : list Z) : list (list Z) :=
  match n with
  | O => []
  | S n' =>
      match bs with
      | [] => []
      | _ => words_of 16 (firstn 64 bs) :: blocks_of n' (skipn 64 bs)
      end
  end.

Definition wd (w : list Z) (i : nat) : Z := nth i w 0.

(** Message schedule: sixteen words extended to eighty. *)
Fixpoint extend (k : nat) (w : list Z) : list Z :=
  match k with
  | O => w
  | S k' =>
      let t := length w in
      let x := Z.lxor (Z.lxor (wd w (t - 3)) (wd w (t - 8)))
                      (Z.lxor (wd w (t - 14)) (wd w (t - 16))) in
      extend k' (w ++ [rotl32 1 x])
  end.

Definition round_f (t : nat) (b c d : Z) : Z :=
  if (t <? 20)%nat then Z.lor (Z.land b c) (Z.land (not32 b) d)
  else if (t <? 40)%nat then Z.lxor (Z.lxor b c) d
  else if (t <? 60)%nat then
    Z.lor (Z.lor (Z.land b c) (Z.land b d)) (Z.land c d)
  else Z.lxor (Z.lxor b c) d.

Definition round_k (t : nat) : Z :=
  if (t <? 20)%nat then 0x5A827999
  else if (t <? 40)%nat then 0x6ED9EBA1
  else if (t <? 60)%nat then 0x8F1BBCDC
  else 0xCA62C1D6.

Definition state : Type := Z * Z * Z * Z * Z.

Definition step (st : state) (tw : nat * Z) : state :=
  let '(a, b, c, d, e) := st in
  let '(t, w) := tw in
  let tmp :=
    add32 (add32 (add32 (add32 (rotl32 5 a) (round_f t b c d)) e) (round_k t)) w in
  (tmp, a, rotl32 30 b, c, d).

Definition compress (h : state) (block : list Z) : state :=
  let w := extend 64 block in
  let '(a, b, c, d, e) := fold_left step (combine (seq 0 80) w) h in
  let '(h0, h1, h2, h3, h4) := h in
  (add32 h0 a, add32 h1 b, add32 h2 c, add32 h3 d, add32 h4 e).

Definition init : state :=
  (0x67452301, 0xEFCDAB89, 0x98BADCFE, 0x10325476, 0xC3D2E1F0).

Definition byte_of_Z (x : Z) : byte :=
  match Byte.of_N (Z.to_N x) with
  | Some b => b
  | None => x00
  end.

(** [hashlib.sha1(msg).digest()]: twenty bytes. *)
Definition digest (msg : list byte) : list byte :=
  let p := pad msg in
  let '(h0, h1, h2, h3, h4) :=
    fold_left compress (blocks_of (length p) p) init in
  map byte_of_Z
    (be_bytes 4 h0 ++ be_bytes 4 h1 ++ be_bytes 4 h2 ++ be_bytes 4 h3
       ++ be_bytes 4 h4).

End SHA1.

(** ** Hexadecimal text *)

Local Open Scope string_scope.

Definition hex_digit (n : Z) : ascii :=
  match n with
  | 0 => "0" | 1 => "1" | 2 => "2" | 3 => "3" | 4 => "4" | 5 => "5"
  | 6 => "6" | 7 => "7" | 8 => "8" | 9 => "9" | 10 => "a" | 11 => "b"
  | 12 => "c" | 13 => "d" | 14 => "e" | _ => "f"
  end%Z%char.

(** [bytes.hex()]: two lowercase digits per byte. *)
Fixpoint hex_of_bytes (bs : list byte) : string :=
  match bs with
  | [] => EmptyString
  | b :: rest =>
      String (hex_digit (SHA1.byte_val b / 16))
        (String (hex_digit (SHA1.byte_val b mod 16)) (hex_of_bytes rest))
  end.

(** [hashlib.sha1(msg).hexdigest()]. *)
Definition sha1_hexdigest (msg : list byte) : string :=
  hex_of_bytes (SHA1.digest msg).

Definition digit_base16 (c : ascii) : option Z :=
  let n := Z.of_N (N_of_ascii c) in
  if ((48 <=? n) && (n <=? 57))%Z then Some (n - 48)%Z
  else if ((97 <=? n) && (n <=? 102))%Z then Some (n - 87)%Z
  else if ((65 <=? n) && (n <=? 70))%Z then Some (n - 55)%Z
  else None.

Fixpoint int_base16_from (acc : Z) (s : string) : res Z :=
  match s with
  | EmptyString => Ok acc
  | String c rest =>
      match digit_base16 c with
      | Some d => int_base16_from (acc * 16 + d)%Z rest
      | None => Raise (Exc ValueError [])
      end
  end.

(** [int(s, 16)] on a string of hexadecimal digits; the empty string and any
    other character are a [ValueError]. *)
Definition int_base16 (s : string) : res Z :=
  match s with
  | EmptyString => Raise (Exc ValueError [])
  | _ => int_base16_from 0 s
  end.

(** ** Python floats (IEEE 754 binary64) and mixed arithmetic *)

Definition float : Type := spec_float.

Definition prec64 : Z := 53.
Definition emax64 : Z := 1024.

Definition fadd : float -> float -> float := SFadd prec64 emax64.
Definition fsub : float -> float -> float := SFsub prec64 emax64.
Definition fmul : float -> float -> float := SFmul prec64 emax64.
Definition fdiv : float -> float -> float := SFdiv prec64 emax64.

(** Nearest binary64 to an integer, ties to even; infinite when out of range. *)
Definition int_to_double (z : Z) : float :=
  binary_normalize prec64 emax64 z 0 false.

(** The conversion Python applies to an [int] operand of a float operation:
    [OverflowError] when the integer exceeds the largest double. *)
Definition float_of_int (z : Z) : res float :=
  match int_to_double z with
  | S754_infinity _ => Raise (Exc OverflowError [])
  | f => Ok f
  end.

Definition is_zero (f : float) : bool :=
  match f with
  | S754_zero _ => true
  | _ => false
  end.

(** [a / b] on floats. *)
Definition float_truediv (a b : float) : res float :=
  if is_zero b then Raise (Exc ZeroDivisionError [])
  else Ok (fdiv a b).

(** [f / n], [f * n] and [n * f] for a float [f] and an int [n]. *)
Definition float_div_int (f : float) (n : Z) : res float :=
  let* d := float_of_int n in float_truediv f d.

Definition float_mul_int (f : float) (n : Z) : res float :=
  let* d := float_of_int n in Ok (fmul f d).

Definition int_mul_float (n : Z) (f : float) : res float :=
  let* d := float_of_int n in Ok (fmul d f).

(** A Python number as the functions below receive it. *)
Inductive number :=
| Int (z : Z)
| Float (f : float).

(** [f < z] for a float and an int: Python compares the exact values. *)
Definition float_lt_int (f : float) (z : Z) : bool :=
  match f with
  | S754_nan => false
  | S754_infinity s => s
  | S754_zero _ => (0 <? z)%Z
  | S754_finite s m e =>
      let v := (if s then Z.neg m else Z.pos m) in
      if (0 <=? e)%Z then (v * 2 ^ e <? z)%Z
      else (v <? z * 2 ^ (- e))%Z
  end.

(** [f < p]. *)
Definition float_lt (f : float) (p : number) : bool :=
  match p with
  | Int z => float_lt_int f z
  | Float g => SFltb f g
  end.

(** The literals [100.0] and [0.01]. *)
Definition f100 : float := Eval vm_compute in int_to_double 100.
Definition f0_01 : float := Eval vm_compute in fdiv (int_to_double 1) f100.

(** ** Python values, dictionaries and the built-ins used on them *)

(** The values that reach [Config]: scalars, sequences and nested [Config]
    objects.  An object is identified with its [__dict__]. *)
#[warnings="-register-all"]
Inductive value :=
| VNone
| VBool (b : bool)
| VInt (z : Z)
| VFloat (f : float)
| VStr (s : string)
| VList (l : list value)
| VTuple (l : list value)
| VConfig (d : list (string * value)).

(** A [dict] with string keys, in insertion order. *)
Abbreviation dict V := (list (string * V)) (only parsing).

Fixpoint dict_get {V} (d : dict V) (k : string) : option V :=
  match d with
  | [] => None
  | (k', v) :: rest => if String.eqb k' k then Some v else dict_get rest k
  end.

(** [d[k] = v]: an existing key keeps its place, a new one goes last. *)
Fixpoint dict_set {V} (d : dict V) (k : string) (v : V) : dict V :=
  match d with
  | [] => [(k, v)]
  | (k', v') :: rest =>
      if String.eqb k' k then (k', v) :: rest
      else (k', v') :: dict_set rest k v
  end.

Definition dict_keys {V} (d : dict V) : list string := map fst d.

Definition dict_has {V} (d : dict V) (k : string) : bool :=
  existsb (String.eqb k) (dict_keys d).

(** [sorted(l, key=...)]: a stable sort. *)
Fixpoint insert_by {A} (key : A -> string) (x : A) (l : list A) : list A :=
  match l with
  | [] => [x]
  | y :: rest =>
      if String.leb (key x) (key y) then x :: y :: rest
      else y :: insert_by key x rest
  end.

Definition sorted_by {A} (key : A -> string) (l : list A) : list A :=
  fold_right (insert_by key) [] l.

Fixpoint mapM {A B} (f : A -> res B) (l : list A) : res (list B) :=
  match l with
  | [] => Ok []
  | x :: rest =>
      let* y := f x in
      let* ys := mapM f rest in
      Ok (y :: ys)
  end.

(** The decimal digits of an int, with its sign. *)
Definition str_int (z : Z) : string :=
  DecimalString.NilZero.string_of_int (Z.to_int z).

(** How many digits that is, the sign not counted. *)
Definition int_digits (z : Z) : nat := String.length (str_int (Z.abs z)).

(** The first failure among the outcomes of a left-to-right traversal. *)
Fixpoint first_failure (l : list (option exception)) : option exception :=
  match l with
  | [] => None
  | Some e :: _ => Some e
  | None :: rest => first_failure rest
  end.

(** [bool(v)]. *)
Definition truthy (v : value) : bool :=
  match v with
  | VNone => false
  | VBool b => b
  | VInt z => negb (z =? 0)%Z
  | VFloat f => negb (is_zero f)
  | VStr s => negb (String.eqb s "")
  | VList l | VTuple l => match l with [] => false | _ => true end
  | VConfig _ => true
  end.

(** Characters of a [str]: a UTF-8 continuation byte (10xxxxxx) stays with
    the byte before it. *)
Definition is_continuation (c : ascii) : bool :=
  let n := N_of_ascii c in ((128 <=? n) && (n <? 192))%N.

Definition flush (cur : string) : list string :=
  match cur with
  | EmptyString => []
  | _ => [cur]
  end.

Fixpoint utf8_chars_from (cur s : string) : list string :=
  match s with
  | EmptyString => flush cur
  | String c rest =>
      if is_continuation c then utf8_chars_from (cur ++ String c "") rest
      else flush cur ++ utf8_chars_from (String c "") rest
  end.

Definition utf8_chars (s : string) : list string := utf8_chars_from "" s.

Definition isinstance_bool (v : value) : bool :=
  match v with VBool _ => true | _ => false end.
(** [bool] is a subclass of [int]. *)
Definition isinstance_int (v : value) : bool :=
  match v with VInt _ | VBool _ => true | _ => false end.
Definition isinstance_float (v : value) : bool :=
  match v with VFloat _ => true | _ => false end.
Definition isinstance_str (v : value) : bool :=
  match v with VStr _ => true | _ => false end.
Definition isinstance_list (v : value) : bool :=
  match v with VList _ => true | _ => false end.
Definition isinstance_tuple (v : value) : bool :=
  match v with VTuple _ => true | _ => false end.

Definition sequence_items (v : value) : list value :=
  match v with
  | VList l | VTuple l => l
  | _ => []
  end.

(** [iter(v)] run to the end: lists, tuples and strings are iterable here. *)
Definition py_iter (v : value) : res (list value) :=
  match v with
  | VList l | VTuple l => Ok l
  | VStr s => Ok (map VStr (utf8_chars s))
  | _ => Raise (Exc TypeError [])
  end.

(** [getattr(obj, name)] for an instance attribute. *)
Definition getattr (obj : dict value) (name : string) : res value :=
  match dict_get obj name with
  | Some v => Ok v
  | None => Raise (Exc AttributeError [])
  end.

(** ** Config *)

Section Config.

(** [repr] of a float (shortest round-trip decimal) and the text of the
    [str] of a container or object are the interpreter's. *)
Variable float_repr : float -> string.
Variable object_str : value -> string.

(** Two limits of the interpreter.  [sys.get_int_max_str_digits()]: [None]
    stands for 0, no limit (and for interpreters without the setting),
    [Some extra] for the limit [640 + extra], 640 being the least limit the
    interpreter takes (4300 by default).  [repr_room]: how many nested calls
    of [repr] the recursion limit leaves room for where [_process_attr]
    calls [str]. *)
Variable int_max_str_digits : option nat.
Variable repr_room : nat.

(** [str(n)] for an int: [ValueError] when it has more digits than the
    limit. *)
Definition str_of_int (z : Z) : res string :=
  match int_max_str_digits with
  | Some extra =>
      if (640 + extra <? int_digits z)%nat then
        Raise (Exc ValueError
                 ["Exceeds the limit for integer string conversion"])
      else Ok (str_int z)
  | None => Ok (str_int z)
  end.

(** What stops [repr(v)] with [room] levels left: each object takes a
    level, the items of a list or tuple are visited from left to right, and
    an int is subject to the digit limit. *)
Fixpoint repr_failure (room : nat) (v : value) : option exception :=
  match room with
  | O => Some (Exc RecursionError [])
  | S room' =>
      match v with
      | VInt z =>
          match str_of_int z with
          | Raise e => Some e
          | Ok _ => None
          end
      | VList l | VTuple l => first_failure (map (repr_failure room') l)
      | _ => None
      end
  end.

(** [str(v)]. *)
Definition py_str (v : value) : res string :=
  match v with
  | VNone => Ok "None"
  | VBool true => Ok "True"
  | VBool false => Ok "False"
  | VInt z => str_of_int z
  | VFloat f => Ok (float_repr f)
  | VStr s => Ok s
  | _ =>
      match repr_failure repr_room v with
      | Some e => Raise e
      | None => Ok (object_str v)
      end
  end.

Definition _get_fields (attr : value) : res (list value) :=
  match attr with
  | VConfig d => mapM (getattr d) (sorted_by id (dict_keys d))
  | _ => Ok [attr]
  end.

(** [setattr(self, name, attr)]: [identifier] is a property without a
    setter and [__weakref__] is read-only; [__dict__] and [__class__] only
    take a dictionary and a class, which no [value] is. *)
Definition setattr (self : dict value) (name : string) (attr : value)
  : res (dict value) :=
  if String.eqb name "identifier" || String.eqb name "__weakref__" then
    Raise (Exc AttributeError [])
  else if String.eqb name "__dict__" || String.eqb name "__class__" then
    Raise (Exc TypeError [])
  else Ok (dict_set self name attr).

Fixpoint setattr_all (self : dict value) (kwargs : dict value)
  : res (dict value) :=
  match kwargs with
  | [] => Ok self
  | (name, attr) :: rest =>
      let* self' := setattr self name attr in
      setattr_all self' rest
  end.

(** [Config.__init__(self, **kwargs)] on a fresh object.  A keyword named
    [self] clashes with the first parameter, and the call fails before the
    body runs. *)
Definition Config_init (kwargs : dict value) : res (dict value) :=
  if dict_has kwargs "self" then
    Raise (Exc TypeError ["got multiple values for argument 'self'"])
  else
    let* self := setattr_all [] kwargs in
    if dict_has kwargs "scope" then
      let* self := setattr self "is_main" (VBool true) in
      let* fields :=
        mapM (fun '(name, attr) => _get_fields attr)
          (List.filter (fun '(name, attr) => negb (String.eqb name "scope"))
             (sorted_by fst kwargs)) in
      setattr self "identifier_fields" (VList (concat fields))
    else Ok self.

Definition _process_attr (attr : value) : res string :=
  if isinstance_int attr || isinstance_float attr || isinstance_str attr then
    py_str attr
  else if isinstance_list attr || isinstance_tuple attr then
    let* parts := mapM py_str (sequence_items attr) in
    Ok (String.concat "x" parts)
  else if isinstance_bool attr then
    if truthy attr then
      let* s := py_str attr in Ok ("YES" ++ s)
    else
      let* s := py_str attr in Ok ("NO" ++ s)
  else Raise (Exc TypeError ["Wrong dtype."]).

(** [self.scope + "_"]: only a [str] can be added to a [str]. *)
Definition add_str (v : value) (s : string) : res string :=
  match v with
  | VStr t => Ok (t ++ s)
  | _ => Raise (Exc TypeError [])
  end.

(** [self._process_attr(name)]: an instance attribute of that name hides the
    method, and no [value] can be called. *)
Definition call_process_attr (self : dict value) (name : value) : res string :=
  match dict_get self "_process_attr" with
  | Some _ => Raise (Exc TypeError [])
  | None => _process_attr name
  end.

(** The [identifier] property. *)
Definition identifier (self : dict value) : res string :=
  let* is_main := getattr self "is_main" in
  if truthy is_main then
    let* identifier_fields := getattr self "identifier_fields" in
    let* names := py_iter identifier_fields in
    let* parts := mapM (call_process_attr self) names in
    let fields := String.concat "_" parts in
    let* scope := getattr self "scope" in
    let* prefix := add_str scope "_" in
    Ok (prefix ++ fields)
  else
    Raise (Exc AttributeError ["There is no field `scope` in this config"]).

End Config.

(** ** linear_decay and lr_scheduler *)

(** [(end - start)/n_iter*current_iter + start], with the operand kinds of the
    signature: [start], [end] floats, [n_iter], [current_iter] ints. *)
Definition linear_decay (start end_ : float) (n_iter current_iter : Z)
  : res float :=
  let* slope := float_div_int (fsub end_ start) n_iter in
  let* rise := float_mul_int slope current_iter in
  Ok (fadd rise start).

(** [config.train], as [lr_scheduler] reads it. *)
Record train_config := {
  lr_min : float;
  lr_max : float;
  epochs : Z
}.

Record scheduler_config := { train : train_config }.

Definition lr_scheduler (current_epoch : Z) (config : scheduler_config)
  : res float :=
  let lr_min := lr_min (train config) in
  let lr_max := lr_max (train config) in
  let edge := (epochs (train config) / 3)%Z in
  if (current_epoch <? current_epoch)%Z then
    linear_decay lr_min lr_max edge current_epoch
  else
    linear_decay lr_max lr_min (epochs (train config)) current_epoch.

(** ** Paths and patterns *)

Definition startswith (s pre : string) : bool := String.prefix pre s.

Fixpoint endswith (s suf : string) : bool :=
  String.eqb s suf
  || match s with
     | EmptyString => false
     | String _ rest => endswith rest suf
     end.

Fixpoint has_sep (s : string) : bool :=
  match s with
  | EmptyString => false
  | String c rest => Ascii.eqb c "/" || has_sep rest
  end.

(** [os.path.basename]: what follows the last slash. *)
Fixpoint basename (p : string) : string :=
  match p with
  | EmptyString => EmptyString
  | String c rest =>
      if has_sep rest then basename rest
      else if Ascii.eqb c "/" then rest
      else p
  end.

(** One step of [os.path.join]. *)
Definition join2 (path b : string) : string :=
  if startswith b "/" then b
  else if String.eqb path "" || endswith path "/" then path ++ b
  else path ++ "/" ++ b.

Definition path_join (a : string) (p : list string) : string :=
  fold_left join2 p a.

Definition is_lower_alnum (c : ascii) : bool :=
  let n := N_of_ascii c in
  (((97 <=? n) && (n <=? 122)) || ((48 <=? n) && (n <=? 57)))%N.

(** [re.sub(r'[^a-z0-9]+', ' ', s)]; [in_run] tells that the run under way
    has already been replaced. *)
Fixpoint sub_non_alnum (in_run : bool) (s : string) : string :=
  match s with
  | EmptyString => EmptyString
  | String c rest =>
      if is_lower_alnum c then String c (sub_non_alnum false rest)
      else if in_run then sub_non_alnum true rest
      else String " " (sub_non_alnum true rest)
  end.

(** ** create_image_lists *)

Definition MAX_NUM_IMAGES_PER_CLASS : Z := 2 ^ 27 - 1.
Definition VALID_IMAGE_FORMATS : list string := ["jpg"; "jpeg"; "JPG"; "JPEG"].

(** What the function asks of the operating system and the interpreter. *)
Record runtime := {
  (** [os.path.isdir] *)
  os_path_isdir : string -> bool;
  (** [[x[0] for x in os.walk(top)]] *)
  os_walk_dirs : string -> list string;
  (** [glob.glob] *)
  glob_glob : string -> list string;
  (** the order in which the frozenset [VALID_IMAGE_FORMATS] is iterated *)
  formats_order : list string;
  (** [str.lower] *)
  str_lower : string -> string
}.

(** An entry of a per-label dictionary: the directory name or a file list. *)
Inductive entry :=
| EStr (s : string)
| EList (l : list string).

(** The argument of [as_bytes]: a [str], a [bytes], or something else, of
    which only the [repr] matters. *)
Inductive bytes_or_text :=
| Text (s : string)
| Bytes (b : list byte)
| NotText (repr : string).

(** A byte within [lo, hi]. *)
Definition byte_in (lo hi : N) (c : ascii) : bool :=
  let n := N_of_ascii c in ((lo <=? n) && (n <=? hi))%N.

(** Well-formed UTF-8: no stray or missing continuation byte, no overlong
    form, no surrogate (ED A0..BF), nothing above U+10FFFF.  [os.fsdecode]
    turns every byte of a file name outside such a sequence into a lone
    surrogate, which [str.encode('utf-8')] refuses; a [str] of that kind is
    held here as a string that is not well-formed. *)
Fixpoint utf8_valid (s : string) : bool :=
  match s with
  | EmptyString => true
  | String c0 s1 =>
      if byte_in 0 127 c0 then utf8_valid s1
      else
        match s1 with
        | EmptyString => false
        | String c1 s2 =>
            if byte_in 194 223 c0 then byte_in 128 191 c1 && utf8_valid s2
            else
              match s2 with
              | EmptyString => false
              | String c2 s3 =>
                  if byte_in 224 239 c0 then
                    (if byte_in 224 224 c0 then byte_in 160 191 c1
                     else if byte_in 237 237 c0 then byte_in 128 159 c1
                     else byte_in 128 191 c1)
                    && byte_in 128 191 c2 && utf8_valid s3
                  else
                    match s3 with
                    | EmptyString => false
                    | String c3 s4 =>
                        byte_in 240 244 c0
                        && (if byte_in 240 240 c0 then byte_in 144 191 c1
                            else if byte_in 244 244 c0 then byte_in 128 143 c1
                            else byte_in 128 191 c1)
                        && byte_in 128 191 c2 && byte_in 128 191 c3
                        && utf8_valid s4
                    end
              end
        end
  end.

(** [as_bytes(bytes_or_text)] with the default encoding. *)
Definition as_bytes (bytes_or_text : bytes_or_text) : res (list byte) :=
  match bytes_or_text with
  | Text s =>
      if utf8_valid s then Ok (list_byte_of_string s)
      else Raise (Exc UnicodeEncodeError [])
  | Bytes b => Ok b
  | NotText repr =>
      Raise (Exc TypeError ["Expected binary or unicode string, got " ++ repr])
  end.

(** Lines 192-194: the percentage a base name hashes to. *)
Definition hash_pct (base_name : string) : res float :=
  let* bytes := as_bytes (Text base_name) in
  let hash_name := sha1_hexdigest bytes in
  let* n := int_base16 hash_name in
  let* scale := float_div_int f100 MAX_NUM_IMAGES_PER_CLASS in
  int_mul_float (n mod (MAX_NUM_IMAGES_PER_CLASS + 1))%Z scale.

(** Lines 189-198: one turn of the loop over [file_list]. *)
Definition assign (validation_pct : number) (lists : list string * list string)
  (file_name : string) : res (list string * list string) :=
  let '(training_images, validation_images) := lists in
  let base_name := basename file_name in
  let* pct := hash_pct base_name in
  if float_lt pct validation_pct then
    Ok (training_images, (validation_images ++ [base_name])%list)
  else
    Ok ((training_images ++ [base_name])%list, validation_images).

Fixpoint assign_all (validation_pct : number)
  (lists : list string * list string) (file_list : list string)
  : res (list string * list string) :=
  match file_list with
  | [] => Ok lists
  | file_name :: rest =>
      let* lists := assign validation_pct lists file_name in
      assign_all validation_pct lists rest
  end.

(** Lines 173-175: the globs of one class directory, one per extension. *)
Definition collect_files (rt : runtime) (image_dir dir_name : string)
  : list string :=
  flat_map
    (fun extension =>
       glob_glob rt (path_join image_dir [dir_name; "*." ++ extension]))
    (formats_order rt).

Definition class_record (dir_name : string)
  (training_images validation_images : list string) : dict entry :=
  [("dir", EStr dir_name);
   ("training", EList training_images);
   ("validation", EList validation_images)].

(** The dictionary built so far and the warnings issued. *)
Definition indexer_state : Type := dict (dict entry) * list string.

Definition size_warnings (dir_name : string) (file_list : list string)
  : list string :=
  let n := Z.of_nat (length file_list) in
  if (n <? 20)%Z then
    ["Folder has less than 20 images, which may cause issues."]
  else if (MAX_NUM_IMAGES_PER_CLASS <? n)%Z then
    ["WARNING: Folder " ++ dir_name ++ " has more than "
       ++ str_int MAX_NUM_IMAGES_PER_CLASS
       ++ " images. Some images will never be selected."]
  else [].

(** Lines 167-203: the body of the loop over the sub-directories. *)
Definition index_sub_dir (rt : runtime) (image_dir : string)
  (validation_pct : number) (st : indexer_state) (sub_dir : string)
  : res indexer_state :=
  let '(image_lists, warned) := st in
  let dir_name := basename sub_dir in
  if String.eqb dir_name image_dir then Ok st
  else
    let file_list := collect_files rt image_dir dir_name in
    match file_list with
    | [] => Ok (image_lists, (warned ++ ["No files found"])%list)
    | _ =>
        let warned := (warned ++ size_warnings dir_name file_list)%list in
        let label_name := sub_non_alnum false (str_lower rt dir_name) in
        let* lists := assign_all validation_pct ([], []) file_list in
        let '(training_images, validation_images) := lists in
        Ok (dict_set image_lists label_name
              (class_record dir_name training_images validation_images),
            warned)
    end.

Fixpoint index_sub_dirs (rt : runtime) (image_dir : string)
  (validation_pct : number) (st : indexer_state) (sub_dirs : list string)
  : res indexer_state :=
  match sub_dirs with
  | [] => Ok st
  | sub_dir :: rest =>
      let* st := index_sub_dir rt image_dir validation_pct st sub_dir in
      index_sub_dirs rt image_dir validation_pct st rest
  end.

(** [create_image_lists(image_dir, validation_pct)]: the dictionary returned
    and the warnings issued on the way. *)
Definition create_image_lists (rt : runtime) (image_dir : string)
  (validation_pct : number) : res indexer_state :=
  if negb (os_path_isdir rt image_dir) then
    Raise (Exc ValueError ["Image directory " ++ image_dir ++ " not found."])
  else
    let image_lists := [] in
    let sub_dirs := os_walk_dirs rt image_dir in
    let sub_dirs_without_root := skipn 1 sub_dirs in
    index_sub_dirs rt image_dir validation_pct (image_lists, [])
      sub_dirs_without_root.

(** ** except_catcher *)

Section Generator.

(** The wrapped iterator: [next(gen)] returns a value or raises, and leaves
    the iterator in a new state. *)
Context {D St : Type}.

Inductive outcome :=
| Returns (data : D)
| Raises (e : exception).

Variable next : St -> outcome * St.

(** What [print('Ups! Something wrong!', e)] is given. *)
Definition diagnostic (e : exception) : string * exception :=
  ("Ups! Something wrong!", e).

(** One pull on the wrapper ends at its [yield], or with an exception that
    [except Exception] lets through; [Looping] is a pull still inside
    [while True] when the fuel ran out. *)
Inductive pulled :=
| Yields (data : D) (s : St)
| Propagates (e : exception)
| Looping (s : St).

(** [next(except_catcher(gen))]: what is printed and how the pull ends.
    [fuel] bounds the number of turns of [while True]. *)
Fixpoint except_catcher_next (fuel : nat) (s : St)
  : list (string * exception) * pulled :=
  match fuel with
  | O => ([], Looping s)
  | S fuel' =>
      match next s with
      | (Returns data, s') => ([], Yields data s')
      | (Raises e, s') =>
          if is_Exception (exc_cls e) then
            let '(printed, r) := except_catcher_next fuel' s' in
            (diagnostic e :: printed, r)
          else ([], Propagates e)
      end
  end.

(** The first [n] values of the wrapped sequence, with everything printed
    while they were pulled; the run stops at a pull that does not yield. *)
Fixpoint except_catcher_take (fuel n : nat) (s : St)
  : list (string * exception) * list D :=
  match n with
  | O => ([], [])
  | S n' =>
      match except_catcher_next fuel s with
      | (printed, Yields data s') =>
          let '(printed', rest) := except_catcher_take fuel n' s' in
          ((printed ++ printed')%list, data :: rest)
      | (printed, _) => (printed, [])
      end
  end.

End Generator.

Arguments outcome : clear implicits.
Arguments pulled : clear implicits.

(** A producer that raises on its third pull and returns the pull number on
    every other one; its state is the number of pulls made. *)
Definition third_pull_fails (pulls : nat) : outcome nat * nat :=
  let k := S pulls in
  if (k =? 3)%nat then (Raises (Exc OSError ["cannot identify image file"]), k)
  else (Returns k, k).

(** ** ImageListIterator *)

Definition dict_getitem {V} (d : dict V) (k : string) : res V :=
  match dict_get d k with
  | Some v => Ok v
  | None => Raise (Exc KeyError [k])
  end.

(** [dict(pairs)]. *)
Definition dict_of {V} (pairs : list (string * V)) : dict V :=
  fold_left (fun d '(k, v) => dict_set d k v) pairs [].

(** A [dict] with int keys. *)
Fixpoint int_dict_set {V} (d : list (Z * V)) (k : Z) (v : V) : list (Z * V) :=
  match d with
  | [] => [(k, v)]
  | (k', v') :: rest =>
      if (k' =? k)%Z then (k', v) :: rest
      else (k', v') :: int_dict_set rest k v
  end.

(** The items of a list, or the characters of a string. *)
Definition entry_items (e : entry) : list string :=
  match e with
  | EList l => l
  | EStr s => utf8_chars s
  end.

(** [a[j]] for a Python list or a one-dimensional array: a negative index
    counts from the end. *)
Definition normalize_index (n : nat) (j : Z) : res nat :=
  let len := Z.of_nat n in
  if ((0 <=? j) && (j <? len))%Z then Ok (Z.to_nat j)
  else if ((- len <=? j) && (j <? 0))%Z then Ok (Z.to_nat (j + len))
  else Raise (Exc IndexError []).

Definition py_index {A} (a : list A) (j : Z) : res A :=
  let* i := normalize_index (length a) j in
  match a !! i with
  | Some x => Ok x
  | None => Raise (Exc IndexError [])
  end.

(** [a[index_array]]. *)
Definition np_take {A} (a : list A) (index_array : list Z) : res (list A) :=
  mapM (py_index a) index_array.

Definition in_int32 (v : Z) : bool := ((- 2 ^ 31 <=? v) && (v <? 2 ^ 31))%Z.

(** [a[i] = v] on an [int32] array. *)
Definition np_store_int32 (a : list Z) (i : nat) (v : Z) : res (list Z) :=
  if (i <? length a)%nat then
    if in_int32 v then Ok (<[i := v]> a)
    else Raise (Exc OverflowError [])
  else Raise (Exc IndexError []).

(** [m[i, c] = v] on a two-dimensional array. *)
Definition np_store2 {A} (m : list (list A)) (i : nat) (c : Z) (v : A)
  : res (list (list A)) :=
  match m !! i with
  | None => Raise (Exc IndexError [])
  | Some row =>
      let* c' := normalize_index (length row) c in
      Ok (<[i := <[c' := v]> row]> m)
  end.

Definition get_image_path (image_lists : dict (dict entry))
  (label_name : string) (index : Z) (image_dir category : string)
  : res string :=
  if negb (dict_has image_lists label_name) then
    Raise (Exc ValueError ["Label does not exist "; label_name])
  else
    let* label_lists := dict_getitem image_lists label_name in
    if negb (dict_has label_lists category) then
      Raise (Exc ValueError ["Category does not exist "; category])
    else
      let* category_list := dict_getitem label_lists category in
      match entry_items category_list with
      | [] =>
          Raise (Exc ValueError
                   ["Label %s has no images in the category %s.";
                    label_name; category])
      | _ =>
          let mod_index :=
            (index mod Z.of_nat (length (entry_items category_list)))%Z in
          let* base_name := py_index (entry_items category_list) mod_index in
          let* sub_dir := dict_getitem label_lists "dir" in
          match sub_dir with
          | EStr sub_dir => Ok (path_join image_dir [sub_dir; base_name])
          | EList _ => Raise (Exc TypeError [])
          end
      end.

(** [K.floatx()] and [K.image_data_format()]. *)
Inductive floatx := float16 | float32 | float64.

Record backend := {
  K_floatx : floatx;
  K_image_data_format : string
}.

Definition floatx_prec (fx : floatx) : Z :=
  match fx with float16 => 11 | float32 => 24 | float64 => 53 end.
Definition floatx_emax (fx : floatx) : Z :=
  match fx with float16 => 16 | float32 => 128 | float64 => 1024 end.

(** An integer stored with dtype [fx]. *)
Definition to_floatx (fx : floatx) (z : Z) : float :=
  binary_normalize (floatx_prec fx) (floatx_emax fx) z 0 false.

Record ImageListIterator := {
  category : string;
  num_class : nat;
  image_lists : dict (dict entry);
  image_dir : string;
  samples : nat;
  class2id : dict Z;
  id2class : list (Z * string);
  classes : list Z;
  target_size : list Z;
  color_mode : string;
  data_format : string;
  image_shape : list Z;
  class_mode : option string;
  save_to_dir : option string;
  save_prefix : string;
  save_format : string;
  filenames : list string;
  (** handed to [Iterator.__init__] *)
  batch_size : Z;
  shuffle : bool;
  seed : option Z
}.

(** Lines 409-412. *)
Fixpoint count_files (image_lists : dict (dict entry)) (category : string)
  (classes : list string) (how_many_files : nat) : res nat :=
  match classes with
  | [] => Ok how_many_files
  | label_name :: rest =>
      let* label_lists := dict_getitem image_lists label_name in
      let* files := dict_getitem label_lists category in
      count_files image_lists category rest
        (fold_left (fun n _ => S n) (entry_items files)
           how_many_files)
  end.

(** The cursor [i], [self.classes] and [self.filenames] in the loop of lines
    446-457. *)
Definition fill_state : Type := nat * list Z * list string.

(** Lines 450-457: the body for the [j]-th file of [label_name]. *)
Definition fill_one (image_lists : dict (dict entry)) (class2id : dict Z)
  (image_dir category label_name : string) (st : fill_state) (j : nat)
  : res fill_state :=
  let '(i, classes, filenames) := st in
  let* id := dict_getitem class2id label_name in
  let* classes := np_store_int32 classes i id in
  let* img_path :=
    get_image_path image_lists label_name (Z.of_nat j) image_dir category in
  Ok (S i, classes, (filenames ++ [img_path])%list).

Fixpoint fill_label (image_lists : dict (dict entry)) (class2id : dict Z)
  (image_dir category label_name : string) (st : fill_state) (js : list nat)
  : res fill_state :=
  match js with
  | [] => Ok st
  | j :: rest =>
      let* st :=
        fill_one image_lists class2id image_dir category label_name st j in
      fill_label image_lists class2id image_dir category label_name st rest
  end.

Fixpoint fill_all (image_lists : dict (dict entry)) (class2id : dict Z)
  (image_dir category : string) (st : fill_state) (classes : list string)
  : res fill_state :=
  match classes with
  | [] => Ok st
  | label_name :: rest =>
      let* label_lists := dict_getitem image_lists label_name in
      let* files := dict_getitem label_lists category in
      let* st :=
        fill_label image_lists class2id image_dir category label_name st
          (seq 0 (length (entry_items files))) in
      fill_all image_lists class2id image_dir category st rest
  end.

Definition dq : string := String (ascii_of_nat 34) "".

(** [ImageListIterator.__init__]; the image data generator is only stored and
    plays no part here. *)
Definition ImageListIterator_init (K : backend)
  (image_lists : dict (dict entry)) (category image_dir : string)
  (target_size : list Z) (color_mode : string) (class_mode : option string)
  (batch_size : Z) (shuffle : bool) (seed : option Z)
  (data_format : option string)
  (save_to_dir : option string) (save_prefix save_format : string)
  : res ImageListIterator :=
  let data_format :=
    match data_format with
    | None => K_image_data_format K
    | Some f => f
    end in
  let classes := dict_keys image_lists in
  let num_class := length classes in
  let* how_many_files := count_files image_lists category classes 0 in
  let samples := how_many_files in
  let class2id :=
    dict_of (combine classes (map Z.of_nat (seq 0 (length classes)))) in
  let id2class :=
    fold_left (fun d '(k, v) => int_dict_set d v k) class2id [] in
  let self_classes := repeat 0%Z samples in
  if negb (String.eqb color_mode "rgb" || String.eqb color_mode "grayscale")
  then
    Raise (Exc ValueError
             ["Invalid color mode:"; color_mode;
              "; expected " ++ dq ++ "rgb" ++ dq ++ " or " ++ dq
                ++ "grayscale" ++ dq ++ "."])
  else
    let image_shape :=
      if String.eqb color_mode "rgb" then
        if String.eqb data_format "channels_last" then
          (target_size ++ [3%Z])%list
        else (3%Z :: target_size)
      else
        if String.eqb data_format "channels_last" then
          (target_size ++ [1%Z])%list
        else (1%Z :: target_size) in
    let class_mode_ok :=
      match class_mode with
      | None => true
      | Some m =>
          String.eqb m "categorical" || String.eqb m "binary"
          || String.eqb m "sparse"
      end in
    if negb class_mode_ok then
      Raise (Exc ValueError
               ["Invalid class_mode:";
                match class_mode with Some m => m | None => "None" end;
                "; expected one of " ++ dq ++ "categorical" ++ dq ++ ", "
                  ++ dq ++ "binary" ++ dq ++ ", " ++ dq ++ "sparse" ++ dq
                  ++ ", or None."])
    else
      let* filled :=
        fill_all image_lists class2id image_dir category
          (O, self_classes, []) classes in
      let '(_, self_classes, filenames) := filled in
      Ok {| category := category;
            num_class := num_class;
            image_lists := image_lists;
            image_dir := image_dir;
            samples := samples;
            class2id := class2id;
            id2class := id2class;
            classes := self_classes;
            target_size := target_size;
            color_mode := color_mode;
            data_format := data_format;
            image_shape := image_shape;
            class_mode := class_mode;
            save_to_dir := save_to_dir;
            save_prefix := save_prefix;
            save_format := save_format;
            filenames := filenames;
            batch_size := batch_size;
            shuffle := shuffle;
            seed := seed |}.

Inductive batch_labels :=
| SparseLabels (y : list Z)
| BinaryLabels (y : list float)
| CategoricalLabels (y : list (list float)).

Section Batches.

(** The image pipeline is Keras's: [load_sample i name] stands for
    [load_img], [img_to_array], [random_transform] and [standardize] applied
    to the file for slot [i] of the batch, [save_sample] for writing slot [i]
    to [save_to_dir]; [blank] is an all-zero image. *)
Variable image : Type.
Variable blank : image.
Variable load_sample : ImageListIterator -> nat -> string -> res image.
Variable save_sample : ImageListIterator -> string -> Z -> nat -> image -> res unit.

Variable K : backend.

(** Lines 478-485. *)
Fixpoint load_batch (self : ImageListIterator) (batch_x : list image)
  (i : nat) (index_array : list Z) : res (list image) :=
  match index_array with
  | [] => Ok batch_x
  | j :: rest =>
      let* name := py_index (filenames self) j in
      let* x := load_sample self i name in
      if (i <? length batch_x)%nat then
        load_batch self (<[i := x]> batch_x) (S i) rest
      else Raise (Exc IndexError [])
  end.

(** Lines 487-495. *)
Fixpoint save_batch (self : ImageListIterator) (dir : string)
  (current_index : Z) (batch_x : list image) (slots : list nat)
  : res unit :=
  match slots with
  | [] => Ok tt
  | i :: rest =>
      let* img := py_index batch_x (Z.of_nat i) in
      let* _ := save_sample self dir current_index i img in
      save_batch self dir current_index batch_x rest
  end.

(** Lines 504-505. *)
Fixpoint fill_one_hot (batch_y : list (list float)) (i : nat)
  (labels : list Z) : res (list (list float)) :=
  match labels with
  | [] => Ok batch_y
  | label :: rest =>
      let* batch_y := np_store2 batch_y i label (to_floatx (K_floatx K) 1) in
      fill_one_hot batch_y (S i) rest
  end.

Definition mode_is (self : ImageListIterator) (m : string) : bool :=
  match class_mode self with
  | Some m' => String.eqb m' m
  | None => false
  end.

(** [ImageListIterator.next], given what [next(self.index_generator)]
    returned. *)
Definition ImageListIterator_next (self : ImageListIterator)
  (index_array : list Z) (current_index : Z) (current_batch_size : nat)
  : res (list image * option batch_labels) :=
  let batch_x := repeat blank current_batch_size in
  let* batch_x := load_batch self batch_x 0 index_array in
  let* _ :=
    match save_to_dir self with
    | Some dir =>
        if String.eqb dir "" then Ok tt
        else save_batch self dir current_index batch_x
               (seq 0 current_batch_size)
    | None => Ok tt
    end in
  if mode_is self "sparse" then
    let* batch_y := np_take (classes self) index_array in
    Ok (batch_x, Some (SparseLabels batch_y))
  else if mode_is self "binary" then
    let* batch_y := np_take (classes self) index_array in
    Ok (batch_x, Some (BinaryLabels (map (to_floatx (K_floatx K)) batch_y)))
  else if mode_is self "categorical" then
    let batch_y :=
      repeat (repeat (to_floatx (K_floatx K) 0) (num_class self))
        (length batch_x) in
    let* labels := np_take (classes self) index_array in
    let* batch_y := fill_one_hot batch_y 0 labels in
    Ok (batch_x, Some (CategoricalLabels batch_y))
  else Ok (batch_x, None).

End Batches.

(** ** Worked inputs *)

(** [Config(scope="run", lr=0.01, epochs=10, aug=Config(aug=True))]. *)
Definition run_kwargs : dict value :=
  [("scope", VStr "run"); ("lr", VFloat f0_01); ("epochs", VInt 10);
   ("aug", VConfig [("aug", VBool true)])].


(** The name of an exception class. *)
Definition exc_name (c : exc_class) : string :=
  match c with
  | AttributeError => "AttributeError"
  | TypeError => "TypeError"
  | ValueError => "ValueError"
  | KeyError => "KeyError"
  | IndexError => "IndexError"
  | ZeroDivisionError => "ZeroDivisionError"
  | OverflowError => "OverflowError"
  | StopIteration => "StopIteration"
  | OSError => "OSError"
  | UnicodeEncodeError => "UnicodeEncodeError"
  | RecursionError => "RecursionError"
  | KeyboardInterrupt => "KeyboardInterrupt"
  | SystemExit => "SystemExit"
  | GeneratorExit => "GeneratorExit"
  end.

(** [str.lower] on ASCII text. *)
Definition lower_ascii_char (c : ascii) : ascii :=
  let n := N_of_ascii c in
  if ((65 <=? n) && (n <=? 90))%N then ascii_of_N (n + 32) else c.

Fixpoint lower_ascii (s : string) : string :=
  match s with
  | EmptyString => EmptyString
  | String c rest => String (lower_ascii_char c) (lower_ascii rest)
  end.

(** A small tree: [data/Cats] holds a.jpg, b.jpg and c.JPEG, [data/dogs-2]
    holds a.jpg.jpeg, [data/empty] holds nothing. *)
Definition pets_glob (pattern : string) : list string :=
  if String.eqb pattern "data/Cats/*.jpg" then
    ["data/Cats/a.jpg"; "data/Cats/b.jpg"]
  else if String.eqb pattern "data/Cats/*.JPEG" then ["data/Cats/c.JPEG"]
  else if String.eqb pattern "data/dogs-2/*.jpeg" then
    ["data/dogs-2/a.jpg.jpeg"]
  else [].

Definition pets : runtime := {|
  os_path_isdir := fun p => String.eqb p "data";
  os_walk_dirs := fun p =>
    if String.eqb p "data" then
      ["data"; "data/Cats"; "data/dogs-2"; "data/empty"]
    else [];
  glob_glob := pets_glob;
  formats_order := ["JPG"; "jpeg"; "jpg"; "JPEG"];
  str_lower := lower_ascii
|}.

(** ** What [create_image_lists] relies on *)

(** [glob.glob] returns each matching path once, a path matching a pattern
    that ends in [*.ext] ends in [.ext] (names are compared as they are
    spelled, as on POSIX systems), and iterating the frozenset visits each
    format once. *)
Record runtime_ok (rt : runtime) : Prop := {
  glob_once : forall pattern, List.NoDup (glob_glob rt pattern);
  glob_matches : forall pattern extension p,
    In extension VALID_IMAGE_FORMATS ->
    endswith pattern ("*." ++ extension) = true ->
    In p (glob_glob rt pattern) ->
    endswith p ("." ++ extension) = true;
  formats_all : Permutation (formats_order rt) VALID_IMAGE_FORMATS
}.

(** ** The partition rule in the words of the specification *)

(** The SHA-1 digest of the UTF-8 bytes of a name, read as an integer. *)
Definition digest_number (base_name : string) : Z :=
  SHA1.be_value (SHA1.digest (list_byte_of_string base_name)).

(** The digest reduced modulo [(2^27 - 1) + 1] and multiplied by
    [100 / (2^27 - 1)]. *)
Definition spec_percentage (base_name : string) : float :=
  fmul (int_to_double (digest_number base_name mod ((2 ^ 27 - 1) + 1))%Z)
       (fdiv f100 (int_to_double (2 ^ 27 - 1))).

(** A name goes to validation when its percentage is below the requested
    one. *)
Definition spec_validation (validation_pct : number) (base_name : string)
  : bool :=
  float_lt (spec_percentage base_name) validation_pct.

(** The record the rule gives a class directory: its files' base names, in
    the order collected, split by [spec_validation]. *)
Definition split_record (rt : runtime) (image_dir : string)
  (validation_pct : number) (dir_name : string) : dict entry :=
  let base_names := map basename (collect_files rt image_dir dir_name) in
  class_record dir_name
    (List.filter (fun b => negb (spec_validation validation_pct b)) base_names)
    (List.filter (spec_validation validation_pct) base_names).

(** ** The flat index in the words of the specification *)

(** The entries of a label for a category, none when it has no such key. *)
Definition category_items (category : string) (label_lists : dict entry)
  : list string :=
  match dict_get label_lists category with
  | Some files => entry_items files
  | None => []
  end.

(** The path of a file of a label: root, the label's directory, base name. *)
Definition sample_path (image_dir : string) (label_lists : dict entry)
  (base_name : string) : string :=
  match dict_get label_lists "dir" with
  | Some (EStr sub_dir) => path_join image_dir [sub_dir; base_name]
  | _ => ""
  end.

(** The samples of a category, label after label in dictionary order: the
    path of each file with the label it belongs to. *)
Definition flat_samples (image_dir category : string)
  (image_lists : dict (dict entry)) : list (string * string) :=
  flat_map
    (fun '(label_name, label_lists) =>
       map (fun base_name =>
              (sample_path image_dir label_lists base_name, label_name))
         (category_items category label_lists))
    image_lists.

(** A label is usable for a category when it has the category and, if that
    holds any file, names its directory. *)
Definition label_ready (category : string) (lists : dict entry) : Prop :=
  exists files,
    dict_get lists category = Some files /\
    (entry_items files = [] \/
     exists sub_dir, dict_get lists "dir" = Some (EStr sub_dir)).

(** The class index a [class2id] dictionary gives a label. *)
Definition id_of (class2id : dict Z) (label_name : string) : Z :=
  match dict_get class2id label_name with
  | Some id => id
  | None => (-1)%Z
  end.

Definition class_index (self : ImageListIterator) (label_name : string) : Z :=
  id_of (class2id self) label_name.

(** Three labels, as [create_image_lists] would return them. *)
Definition zoo_lists : dict (dict entry) :=
  [("cats", class_record "Cats" ["a.jpg"; "b.jpg"] ["c.jpg"]);
   ("dogs", class_record "Dogs" [] ["d.jpg"]);
   ("owls", class_record "Owls" ["e.jpg"] [])].

Definition tf_backend : backend :=
  {| K_floatx := float32; K_image_data_format := "channels_last" |}.

(** [ImageListIterator(zoo_lists, ..., 'training', 'data',
    target_size=(224, 224))] with the defaults of [flow_from_image_lists]. *)
Definition zoo_iterator : res ImageListIterator :=
  ImageListIterator_init tf_backend zoo_lists "training" "data" [224; 224]%Z
    "rgb" (Some "categorical") 32 true None None None "" "jpeg".

(** A pipeline that stands for an image by its file name. *)
Definition name_as_image (self : ImageListIterator) (i : nat) (name : string)
  : res string := Ok name.
Definition no_save (self : ImageListIterator) (dir : string) (index : Z)
  (i : nat) (img : string) : res unit := Ok tt.

(** The object [zoo_iterator] builds, and the batch it gives for the index
    array [2, 0, -2]. *)
Definition zoo_self : ImageListIterator := {|
  category := "training";
  num_class := 3;
  image_lists := zoo_lists;
  image_dir := "data";
  samples := 3;
  class2id := [("cats", 0%Z); ("dogs", 1%Z); ("owls", 2%Z)];
  id2class := [(0%Z, "cats"); (1%Z, "dogs"); (2%Z, "owls")];
  classes := [0%Z; 0%Z; 2%Z];
  target_size := [224%Z; 224%Z];
  color_mode := "rgb";
  data_format := "channels_last";
  image_shape := [224%Z; 224%Z; 3%Z];
  class_mode := Some "categorical";
  save_to_dir := None;
  save_prefix := "";
  save_format := "jpeg";
  filenames := ["data/Cats/a.jpg"; "data/Cats/b.jpg"; "data/Owls/e.jpg"];
  batch_size := 32;
  shuffle := true;
  seed := None
|}.

Definition zoo_batch_x : list string :=
  ["data/Owls/e.jpg"; "data/Cats/a.jpg"; "data/Cats/b.jpg"].

Definition zoo_batch_y : list (list float) :=
  let zero := S754_zero false in
  let one := S754_finite false 8388608 (-23) in
  [[zero; zero; one]; [one; zero; zero]; [one; zero; zero]].

(** ** Sorted sequences *)

(** [l] is in ascending order of [key]. *)
Definition ascending {A} (key : A -> string) (l : list A) : Prop :=
  StronglySorted (fun x y => String.leb (key x) (key y) = true) l.






(** Neither infinite nor NaN. *)
Definition is_finite (f : float) : bool :=
  match f with
  | S754_zero _ | S754_finite _ _ _ => true
  | _ => false
  end.

Definition is_nonzero_finite (f : float) : bool :=
  match f with
  | S754_finite _ _ _ => true
  | _ => false
  end.

(** [lr_min=0.001, lr_max=0.1, epochs=30] as binary64 values. *)
Definition f0_001 : float :=
  Eval vm_compute in fdiv (int_to_double 1) (int_to_double 1000).
Definition f0_1 : float :=
  Eval vm_compute in fdiv (int_to_double 1) (int_to_double 10).

Definition thirty_epochs : scheduler_config :=
  {| train := {| lr_min := f0_001; lr_max := f0_1; epochs := 30 |} |}.

(** A label as [re.sub(r'[^a-z0-9]+', ' ', ...)] leaves it: lowercase
    letters, digits and spaces, no space next to another; [after_space]
    tells that the character before was a space. *)
Fixpoint normal_label (after_space : bool) (s : string) : bool :=
  match s with
  | EmptyString => true
  | String c rest =>
      if is_lower_alnum c then normal_label false rest
      else Ascii.eqb c " " && negb after_space && normal_label true rest
  end.

(** The label [create_image_lists] gives a walked sub-directory. *)
Definition label_of (rt : runtime) (sub_dir : string) : string :=
  sub_non_alnum false (str_lower rt (basename sub_dir)).

(** A sub-directory the loop passes over: its base name is [image_dir], or
    the globs of line 174 find no file.  These globs look in the directory
    of that base name directly under [image_dir], wherever the walked
    directory itself lies. *)
Definition passed_over (rt : runtime) (image_dir sub_dir : string) : Prop :=
  basename sub_dir = image_dir \/
  collect_files rt image_dir (basename sub_dir) = [].

(** The files collected for a directory name all have base names with a
    UTF-8 encoding. *)
Definition encodable_files (rt : runtime) (image_dir dir_name : string)
  : bool :=
  forallb utf8_valid (map basename (collect_files rt image_dir dir_name)).

(** A name in one of two lists and not in the other. *)
Definition in_exactly_one (base_name : string)
  (training_images validation_images : list string) : Prop :=
  (In base_name training_images /\ ~ In base_name validation_images)
  \/ (In base_name validation_images /\ ~ In base_name training_images).

(** What holds of every class of the dictionary while it is built: it is
    stored under the label of a sub-directory walked so far that was not
    passed over, and is the split of the files collected for it. *)
Definition indexed_class (rt : runtime) (image_dir : string)
  (validation_pct : number) (sub_dirs : list string)
  (label : string) (rec : dict entry) : Prop :=
  exists sub_dir,
    In sub_dir sub_dirs /\
    label = label_of rt sub_dir /\
    rec = split_record rt image_dir validation_pct (basename sub_dir) /\
    ~ passed_over rt image_dir sub_dir.

(** A float that is not below zero: a zero, or positive. *)
Definition not_negative (f : float) : bool :=
  match f with
  | S754_zero _ => true
  | S754_finite s _ _ => negb s
  | S754_infinity s => negb s
  | S754_nan => false
  end.

(** A percentage no hash percentage is below: an int not above zero, or a
    float that is zero, negative or not a number. *)
Definition not_positive (p : number) : bool :=
  match p with
  | Int z => (z <=? 0)%Z
  | Float (S754_zero _) => true
  | Float (S754_finite s _ _) => s
  | Float (S754_infinity s) => s
  | Float S754_nan => true
  end.

(** What [create_image_lists] returns for the worked tree with 60 percent
    kept for validation, and the warnings it issues. *)
Definition pets_lists : dict (dict entry) :=
  [("cats", class_record "Cats" ["a.jpg"] ["b.jpg"; "c.JPEG"]);
   ("dogs 2", class_record "dogs-2" ["a.jpg.jpeg"] [])].

Definition pets_warnings : list string :=
  ["Folder has less than 20 images, which may cause issues.";
   "Folder has less than 20 images, which may cause issues.";
   "No files found"].

(** Two dictionaries built from the same tree for two percentages: the same
    labels in the same order, each with the splits of one directory. *)
Definition same_classes (rt : runtime) (image_dir : string) (p q : number)
  (a b : dict (dict entry)) : Prop :=
  Forall2
    (fun x y =>
       fst x = fst y /\
       exists dir_name,
         snd x = split_record rt image_dir p dir_name /\
         snd y = split_record rt image_dir q dir_name)
    a b.

(** ** get_generators *)

(** [config.data] as [get_generators] reads it. *)
Module data.
Record config := {
  path_to_data : string;
  img_height : Z;
  img_width : Z;
  batch_size : Z
}.
End data.

(** [CustomImageDataGenerator.flow_from_image_lists]; [self_data_format] is
    the [data_format] attribute of the generator it is called on. *)
Definition flow_from_image_lists (K : backend)
  (self_data_format : option string)
  (image_lists : dict (dict entry)) (category image_dir : string)
  (target_size : list Z) (color_mode : string) (class_mode : option string)
  (batch_size : Z) (shuffle : bool) (seed : option Z)
  (save_to_dir : option string) (save_prefix save_format : string)
  : res ImageListIterator :=
  ImageListIterator_init K image_lists category image_dir target_size
    color_mode class_mode batch_size shuffle seed self_data_format
    save_to_dir save_prefix save_format.

(** [get_generators(image_lists, config)]: the two iterators it builds, with
    the defaults of [flow_from_image_lists] for what it does not pass.  Each
    is returned inside an [except_catcher], which runs nothing before its
    first pull. *)
Definition get_generators (K : backend) (datagen_format : option string)
  (image_lists : dict (dict entry)) (config : data.config)
  : res (ImageListIterator * ImageListIterator) :=
  let* train_generator :=
    flow_from_image_lists K datagen_format image_lists "training"
      (data.path_to_data config)
      [data.img_height config; data.img_width config] "rgb"
      (Some "categorical") (data.batch_size config) true None None ""
      "jpeg" in
  let* validation_generator :=
    flow_from_image_lists K datagen_format image_lists "validation"
      (data.path_to_data config)
      [data.img_height config; data.img_width config] "rgb"
      (Some "categorical") (data.batch_size config) true None None ""
      "jpeg" in
  Ok (train_generator, validation_generator).

(** The directory a class names, as [label_lists['dir']]. *)
Definition class_dir (label_lists : dict entry) : string :=
  match dict_get label_lists "dir" with
  | Some (EStr sub_dir) => sub_dir
  | _ => ""
  end.

(** Lookup in a [dict] with int keys. *)
Fixpoint int_dict_get {V} (d : list (Z * V)) (k : Z) : option V :=
  match d with
  | [] => None
  | (k', v) :: rest => if (k' =? k)%Z then Some v else int_dict_get rest k
  end.

Definition pets_config : data.config :=
  {| data.path_to_data := "data"; data.img_height := 224;
     data.img_width := 224; data.batch_size := 32 |}.

(** [zoo_iterator] asked for sparse labels. *)
Definition zoo_sparse : ImageListIterator :=
  Eval vm_compute in
    match ImageListIterator_init tf_backend zoo_lists "training" "data"
            [224; 224]%Z "rgb" (Some "sparse") 32 true None None None ""
            "jpeg" with
    | Ok self => self
    | Raise _ => zoo_self
    end.

(** The values a producer gives on its first [n] pulls, up to its first
    failure. *)
Fixpoint first_values {D St : Type} (next : St -> outcome D * St) (n : nat)
  (s : St) : list D :=
  match n with
  | O => []
  | S n' =>
      match next s with
      | (Returns data, s') => data :: first_values next n' s'
      | (Raises _, _) => []
      end
  end.

(** A generator with two values: once it has returned them, every further
    [next] on it raises [StopIteration]. *)
Definition two_values (pulls : nat) : outcome nat * nat :=
  if (pulls <? 2)%nat then (Returns (S pulls), S pulls)
  else (Raises (Exc StopIteration []), pulls).

(** ** find_files and get_classes_map *)

(** [s.split('/')]. *)
Fixpoint split_slash (s : string) : list string :=
  match s with
  | EmptyString => [EmptyString]
  | String c rest =>
      if Ascii.eqb c "/" then EmptyString :: split_slash rest
      else
        match split_slash rest with
        | head :: tail => String c head :: tail
        | [] => [String c EmptyString]
        end
  end.

(** What the two functions ask of [os] and [fnmatch]. *)
Record listing := {
  (** [os.walk]: the triples [(root, dirs, filenames)] in walk order *)
  os_walk : string -> list (string * list string * list string);
  (** [fnmatch.filter] *)
  fnmatch_filter : list string -> string -> list string;
  (** [os.listdir] *)
  os_listdir : string -> res (list string);
  (** [os.path.isdir] *)
  path_isdir : string -> bool
}.

Definition find_files (fs : listing) (path filename_pattern : string)
  (sort : bool) : list string :=
  let files :=
    flat_map
      (fun '(root, _, filenames) =>
         map (fun filename => path_join root [filename])
           (fnmatch_filter fs filenames filename_pattern))
      (os_walk fs path) in
  if sort then sorted_by (fun file => file) files else files.

Definition get_classes_map (fs : listing) (path_to_data : string)
  : res (list (Z * string)) :=
  let* names := os_listdir fs path_to_data in
  let paths_to_classes :=
    map (fun name => path_join path_to_data [name]) names in
  let paths_to_classes := List.filter (path_isdir fs) paths_to_classes in
  let classes :=
    map (fun path => List.last (split_slash path) "") paths_to_classes in
  let classes := sorted_by (fun class_ => class_) classes in
  Ok (fold_left (fun d '(i, class_) => int_dict_set d i class_)
        (combine (map Z.of_nat (seq 0 (length classes))) classes) []).

(** A data directory with two class directories and a file. *)
Definition cars : listing := {|
  os_walk := fun p =>
    if String.eqb p "cars" then
      [("cars", ["vw"; "audi"], ["readme.txt"]);
       ("cars/vw", [], ["b.jpg"; "a.jpg"; "notes.txt"]);
       ("cars/audi", [], ["c.jpg"])]
    else [];
  fnmatch_filter := fun names pattern =>
    if String.eqb pattern "*.jpg" then
      List.filter (fun name => endswith name ".jpg") names
    else [];
  os_listdir := fun p =>
    if String.eqb p "cars" then Ok ["vw"; "readme.txt"; "audi"]
    else Raise (Exc OSError []);
  path_isdir := fun p => String.eqb p "cars/vw" || String.eqb p "cars/audi"
|}.

(** The same directory, listed in another order. *)
Definition cars_relisted : listing := {|
  os_walk := os_walk cars;
  fnmatch_filter := fnmatch_filter cars;
  os_listdir := fun p =>
    if String.eqb p "cars" then Ok ["audi"; "vw"; "readme.txt"]
    else Raise (Exc OSError []);
  path_isdir := path_isdir cars
|}.

(** [Config(is_main=True, identifier_fields=[10 ** 640])]: no scope, and a
    field of 641 digits. *)
Definition huge_kwargs : dict value :=
  [("is_main", VBool true); ("identifier_fields", VList [VInt (10 ^ 640)])].

(** ** File names that are not UTF-8 *)

(** The string of the given bytes. *)
Definition bytes_name (codes : list nat) : string :=
  fold_right (fun n s => String (ascii_of_nat n) s) EmptyString codes.

(** A file name that is not UTF-8: the byte FF, then ".jpg". *)
Definition raw_name : string := bytes_name [255] ++ ".jpg".

(** A tree whose one class directory holds a file of that name beside a
    file with a plain name. *)
Definition strays_glob (pattern : string) : list string :=
  if String.eqb pattern "data/Cats/*.jpg" then
    ["data/Cats/a.jpg"; "data/Cats/" ++ raw_name]
  else [].

Definition strays : runtime := {|
  os_path_isdir := fun p => String.eqb p "data";
  os_walk_dirs := fun p =>
    if String.eqb p "data" then ["data"; "data/Cats"] else [];
  glob_glob := strays_glob;
  formats_order := ["JPG"; "jpeg"; "jpg"; "JPEG"];
  str_lower := lower_ascii
|}.

(** A tree whose image lies two levels down, in [data/nested/inner]. *)
Definition nested_glob (pattern : string) : list string :=
  if String.eqb pattern "data/nested/inner/*.jpg" then
    ["data/nested/inner/y.jpg"]
  else [].

Definition nested : runtime := {|
  os_path_isdir := fun p => String.eqb p "data";
  os_walk_dirs := fun p =>
    if String.eqb p "data" then
      ["data"; "data/nested"; "data/nested/inner"]
    else [];
  glob_glob := nested_glob;
  formats_order := ["JPG"; "jpeg"; "jpg"; "JPEG"];
  str_lower := lower_ascii
|}.

(** * Verified properties *)

(** ** SHA-1 test vectors (FIPS 180) *)

Example sha1_abc :
  sha1_hexdigest (list_byte_of_string "abc") = "a9993e364706816aba3e25717850c26c9cd0d89d".
Proof. vm_compute. reflexivity. Qed.

Example sha1_empty :
  sha1_hexdigest [] = "da39a3ee5e6b4b0d3255bfef95601890afd80709".
Proof. vm_compute. reflexivity. Qed.

Example sha1_two_blocks :
  sha1_hexdigest
    (list_byte_of_string "abcdbcdecdefdefgefghfghighijhijkijkljklmklmnlmnomnopnopq")
  = "84983e441c3bd26ebaae4aa1f95129e5e54670f1".
Proof. vm_compute. reflexivity. Qed.

(** ** Dictionaries *)

Lemma dict_get_set {V} (d : dict V) (k k' : string) (v : V) :
  dict_get (dict_set d k v) k' =
  if String.eqb k k' then Some v else dict_get d k'.
Proof.
  induction d as [|[k0 v0] d IH]; simpl.
  - reflexivity.
  - destruct (String.eqb k0 k) eqn:E0; simpl.
    + apply String.eqb_eq in E0. subst k0.
      destruct (String.eqb k k'); reflexivity.
    + rewrite IH. destruct (String.eqb k0 k') eqn:E1; [|reflexivity].
      apply String.eqb_eq in E1. subst k0.
      rewrite String.eqb_sym, E0. reflexivity.
Qed.

Lemma dict_has_get {V} (d : dict V) (k : string) :
  dict_has d k = false <-> dict_get d k = None.
Proof.
  unfold dict_has, dict_keys.
  induction d as [|[k0 v0] d IH]; simpl; [tauto|].
  rewrite String.eqb_sym.
  destruct (String.eqb k0 k); simpl; [split; discriminate | exact IH].
Qed.


Lemma dict_get_In {V} (d : dict V) (k : string) (v : V) :
  dict_get d k = Some v -> In (k, v) d.
Proof.
  induction d as [|[k0 v0] d IH]; cbn [dict_get In]; [discriminate|].
  destruct (String.eqb k0 k) eqn:E.
  - apply String.eqb_eq in E. intros H. injection H as <-. subst.
    left. reflexivity.
  - intros H. right. apply IH, H.
Qed.

Lemma dict_set_In {V} (d : dict V) (k k' : string) (v v' : V) :
  In (k', v') (dict_set d k v) -> (k' = k /\ v' = v) \/ In (k', v') d.
Proof.
  induction d as [|[k0 v0] d IH]; cbn [dict_set In].
  - intros [E|[]]. injection E as <- <-. left. split; reflexivity.
  - destruct (String.eqb k0 k) eqn:E; cbn [In].
    + apply String.eqb_eq in E. subst k0.
      intros [E'|H]; [injection E' as <- <-; left; split; reflexivity|].
      right. right. exact H.
    + intros [E'|H]; [right; left; exact E'|].
      apply IH in H as [H|H]; [left; exact H|right; right; exact H].
Qed.

Lemma dict_set_keys {V} (d : dict V) (k : string) (v : V) (x : string) :
  In x (dict_keys (dict_set d k v)) -> x = k \/ In x (dict_keys d).
Proof.
  unfold dict_keys. intros H. apply in_map_iff in H as ([k' v'] & <- & H).
  apply dict_set_In in H as [[-> _]|H]; [left; reflexivity|].
  right. apply (in_map fst) in H. exact H.
Qed.

Lemma dict_set_nodup {V} (d : dict V) (k : string) (v : V) :
  List.NoDup (dict_keys d) -> List.NoDup (dict_keys (dict_set d k v)).
Proof.
  induction d as [|[k0 v0] d IH]; cbn [dict_set dict_keys map fst].
  - intros _. constructor; [intros []|constructor].
  - intros H. apply List.NoDup_cons_iff in H as [Hk0 Hnd].
    destruct (String.eqb k0 k) eqn:E; cbn [map fst].
    + constructor; assumption.
    + constructor; [|apply IH, Hnd].
      intros Hin. apply dict_set_keys in Hin as [->|Hin];
        [rewrite String.eqb_refl in E; discriminate|contradiction].
Qed.

(** ** lr_scheduler *)

(** C6: the guard [current_epoch < current_epoch] is false for every epoch,
    so [lr_scheduler] is always the decay from [lr_max] to [lr_min] over
    [epochs]; the branch that uses [edge] is never taken. *)
Theorem lr_scheduler_is_linear_decay (current_epoch : Z)
  (config : scheduler_config) :
  (current_epoch <? current_epoch)%Z = false /\
  lr_scheduler current_epoch config =
    linear_decay (lr_max (train config)) (lr_min (train config))
      (epochs (train config)) current_epoch.
Proof.
  assert (G : (current_epoch <? current_epoch)%Z = false)
    by apply Z.ltb_irrefl.
  split; [exact G|].
  unfold lr_scheduler. rewrite G. reflexivity.
Qed.

(** ** Config.identifier *)

Section ConfigFacts.

Variable float_repr : float -> string.
Variable object_str : value -> string.
Variable int_max_str_digits : option nat.
Variable repr_room : nat.











(** C3: a boolean field is rendered by the first branch of [_process_attr],
    as [bool] is a subclass of [int]: it comes out as "True" or "False"
    with no "YES"/"NO" prefix, and the worked example gives the identifier
    "run_True_10_" followed by the rendering of 0.01, which is not
    "run_YESTrue_10_0.01". *)
Theorem bool_field_has_no_prefix :
  (forall b : bool,
     _process_attr float_repr object_str int_max_str_digits repr_room
       (VBool b) =
     Ok (if b then "True" else "False")) /\
  (exists self,
     Config_init run_kwargs = Ok self /\
     identifier float_repr object_str int_max_str_digits repr_room self =
       Ok ("run_True_10_" ++ float_repr f0_01) /\
     identifier float_repr object_str int_max_str_digits repr_room self
     <> Ok "run_YESTrue_10_0.01").
Proof.
  split.
  - intros []; reflexivity.
  - eexists. split; [reflexivity|].
    assert (Hten : str_of_int int_max_str_digits 10 = Ok "10")
      by (unfold str_of_int; destruct int_max_str_digits; reflexivity).
    assert (Hid : identifier float_repr object_str int_max_str_digits
                    repr_room
                    (dict_set
                       (dict_set
                          (dict_set
                             (dict_set
                                (dict_set (dict_set [] "scope" (VStr "run"))
                                   "lr" (VFloat f0_01))
                                "epochs" (VInt 10))
                             "aug" (VConfig [("aug", VBool true)]))
                          "is_main" (VBool true))
                       "identifier_fields"
                       (VList (concat [[VBool true]; [VInt 10];
                                       [VFloat f0_01]])))
                  = Ok ("run_True_10_" ++ float_repr f0_01)).
    { unfold identifier, getattr. cbn [dict_set dict_get String.eqb Ascii.eqb
        Bool.eqb res_bind truthy py_iter concat app mapM call_process_attr
        _process_attr isinstance_int isinstance_float isinstance_str orb
        py_str add_str].
      rewrite Hten. reflexivity. }
    split; [exact Hid|]. rewrite Hid. intros H. vm_compute in H.
    discriminate H.
Qed.


End ConfigFacts.



(** With the digit limit at 640, the field of 641 digits stops [identifier]
    with the [ValueError] of [str]. *)
Example identifier_without_scope_value_error :
  identifier (fun _ => "") (fun _ => "") (Some 0) 1000 huge_kwargs
  = Raise (Exc ValueError ["Exceeds the limit for integer string conversion"]).
Proof. vm_compute. reflexivity. Qed.

(** ** create_image_lists: the missing root *)

(** C4, as amended: when the root is not a directory, [create_image_lists]
    raises [ValueError] with the message "Image directory <path> not found."
    and nothing else happens: neither [os.walk] nor [glob] is consulted and
    no list is built. *)
Theorem create_image_lists_missing_root (rt : runtime) (image_dir : string)
  (validation_pct : number) :
  os_path_isdir rt image_dir = false ->
  create_image_lists rt image_dir validation_pct =
    Raise (Exc ValueError ["Image directory " ++ image_dir ++ " not found."]).
Proof.
  intros H. unfold create_image_lists. rewrite H. reflexivity.
Qed.

Lemma create_image_lists_missing_root_witness :
  os_path_isdir pets "photos" = false /\
  create_image_lists pets "photos" (Int 10) =
    Raise (Exc ValueError ["Image directory photos not found."]).
Proof.
  split; [reflexivity|].
  apply (create_image_lists_missing_root pets "photos" (Int 10)).
  reflexivity.
Defined.

(** C4: the exception raised for a missing root is a [ValueError]; no class
    named NotFoundError is involved. *)
Lemma missing_root_is_not_NotFoundError :
  os_path_isdir pets "photos" = false /\
  exists e,
    create_image_lists pets "photos" (Int 10) = Raise e /\
    exc_name (exc_cls e) = "ValueError" /\
    exc_name (exc_cls e) <> "NotFoundError".
Proof.
  split; [reflexivity|].
  eexists. split; [reflexivity|]. split; [reflexivity|]. discriminate.
Qed.

(** ** except_catcher *)

Lemma take_step {D St : Type} (next : St -> outcome D * St)
  (fuel n : nat) (s : St) :
  except_catcher_take next fuel (S n) s =
  match except_catcher_next next fuel s with
  | (printed, Yields data s') =>
      ((printed ++ fst (except_catcher_take next fuel n s'))%list,
       data :: snd (except_catcher_take next fuel n s'))
  | (printed, _) => (printed, [])
  end.
Proof.
  cbn [except_catcher_take].
  destruct (except_catcher_next next fuel s) as [printed [data s'|e|s']];
    try reflexivity.
  destruct (except_catcher_take next fuel n s'). reflexivity.
Qed.

Lemma take_after_failure (n s : nat) :
  3 <= s ->
  except_catcher_take third_pull_fails 2 n s = ([], seq (S s) n).
Proof.
  revert s. induction n as [|n IH]; intros s Hs; [reflexivity|].
  cbn [except_catcher_take except_catcher_next].
  unfold third_pull_fails at 1.
  destruct (Nat.eqb_spec (S s) 3) as [E|_]; [lia|].
  rewrite IH by lia. reflexivity.
Qed.

Lemma skip_third_after (n a : nat) :
  3 <= a ->
  map (fun k => if (k <? 3)%nat then k else S k) (seq a n) = seq (S a) n.
Proof.
  revert a. induction n as [|n IH]; intros a Ha; [reflexivity|].
  cbn [seq map]. rewrite IH by lia.
  destruct (Nat.ltb_spec a 3); [lia|reflexivity].
Qed.

(** C5: a pull on which the producer raises an [Exception] is not the end of
    the wrapped sequence and is not passed on: the wrapper prints its
    diagnostic and goes on with the next pull, whatever the producer and its
    state.  Only an exception outside [Exception] ever leaves the wrapper.
    For the producer that fails on its third pull alone, the first [n] values
    of the wrapped sequence are 1, 2, 4, 5, ..., for every [n], with the one
    diagnostic printed once the third pull has been reached. *)
Theorem except_catcher_skips_failed_pulls :
  (forall (D St : Type) (next : St -> outcome D * St) (s s' : St)
          (e : exception) (fuel : nat),
      next s = (Raises e, s') ->
      is_Exception (exc_cls e) = true ->
      except_catcher_next next (S fuel) s =
        (diagnostic e :: fst (except_catcher_next next fuel s'),
         snd (except_catcher_next next fuel s')))
  /\ (forall (D St : Type) (next : St -> outcome D * St) (fuel : nat)
             (s : St) printed (e : exception),
        except_catcher_next next fuel s = (printed, Propagates e) ->
        is_Exception (exc_cls e) = false)
  /\ (forall n : nat,
        except_catcher_take third_pull_fails 2 n 0 =
          (if (3 <=? n)%nat then
             [diagnostic (Exc OSError ["cannot identify image file"])]
           else [],
           map (fun k => if (k <? 3)%nat then k else S k) (seq 1 n))).
Proof.
  split; [|split].
  - intros D St next s s' e fuel Hnext Hexc.
    cbn [except_catcher_next]. rewrite Hnext, Hexc.
    destruct (except_catcher_next next fuel s'). reflexivity.
  - intros D St next fuel. induction fuel as [|fuel IH]; intros s printed e.
    + cbn. discriminate.
    + cbn [except_catcher_next].
      destruct (next s) as [[data|e0] s0].
      * discriminate.
      * destruct (is_Exception (exc_cls e0)) eqn:E0.
        -- destruct (except_catcher_next next fuel s0) as [p r] eqn:Er.
           intros H. injection H as _ ->. eapply IH, Er.
        -- intros H. injection H as _ <-. exact E0.
  - intros [|[|[|n]]]; try reflexivity.
    assert (E0 : except_catcher_next third_pull_fails 2 0 = ([], Yields 1 1))
      by reflexivity.
    assert (E1 : except_catcher_next third_pull_fails 2 1 = ([], Yields 2 2))
      by reflexivity.
    assert (E2 : except_catcher_next third_pull_fails 2 2 =
                 ([diagnostic (Exc OSError ["cannot identify image file"])],
                  Yields 4 4))
      by reflexivity.
    rewrite take_step, E0, take_step, E1, take_step, E2.
    rewrite take_after_failure by lia.
    cbn [seq map Nat.ltb Nat.leb]. rewrite skip_third_after by lia.
    reflexivity.
Qed.

Lemma except_catcher_skips_failed_pulls_witness :
  third_pull_fails 2 = (Raises (Exc OSError ["cannot identify image file"]), 3)
  /\ except_catcher_next third_pull_fails 2 2 =
       ([diagnostic (Exc OSError ["cannot identify image file"])],
        Yields 4 4).
Proof.
  split; [reflexivity|].
  rewrite (proj1 except_catcher_skips_failed_pulls nat nat third_pull_fails
             2 3 (Exc OSError ["cannot identify image file"]) 1
             eq_refl eq_refl).
  reflexivity.
Defined.

(** ** Suffixes and joined paths *)

Lemma endswith_refl (s : string) : endswith s s = true.
Proof. destruct s; cbn [endswith]; rewrite String.eqb_refl; reflexivity. Qed.

Lemma endswith_tail (c : ascii) (s suf : string) :
  endswith s suf = true -> endswith (String c s) suf = true.
Proof. intros H. cbn [endswith]. rewrite H. apply orb_true_r. Qed.

Lemma endswith_app (a b : string) : endswith (a ++ b) b = true.
Proof.
  induction a as [|c a IH]; simpl append.
  - apply endswith_refl.
  - apply endswith_tail, IH.
Qed.

Lemma endswith_cases (s suf : string) :
  endswith s suf = true ->
  s = suf \/ exists c rest, s = String c rest /\ endswith rest suf = true.
Proof.
  destruct s as [|c rest]; cbn [endswith]; intros H;
    apply orb_true_iff in H as [H|H].
  - left. apply String.eqb_eq, H.
  - discriminate.
  - left. apply String.eqb_eq, H.
  - right. eauto.
Qed.

(** Two suffixes of one string: one of them is a suffix of the other. *)
Lemma endswith_chain (s x y : string) :
  endswith s x = true -> endswith s y = true ->
  endswith x y = true \/ endswith y x = true.
Proof.
  induction s as [|c s IH]; intros Hx Hy.
  - apply endswith_cases in Hx as [<-|(? & ? & ? & _)]; [|discriminate].
    apply endswith_cases in Hy as [<-|(? & ? & ? & _)]; [|discriminate].
    left. reflexivity.
  - apply endswith_cases in Hx as [<-|(c1 & r1 & E1 & Hx)];
      apply endswith_cases in Hy as [<-|(c2 & r2 & E2 & Hy)].
    + left. apply endswith_refl.
    + injection E2 as <- <-. left. apply endswith_tail, Hy.
    + injection E1 as <- <-. right. apply endswith_tail, Hx.
    + injection E1 as <- <-. injection E2 as <- <-. apply IH; assumption.
Qed.

Lemma append_assoc (a b c : string) : (a ++ b) ++ c = a ++ (b ++ c).
Proof. induction a as [|x a IH]; simpl; [reflexivity|]. rewrite IH. reflexivity. Qed.

Lemma join2_endswith (path b : string) :
  startswith b "/" = false -> endswith (join2 path b) b = true.
Proof.
  intros H. unfold join2. rewrite H.
  destruct (String.eqb path "" || endswith path "/").
  - apply endswith_app.
  - rewrite <- append_assoc. apply endswith_app.
Qed.

Lemma pattern_endswith (image_dir dir_name extension : string) :
  endswith (path_join image_dir [dir_name; "*." ++ extension])
    ("*." ++ extension) = true.
Proof. cbn [path_join fold_left]. apply join2_endswith. reflexivity. Qed.

Lemma valid_formats_nodup : List.NoDup VALID_IMAGE_FORMATS.
Proof.
  unfold VALID_IMAGE_FORMATS.
  repeat (constructor; [cbn [In]; intuition discriminate|]). constructor.
Qed.

Lemma valid_formats_incomparable (e1 e2 : string) :
  In e1 VALID_IMAGE_FORMATS -> In e2 VALID_IMAGE_FORMATS -> e1 <> e2 ->
  endswith ("." ++ e1) ("." ++ e2) = false.
Proof.
  unfold VALID_IMAGE_FORMATS. cbn [In].
  intros H1 H2 Hne.
  repeat (destruct H1 as [<-|H1]; [|]); try contradiction;
    repeat (destruct H2 as [<-|H2]; [|]); try contradiction;
    try reflexivity; destruct Hne; reflexivity.
Qed.

Lemma NoDup_flat_map {A B} (f : A -> list B) (l : list A) :
  List.NoDup l ->
  (forall x, In x l -> List.NoDup (f x)) ->
  (forall x y b, In x l -> In y l -> x <> y -> In b (f x) -> In b (f y) ->
                 False) ->
  List.NoDup (flat_map f l).
Proof.
  induction l as [|a l IH]; intros Hl Hf Hd; cbn [flat_map].
  - constructor.
  - apply List.NoDup_cons_iff in Hl as [Ha Hl].
    apply List.NoDup_app.
    + apply Hf. left. reflexivity.
    + apply IH; [assumption| |].
      * intros x Hx. apply Hf. right. exact Hx.
      * intros x y b Hx Hy. apply Hd; right; assumption.
    + intros b Hb Hin. apply in_flat_map in Hin as (y & Hy & Hby).
      apply (Hd a y b); [left; reflexivity|right; exact Hy| |exact Hb|exact Hby].
      intros ->. contradiction.
Qed.

(** ** create_image_lists: the collected files *)

(** C8: given that [glob] lists each match once, the file list gathered over
    the four accepted extensions has no duplicate: it holds exactly the paths
    that match one of the four patterns, each of them once. *)
Theorem collected_files_are_distinct (rt : runtime)
  (image_dir dir_name : string) :
  runtime_ok rt ->
  List.NoDup (collect_files rt image_dir dir_name) /\
  forall p,
    In p (collect_files rt image_dir dir_name) <->
    exists extension,
      In extension VALID_IMAGE_FORMATS /\
      In p (glob_glob rt (path_join image_dir [dir_name; "*." ++ extension])).
Proof.
  intros [Honce Hmatch Hperm]. split.
  - unfold collect_files. apply NoDup_flat_map.
    + eapply Permutation_NoDup; [symmetry; exact Hperm|].
      apply valid_formats_nodup.
    + intros extension _. apply Honce.
    + intros e1 e2 p H1 H2 Hne Hp1 Hp2.
      apply (Permutation_in _ Hperm) in H1.
      apply (Permutation_in _ Hperm) in H2.
      apply (Hmatch _ e1) in Hp1; [|exact H1|apply pattern_endswith].
      apply (Hmatch _ e2) in Hp2; [|exact H2|apply pattern_endswith].
      destruct (endswith_chain _ _ _ Hp1 Hp2) as [H|H].
      * rewrite valid_formats_incomparable in H by auto. discriminate.
      * rewrite valid_formats_incomparable in H by auto. discriminate.
  - intros p. unfold collect_files. rewrite in_flat_map. split.
    + intros (extension & Hin & Hp). exists extension. split; [|exact Hp].
      apply (Permutation_in _ Hperm), Hin.
    + intros (extension & Hin & Hp). exists extension. split; [|exact Hp].
      apply (Permutation_in _ (Permutation_sym Hperm)), Hin.
Qed.

(** ** Integers that convert to a double without overflow *)

Lemma digits2_pos_iter_xO (m n : positive) :
  digits2_pos (Pos.iter xO m n) = (digits2_pos m + n)%positive.
Proof.
  induction n as [|n IH] using Pos.peano_ind.
  - cbn. lia.
  - rewrite Pos.iter_succ. cbn [digits2_pos]. rewrite IH. lia.
Qed.

Lemma digits2_pos_lower (m : positive) :
  (2 ^ (Z.pos (digits2_pos m) - 1) <= Z.pos m)%Z.
Proof.
  induction m as [m IH|m IH|]; cbn [digits2_pos].
  - rewrite Pos2Z.inj_succ.
    replace (Z.succ (Z.pos (digits2_pos m)) - 1)%Z
      with (Z.succ (Z.pos (digits2_pos m) - 1))%Z by lia.
    rewrite Z.pow_succ_r by lia. lia.
  - rewrite Pos2Z.inj_succ.
    replace (Z.succ (Z.pos (digits2_pos m)) - 1)%Z
      with (Z.succ (Z.pos (digits2_pos m) - 1))%Z by lia.
    rewrite Z.pow_succ_r by lia. lia.
  - cbn. lia.
Qed.

Lemma digits2_pos_small (m : positive) :
  (Z.pos m < 2 ^ 53)%Z -> (Z.pos (digits2_pos m) <= 53)%Z.
Proof.
  intros H. pose proof (digits2_pos_lower m) as L.
  destruct (Z.le_gt_cases (Z.pos (digits2_pos m)) 53) as [|G]; [assumption|].
  assert (2 ^ 53 <= 2 ^ (Z.pos (digits2_pos m) - 1))%Z
    by (apply Z.pow_le_mono_r; lia).
  lia.
Qed.

Lemma binary_round_aux_canonical (mz : positive) (ez : Z) :
  Z.pos (digits2_pos mz) = 53%Z ->
  (-1074 <= ez <= 971)%Z ->
  binary_round_aux prec64 emax64 false (Z.pos mz) ez loc_Exact =
    S754_finite false mz ez.
Proof.
  intros Hd He.
  assert (Hf : (fexp prec64 emax64 (Z.pos (digits2_pos mz) + ez) - ez = 0)%Z).
  { rewrite Hd. unfold fexp, emin, prec64, emax64. lia. }
  unfold binary_round_aux, shr_fexp. cbn [Zdigits2 shr_record_of_loc].
  rewrite Hf. cbn [shr shr_m loc_of_shr_record round_nearest_even Zdigits2
                   shr_record_of_loc].
  rewrite Hf. cbn [shr shr_m].
  replace (ez <=? emax64 - prec64)%Z with true; [reflexivity|].
  symmetry. apply Z.leb_le. unfold emax64, prec64. lia.
Qed.

Lemma int_to_double_finite (m : positive) :
  (Z.pos m < 2 ^ 53)%Z ->
  exists m' e, int_to_double (Z.pos m) = S754_finite false m' e.
Proof.
  intros H. apply digits2_pos_small in H.
  unfold int_to_double, binary_normalize, binary_round.
  set (d := Z.pos (digits2_pos m)) in *.
  assert (Hd : (1 <= d)%Z) by (unfold d; lia).
  assert (Hf : fexp prec64 emax64 (d + 0) = (d - 53)%Z).
  { unfold fexp, emin, prec64, emax64. lia. }
  rewrite Hf. unfold shl_align.
  destruct (d - 53 - 0)%Z as [|p|p] eqn:E; try lia.
  - do 2 eexists. apply binary_round_aux_canonical; [fold d|]; lia.
  - do 2 eexists. apply binary_round_aux_canonical; [|lia].
    change (@PosDef.Pos.iter positive) with (@Pos.iter positive).
    rewrite digits2_pos_iter_xO. fold d. lia.
Qed.

Lemma float_of_int_small (z : Z) :
  (0 <= z < 2 ^ 53)%Z -> float_of_int z = Ok (int_to_double z).
Proof.
  intros [H0 H1]. unfold float_of_int.
  destruct z as [|m|m]; [reflexivity| |lia].
  destruct (int_to_double_finite m H1) as (m' & e & ->). reflexivity.
Qed.

(** ** The digest as a number *)

Lemma hex_byte (b : byte) :
  digit_base16 (hex_digit (SHA1.byte_val b / 16)) = Some (SHA1.byte_val b / 16)%Z
  /\ digit_base16 (hex_digit (SHA1.byte_val b mod 16))
     = Some (SHA1.byte_val b mod 16)%Z.
Proof. destruct b; split; reflexivity. Qed.

Lemma int_base16_from_hex (bs : list byte) (acc : Z) :
  int_base16_from acc (hex_of_bytes bs) =
  Ok (fold_left (fun acc b => acc * 256 + SHA1.byte_val b)%Z bs acc).
Proof.
  revert acc. induction bs as [|b bs IH]; intros acc; [reflexivity|].
  cbn [hex_of_bytes int_base16_from fold_left].
  destruct (hex_byte b) as [-> ->]. rewrite IH. do 2 f_equal.
  pose proof (Z.div_mod (SHA1.byte_val b) 16). lia.
Qed.

Lemma digest_length (msg : list byte) : length (SHA1.digest msg) = 20.
Proof.
  unfold SHA1.digest.
  destruct (fold_left SHA1.compress _ _) as [[[[h0 h1] h2] h3] h4].
  reflexivity.
Qed.

(** [int(hexdigest, 16)] is the digest read as a big-endian number. *)
Lemma int_of_hexdigest (msg : list byte) :
  int_base16 (sha1_hexdigest msg) = Ok (SHA1.be_value (SHA1.digest msg)).
Proof.
  unfold sha1_hexdigest, SHA1.be_value.
  rewrite <- int_base16_from_hex.
  pose proof (digest_length msg) as L.
  destruct (SHA1.digest msg) as [|b bs]; [discriminate L|reflexivity].
Qed.

(** ** create_image_lists: the partition *)

(** The percentage computed by the code for a name that has a UTF-8 encoding
    is the one of the rule. *)
Lemma hash_pct_spec (base_name : string) :
  utf8_valid base_name = true ->
  hash_pct base_name = Ok (spec_percentage base_name).
Proof.
  intros Hv. unfold hash_pct, as_bytes. rewrite Hv. cbn [res_bind].
  rewrite int_of_hexdigest. cbn [res_bind].
  change (float_div_int f100 MAX_NUM_IMAGES_PER_CLASS)
    with (Ok (fdiv f100 (int_to_double (2 ^ 27 - 1)))).
  cbn [res_bind]. unfold int_mul_float.
  rewrite float_of_int_small; [reflexivity|].
  change (MAX_NUM_IMAGES_PER_CLASS + 1)%Z with (2 ^ 27)%Z.
  pose proof (Z.mod_pos_bound
                (SHA1.be_value (SHA1.digest (list_byte_of_string base_name)))
                (2 ^ 27)) as B.
  lia.
Qed.

(** A name without UTF-8 encoding has no percentage: [as_bytes] fails. *)
Lemma hash_pct_undecodable (base_name : string) :
  utf8_valid base_name = false ->
  hash_pct base_name = Raise (Exc UnicodeEncodeError []).
Proof.
  intros Hv. unfold hash_pct, as_bytes. rewrite Hv. reflexivity.
Qed.

(** The percentages of three names, as CPython computes them:
    81.5861566482943, 10.761690219951348 and 54.81866638972362. *)
Example hash_pct_vectors :
  map hash_pct ["a.jpg"; "b.jpg"; "c.JPEG"] =
  [Ok (S754_finite false 5741115385622643 (-46));
   Ok (S754_finite false 6058293008056200 (-49));
   Ok (S754_finite false 7715041422678338 (-47))].
Proof. vm_compute. reflexivity. Qed.

(** Well-formed and ill-formed names, as [str.encode('utf-8')] takes or
    refuses the [str] that [os.fsdecode] makes of these bytes: plain ASCII,
    a two-byte, a three-byte and a four-byte character are taken; a stray
    FF, a cut sequence, an overlong form, a surrogate and a code point above
    U+10FFFF are refused. *)
Example utf8_valid_vectors :
  map utf8_valid
    ["a.jpg"; bytes_name [195; 169]; bytes_name [226; 130; 172];
     bytes_name [240; 159; 144; 177]]
  = [true; true; true; true]
  /\ map utf8_valid
       [bytes_name [255]; bytes_name [195]; bytes_name [192; 128];
        bytes_name [237; 160; 128]; bytes_name [244; 144; 128; 128];
        bytes_name [128]]
     = [false; false; false; false; false; false].
Proof. split; reflexivity. Qed.

(** One turn of the loop over the files (lines 189-198), for a base name
    that can be hashed. *)
Lemma assign_spec (validation_pct : number)
  (training_images validation_images : list string) (file_name : string) :
  utf8_valid (basename file_name) = true ->
  assign validation_pct (training_images, validation_images) file_name
  = Ok (if spec_validation validation_pct (basename file_name)
        then (training_images,
              (validation_images ++ [basename file_name])%list)
        else ((training_images ++ [basename file_name])%list,
              validation_images)).
Proof.
  intros Hv. unfold assign. rewrite (hash_pct_spec _ Hv). cbn [res_bind].
  unfold spec_validation.
  destruct (float_lt (spec_percentage (basename file_name)) validation_pct);
    reflexivity.
Qed.

Lemma assign_undecodable (validation_pct : number)
  (lists : list string * list string) (file_name : string) :
  utf8_valid (basename file_name) = false ->
  assign validation_pct lists file_name = Raise (Exc UnicodeEncodeError []).
Proof.
  intros Hv. destruct lists as [tr va]. unfold assign.
  rewrite (hash_pct_undecodable _ Hv). reflexivity.
Qed.

(** The loop over a file list whose base names can all be hashed. *)
Lemma assign_all_spec (validation_pct : number) (file_list : list string)
  (training_images validation_images : list string) :
  forallb utf8_valid (map basename file_list) = true ->
  assign_all validation_pct (training_images, validation_images) file_list =
  Ok ((training_images
         ++ List.filter (fun b => negb (spec_validation validation_pct b))
              (map basename file_list))%list,
      (validation_images
         ++ List.filter (spec_validation validation_pct)
              (map basename file_list))%list).
Proof.
  revert training_images validation_images.
  induction file_list as [|f rest IH]; intros tr va Hv; cbn [assign_all].
  - cbn. rewrite !app_nil_r. reflexivity.
  - cbn [map forallb] in Hv. apply andb_true_iff in Hv as [Hf Hrest].
    rewrite (assign_spec _ _ _ _ Hf). cbn [res_bind map List.filter].
    destruct (spec_validation validation_pct (basename f));
      cbn [negb]; rewrite (IH _ _ Hrest), <- app_assoc; reflexivity.
Qed.

(** The loop stops with the error of the first base name that cannot. *)
Lemma assign_all_undecodable (validation_pct : number)
  (file_list : list string) :
  forall lists,
    forallb utf8_valid (map basename file_list) = false ->
    assign_all validation_pct lists file_list
    = Raise (Exc UnicodeEncodeError []).
Proof.
  induction file_list as [|f rest IH]; intros lists Hv; [discriminate Hv|].
  cbn [map forallb] in Hv. cbn [assign_all].
  destruct (utf8_valid (basename f)) eqn:Hf.
  - destruct lists as [tr va]. rewrite (assign_spec _ _ _ _ Hf).
    cbn [res_bind]. apply IH. exact Hv.
  - rewrite (assign_undecodable _ _ _ Hf). reflexivity.
Qed.

(** One turn of the loop over the sub-directories: the directory is passed
    over; or its class is stored under its label; or one of its files has a
    name that cannot be hashed and the function fails. *)
Lemma index_sub_dir_cases (rt : runtime) (image_dir : string)
  (validation_pct : number) (st : indexer_state) (sub_dir : string) :
  (passed_over rt image_dir sub_dir /\
   exists st',
     index_sub_dir rt image_dir validation_pct st sub_dir = Ok st' /\
     fst st' = fst st)
  \/ (~ passed_over rt image_dir sub_dir /\
      encodable_files rt image_dir (basename sub_dir) = true /\
      exists st',
        index_sub_dir rt image_dir validation_pct st sub_dir = Ok st' /\
        fst st' = dict_set (fst st) (label_of rt sub_dir)
                    (split_record rt image_dir validation_pct
                       (basename sub_dir)))
  \/ (~ passed_over rt image_dir sub_dir /\
      encodable_files rt image_dir (basename sub_dir) = false /\
      index_sub_dir rt image_dir validation_pct st sub_dir
      = Raise (Exc UnicodeEncodeError [])).
Proof.
  destruct st as [image_lists warned].
  unfold index_sub_dir, passed_over, encodable_files.
  destruct (String.eqb (basename sub_dir) image_dir) eqn:En.
  { apply String.eqb_eq in En. left. split; [left; exact En|].
    eexists. split; reflexivity. }
  apply String.eqb_neq in En.
  destruct (collect_files rt image_dir (basename sub_dir))
    as [|f files] eqn:E.
  { left. split; [right; reflexivity|]. eexists. split; reflexivity. }
  assert (Hnot : ~ (basename sub_dir = image_dir \/ f :: files = []))
    by (intros [H|H]; [exact (En H)|discriminate H]).
  right.
  destruct (forallb utf8_valid (map basename (f :: files))) eqn:Hv.
  - left. split; [exact Hnot|]. split; [reflexivity|].
    rewrite (assign_all_spec _ _ _ _ Hv). cbn [res_bind app].
    eexists. split; [reflexivity|].
    cbn [fst]. unfold split_record, label_of. rewrite E. reflexivity.
  - right. split; [exact Hnot|]. split; [reflexivity|].
    rewrite (assign_all_undecodable _ _ _ Hv). reflexivity.
Qed.

(** A turn that does not fail either passes the directory over or stores its
    class. *)
Lemma index_sub_dir_ok (rt : runtime) (image_dir : string)
  (validation_pct : number) (st st' : indexer_state) (sub_dir : string) :
  index_sub_dir rt image_dir validation_pct st sub_dir = Ok st' ->
  (passed_over rt image_dir sub_dir /\ fst st' = fst st)
  \/ (~ passed_over rt image_dir sub_dir /\
      fst st' = dict_set (fst st) (label_of rt sub_dir)
                  (split_record rt image_dir validation_pct
                     (basename sub_dir))).
Proof.
  intros Hrun.
  destruct (index_sub_dir_cases rt image_dir validation_pct st sub_dir)
    as [(Hp & st1 & E & H)|[(Hn & _ & st1 & E & H)|(_ & _ & E)]];
    rewrite E in Hrun; [| |discriminate Hrun];
    injection Hrun as <-; [left|right]; split; assumption.
Qed.

Lemma index_sub_dirs_app (rt : runtime) (image_dir : string)
  (validation_pct : number) (a b : list string) (st : indexer_state) :
  index_sub_dirs rt image_dir validation_pct st (a ++ b)
  = let* st1 := index_sub_dirs rt image_dir validation_pct st a in
    index_sub_dirs rt image_dir validation_pct st1 b.
Proof.
  revert st. induction a as [|d a IH]; intros st; [reflexivity|].
  cbn [app index_sub_dirs].
  destruct (index_sub_dir rt image_dir validation_pct st d) as [st1|e];
    cbn [res_bind]; [apply IH|reflexivity].
Qed.

(** The loop over the sub-directories does not fail when the files of the
    directories it does not pass over all have names that can be hashed. *)
Lemma index_sub_dirs_total (rt : runtime) (image_dir : string)
  (validation_pct : number) (sub_dirs : list string) :
  forall st,
    (forall d, In d sub_dirs -> ~ passed_over rt image_dir d ->
               encodable_files rt image_dir (basename d) = true) ->
    exists st', index_sub_dirs rt image_dir validation_pct st sub_dirs = Ok st'.
Proof.
  induction sub_dirs as [|d rest IH]; intros st Hv; cbn [index_sub_dirs];
    [eexists; reflexivity|].
  destruct (index_sub_dir_cases rt image_dir validation_pct st d)
    as [(_ & st1 & -> & _)|[(_ & _ & st1 & -> & _)|(Hn & Hbad & _)]].
  - cbn [res_bind]. apply IH. intros d' Hd'. apply Hv. right. exact Hd'.
  - cbn [res_bind]. apply IH. intros d' Hd'. apply Hv. right. exact Hd'.
  - rewrite (Hv d (or_introl eq_refl) Hn) in Hbad. discriminate Hbad.
Qed.

(** It fails, with [UnicodeEncodeError], as soon as it meets a directory with
    a file whose name cannot. *)
Lemma index_sub_dirs_fails (rt : runtime) (image_dir : string)
  (validation_pct : number) (sub_dirs : list string) (bad : string) :
  forall st,
    In bad sub_dirs ->
    ~ passed_over rt image_dir bad ->
    encodable_files rt image_dir (basename bad) = false ->
    index_sub_dirs rt image_dir validation_pct st sub_dirs
    = Raise (Exc UnicodeEncodeError []).
Proof.
  induction sub_dirs as [|d rest IH]; intros st Hin Hn Hbad; [destruct Hin|].
  cbn [index_sub_dirs].
  destruct (index_sub_dir_cases rt image_dir validation_pct st d)
    as [(Hp & st1 & -> & _)|[(_ & Hok & st1 & -> & _)|(_ & _ & ->)]];
    cbn [res_bind]; [| |reflexivity].
  - destruct Hin as [->|Hin]; [destruct (Hn Hp)|]. apply IH; assumption.
  - destruct Hin as [->|Hin]; [congruence|]. apply IH; assumption.
Qed.

(** While the dictionary is built its labels stay distinct and each class
    comes from a directory already walked. *)
Lemma index_sub_dirs_inv (rt : runtime) (image_dir : string)
  (validation_pct : number) (sub_dirs : list string) :
  forall (seen : list string) (st st' : indexer_state),
    List.NoDup (dict_keys (fst st)) ->
    (forall label rec,
       In (label, rec) (fst st) ->
       indexed_class rt image_dir validation_pct seen label rec) ->
    index_sub_dirs rt image_dir validation_pct st sub_dirs = Ok st' ->
    List.NoDup (dict_keys (fst st')) /\
    forall label rec,
      In (label, rec) (fst st') ->
      indexed_class rt image_dir validation_pct (seen ++ sub_dirs) label rec.
Proof.
  induction sub_dirs as [|sub_dir rest IH]; intros seen st st' Hnd Hall Hrun.
  - injection Hrun as <-. split; [exact Hnd|].
    rewrite app_nil_r. exact Hall.
  - cbn [index_sub_dirs] in Hrun.
    destruct (index_sub_dir rt image_dir validation_pct st sub_dir)
      as [st1|e] eqn:E1; cbn [res_bind] in Hrun; [|discriminate Hrun].
    assert (Hold : forall label rec,
               In (label, rec) (fst st) ->
               indexed_class rt image_dir validation_pct (seen ++ [sub_dir])
                 label rec).
    { intros label rec Hin. destruct (Hall _ _ Hin) as (d & Hd & H).
      exists d. split; [apply in_or_app; left; exact Hd|exact H]. }
    destruct (IH (seen ++ [sub_dir])%list st1 st') as [Hnd2 Hall2];
      [| |exact Hrun|].
    + destruct (index_sub_dir_ok _ _ _ _ _ _ E1) as [[_ ->]|[_ ->]];
        [exact Hnd|apply dict_set_nodup, Hnd].
    + destruct (index_sub_dir_ok _ _ _ _ _ _ E1) as [[_ ->]|[Hn ->]];
        [exact Hold|].
      intros label rec Hin. apply dict_set_In in Hin as [[-> ->]|Hin];
        [|apply Hold, Hin].
      exists sub_dir. split; [apply in_or_app; right; left; reflexivity|].
      split; [reflexivity|]. split; [reflexivity|exact Hn].
    + split; [exact Hnd2|]. rewrite <- app_assoc in Hall2. exact Hall2.
Qed.

(** A class stays as it is while the directories walked after it with the
    same label are passed over. *)
Lemma index_sub_dirs_keeps (rt : runtime) (image_dir : string)
  (validation_pct : number) (label : string) (rec : dict entry)
  (sub_dirs : list string) :
  forall st st',
    (forall d, In d sub_dirs -> label_of rt d = label ->
               passed_over rt image_dir d) ->
    dict_get (fst st) label = Some rec ->
    index_sub_dirs rt image_dir validation_pct st sub_dirs = Ok st' ->
    dict_get (fst st') label = Some rec.
Proof.
  induction sub_dirs as [|d rest IH]; intros st st' Hpost Hget Hrun.
  - injection Hrun as <-. exact Hget.
  - cbn [index_sub_dirs] in Hrun.
    destruct (index_sub_dir rt image_dir validation_pct st d)
      as [st1|e] eqn:E1; cbn [res_bind] in Hrun; [|discriminate Hrun].
    apply (IH st1 st');
      [intros d' Hd'; apply Hpost; right; exact Hd'| |exact Hrun].
    destruct (index_sub_dir_ok _ _ _ _ _ _ E1) as [[_ ->]|[Hnot ->]];
      [exact Hget|].
    rewrite dict_get_set.
    destruct (String.eqb (label_of rt d) label) eqn:E; [|exact Hget].
    apply String.eqb_eq in E.
    destruct Hnot. apply Hpost; [left; reflexivity|exact E].
Qed.

Lemma create_image_lists_isdir (rt : runtime) (image_dir : string)
  (validation_pct : number) (r : indexer_state) :
  create_image_lists rt image_dir validation_pct = Ok r ->
  os_path_isdir rt image_dir = true.
Proof.
  unfold create_image_lists.
  destruct (os_path_isdir rt image_dir); [reflexivity|discriminate].
Qed.

(** What is known of a dictionary the function has returned: its labels are
    distinct, and each class is the split of the files of a walked
    sub-directory that was not passed over, under the label of that
    directory. *)
Lemma create_image_lists_returned (rt : runtime) (image_dir : string)
  (validation_pct : number) (image_lists : dict (dict entry))
  (warned : list string) :
  create_image_lists rt image_dir validation_pct = Ok (image_lists, warned) ->
  List.NoDup (dict_keys image_lists)
  /\ forall label rec,
       In (label, rec) image_lists ->
       indexed_class rt image_dir validation_pct
         (skipn 1 (os_walk_dirs rt image_dir)) label rec.
Proof.
  intros Hrun. pose proof (create_image_lists_isdir _ _ _ _ Hrun) as Hdir.
  unfold create_image_lists in Hrun. rewrite Hdir in Hrun.
  cbn [negb] in Hrun.
  apply (index_sub_dirs_inv rt image_dir validation_pct _ [] ([], [])
           (image_lists, warned)); [constructor|intros label rec []|].
  exact Hrun.
Qed.

(** The class of a sub-directory that is not passed over is in the returned
    dictionary under its label, unless a directory walked later, not passed
    over either, has the same label. *)
Lemma create_image_lists_keeps_last (rt : runtime) (image_dir : string)
  (validation_pct : number) (image_lists : dict (dict entry))
  (warned : list string) (before after : list string) (sub_dir : string) :
  create_image_lists rt image_dir validation_pct = Ok (image_lists, warned) ->
  skipn 1 (os_walk_dirs rt image_dir) = (before ++ sub_dir :: after)%list ->
  ~ passed_over rt image_dir sub_dir ->
  (forall d, In d after -> label_of rt d = label_of rt sub_dir ->
             passed_over rt image_dir d) ->
  dict_get image_lists (label_of rt sub_dir)
  = Some (split_record rt image_dir validation_pct (basename sub_dir)).
Proof.
  intros Hrun Hwalk Hnot Hafter.
  pose proof (create_image_lists_isdir _ _ _ _ Hrun) as Hdir.
  unfold create_image_lists in Hrun. rewrite Hdir, Hwalk in Hrun.
  cbn [negb] in Hrun. rewrite index_sub_dirs_app in Hrun.
  destruct (index_sub_dirs rt image_dir validation_pct ([], []) before)
    as [st1|e]; [|discriminate Hrun].
  cbn [res_bind index_sub_dirs] in Hrun.
  destruct (index_sub_dir rt image_dir validation_pct st1 sub_dir)
    as [st2|e] eqn:E2; cbn [res_bind] in Hrun; [|discriminate Hrun].
  destruct (index_sub_dir_ok _ _ _ _ _ _ E2) as [[Hp _]|[_ Hst2]];
    [destruct (Hnot Hp)|].
  change image_lists with (fst (image_lists, warned)).
  apply (index_sub_dirs_keeps rt image_dir validation_pct _ _ after st2);
    [exact Hafter| |exact Hrun].
  rewrite Hst2, dict_get_set, String.eqb_refl. reflexivity.
Qed.

(** With an existing root, and names that can be hashed for the files of
    the directories that are not passed over, the function returns. *)
Lemma create_image_lists_total (rt : runtime) (image_dir : string)
  (validation_pct : number) :
  os_path_isdir rt image_dir = true ->
  (forall d, In d (skipn 1 (os_walk_dirs rt image_dir)) ->
             ~ passed_over rt image_dir d ->
             encodable_files rt image_dir (basename d) = true) ->
  exists image_lists warned,
    create_image_lists rt image_dir validation_pct = Ok (image_lists, warned).
Proof.
  intros Hdir Hv. unfold create_image_lists. rewrite Hdir. cbn [negb].
  destruct (index_sub_dirs_total rt image_dir validation_pct _ ([], []) Hv)
    as [[image_lists warned] ->].
  exists image_lists, warned. reflexivity.
Qed.

(** With an existing root and, in a directory that is not passed over, a
    file whose name cannot be hashed, it raises [UnicodeEncodeError]. *)
Lemma create_image_lists_undecodable (rt : runtime) (image_dir : string)
  (validation_pct : number) (bad : string) :
  os_path_isdir rt image_dir = true ->
  In bad (skipn 1 (os_walk_dirs rt image_dir)) ->
  ~ passed_over rt image_dir bad ->
  encodable_files rt image_dir (basename bad) = false ->
  create_image_lists rt image_dir validation_pct
  = Raise (Exc UnicodeEncodeError []).
Proof.
  intros Hdir Hin Hn Hbad. unfold create_image_lists. rewrite Hdir.
  cbn [negb]. apply (index_sub_dirs_fails _ _ _ _ bad); assumption.
Qed.

(** C1, as amended: for a base name that has a UTF-8 encoding the percentage
    the code computes is the SHA-1 digest of the name's UTF-8 bytes read as
    an integer, reduced modulo (2^27 - 1) + 1 and multiplied by
    100 / (2^27 - 1), and the loop puts the base name of the file (the path
    in front of it plays no part) at the end of the validation list exactly
    when that percentage is strictly below the requested one, otherwise at
    the end of the training list.  A name without UTF-8 encoding is put in
    neither list: the loop fails with [UnicodeEncodeError].  With an existing
    root and names that can be hashed the function returns; every class of
    the result is, under the label of a walked sub-directory that was not
    passed over, the record of that directory with the base names of its
    files split by this rule, in the order collected; and the class of every
    such directory is there, unless a later one of the same label replaced
    it. *)
Theorem partition_follows_hash_rule :
  (forall base_name,
     utf8_valid base_name = true ->
     hash_pct base_name = Ok (spec_percentage base_name)) /\
  (forall validation_pct training_images validation_images file_name,
     utf8_valid (basename file_name) = true ->
     assign validation_pct (training_images, validation_images) file_name
     = Ok (if float_lt (spec_percentage (basename file_name)) validation_pct
           then (training_images,
                 (validation_images ++ [basename file_name])%list)
           else ((training_images ++ [basename file_name])%list,
                 validation_images))) /\
  (forall validation_pct lists file_name,
     utf8_valid (basename file_name) = false ->
     assign validation_pct lists file_name
     = Raise (Exc UnicodeEncodeError [])) /\
  forall (rt : runtime) (image_dir : string) (validation_pct : number),
    os_path_isdir rt image_dir = true ->
    (forall sub_dir,
       In sub_dir (skipn 1 (os_walk_dirs rt image_dir)) ->
       ~ passed_over rt image_dir sub_dir ->
       encodable_files rt image_dir (basename sub_dir) = true) ->
    exists image_lists warned,
      create_image_lists rt image_dir validation_pct
      = Ok (image_lists, warned)
      /\ (forall label rec,
            dict_get image_lists label = Some rec ->
            exists sub_dir,
              In sub_dir (skipn 1 (os_walk_dirs rt image_dir)) /\
              ~ passed_over rt image_dir sub_dir /\
              label = label_of rt sub_dir /\
              rec = split_record rt image_dir validation_pct
                      (basename sub_dir))
      /\ (forall before sub_dir after,
            skipn 1 (os_walk_dirs rt image_dir)
            = (before ++ sub_dir :: after)%list ->
            ~ passed_over rt image_dir sub_dir ->
            (forall d, In d after -> label_of rt d = label_of rt sub_dir ->
                       passed_over rt image_dir d) ->
            dict_get image_lists (label_of rt sub_dir)
            = Some (split_record rt image_dir validation_pct
                      (basename sub_dir))).
Proof.
  split; [exact hash_pct_spec|].
  split; [intros pct tr va f Hv; apply (assign_spec pct tr va f Hv)|].
  split; [intros pct lists f Hv; apply (assign_undecodable pct lists f Hv)|].
  intros rt image_dir validation_pct Hdir Hv.
  destruct (create_image_lists_total rt image_dir validation_pct Hdir Hv)
    as (image_lists & warned & Hrun).
  exists image_lists, warned. split; [exact Hrun|].
  destruct (create_image_lists_returned _ _ _ _ _ Hrun) as [_ Hall].
  split.
  - intros label rec Hget.
    destruct (Hall _ _ (dict_get_In _ _ _ Hget))
      as (sub_dir & Hin & Hl & Hr & Hn).
    exists sub_dir. repeat split; assumption.
  - intros before sub_dir after Hwalk Hn Hafter.
    apply (create_image_lists_keeps_last _ _ _ _ _ _ _ _ Hrun Hwalk Hn
             Hafter).
Qed.

Lemma split_is_exclusive (validation_pct : number) (names : list string)
  (b : string) :
  In b names ->
  in_exactly_one b
    (List.filter (fun b => negb (spec_validation validation_pct b)) names)
    (List.filter (spec_validation validation_pct) names).
Proof.
  intros Hin. unfold in_exactly_one. rewrite !filter_In.
  destruct (spec_validation validation_pct b) eqn:E; cbn [negb].
  - right. split; [tauto|]. intros [_ H]. discriminate H.
  - left. split; [tauto|]. intros [_ H]. discriminate H.
Qed.

Lemma split_is_disjoint (validation_pct : number) (names : list string)
  (b : string) :
  ~ (In b (List.filter (fun b => negb (spec_validation validation_pct b)) names)
     /\ In b (List.filter (spec_validation validation_pct) names)).
Proof.
  rewrite !filter_In. intros [[_ Ht] [_ Hv]].
  rewrite Hv in Ht. discriminate Ht.
Qed.

(** The two lists of the record of a directory: each collected file has its
    base name in exactly one of them, and no name is in both. *)
Lemma split_record_lists (rt : runtime) (image_dir : string)
  (validation_pct : number) (dir_name : string) :
  exists training_images validation_images,
    split_record rt image_dir validation_pct dir_name
    = class_record dir_name training_images validation_images /\
    (forall file_name,
       In file_name (collect_files rt image_dir dir_name) ->
       in_exactly_one (basename file_name) training_images
         validation_images) /\
    (forall base_name,
       ~ (In base_name training_images /\ In base_name validation_images)).
Proof.
  do 2 eexists. split; [reflexivity|]. split.
  - intros file_name Hin. apply split_is_exclusive, in_map, Hin.
  - intros base_name. apply split_is_disjoint.
Qed.

(** C2, as amended: the loop over a file list whose base names all have a
    UTF-8 encoding puts the base name of each file in the training list or
    in the validation list, not in both.  With an existing root and such
    names the function returns; every class of the result is the record of
    a walked sub-directory that was not passed over, each file collected
    for that directory has its base name in exactly one of the two lists of
    the class, and no name at all is in both; and every such directory has
    its class in the result, unless a later one of the same label replaced
    it.  A file whose name has no UTF-8 encoding is put in neither list:
    the loop, and the function with it, fails with [UnicodeEncodeError]. *)
Theorem each_file_in_exactly_one_list :
  (forall (validation_pct : number) (file_list : list string),
     forallb utf8_valid (map basename file_list) = true ->
     exists training_images validation_images,
       assign_all validation_pct ([], []) file_list
       = Ok (training_images, validation_images) /\
       forall file_name,
         In file_name file_list ->
         in_exactly_one (basename file_name) training_images
           validation_images) /\
  (forall (validation_pct : number) (file_list : list string),
     forallb utf8_valid (map basename file_list) = false ->
     assign_all validation_pct ([], []) file_list
     = Raise (Exc UnicodeEncodeError [])) /\
  forall (rt : runtime) (image_dir : string) (validation_pct : number),
    os_path_isdir rt image_dir = true ->
    (forall sub_dir,
       In sub_dir (skipn 1 (os_walk_dirs rt image_dir)) ->
       ~ passed_over rt image_dir sub_dir ->
       encodable_files rt image_dir (basename sub_dir) = true) ->
    exists image_lists warned,
      create_image_lists rt image_dir validation_pct
      = Ok (image_lists, warned)
      /\ (forall label rec,
            dict_get image_lists label = Some rec ->
            exists sub_dir training_images validation_images,
              In sub_dir (skipn 1 (os_walk_dirs rt image_dir)) /\
              ~ passed_over rt image_dir sub_dir /\
              label = label_of rt sub_dir /\
              rec = class_record (basename sub_dir) training_images
                      validation_images /\
              (forall file_name,
                 In file_name
                   (collect_files rt image_dir (basename sub_dir)) ->
                 in_exactly_one (basename file_name) training_images
                   validation_images) /\
              (forall base_name,
                 ~ (In base_name training_images
                    /\ In base_name validation_images)))
      /\ (forall before sub_dir after,
            skipn 1 (os_walk_dirs rt image_dir)
            = (before ++ sub_dir :: after)%list ->
            ~ passed_over rt image_dir sub_dir ->
            (forall d, In d after -> label_of rt d = label_of rt sub_dir ->
                       passed_over rt image_dir d) ->
            exists training_images validation_images,
              dict_get image_lists (label_of rt sub_dir)
              = Some (class_record (basename sub_dir) training_images
                        validation_images) /\
              forall file_name,
                In file_name
                  (collect_files rt image_dir (basename sub_dir)) ->
                in_exactly_one (basename file_name) training_images
                  validation_images).
Proof.
  split; [|split].
  - intros validation_pct file_list Hv. do 2 eexists.
    split; [apply (assign_all_spec _ _ _ _ Hv)|].
    intros file_name Hin. cbn [app].
    apply split_is_exclusive, in_map, Hin.
  - intros validation_pct file_list Hv.
    apply assign_all_undecodable, Hv.
  - intros rt image_dir validation_pct Hdir Hv.
    destruct (create_image_lists_total rt image_dir validation_pct Hdir Hv)
      as (image_lists & warned & Hrun).
    exists image_lists, warned. split; [exact Hrun|].
    destruct (create_image_lists_returned _ _ _ _ _ Hrun) as [_ Hall].
    split.
    + intros label rec Hget.
      destruct (Hall _ _ (dict_get_In _ _ _ Hget))
        as (sub_dir & Hin & Hl & -> & Hn).
      destruct (split_record_lists rt image_dir validation_pct
                  (basename sub_dir)) as (tr & va & -> & Hone & Hnone).
      exists sub_dir, tr, va. repeat split; assumption.
    + intros before sub_dir after Hwalk Hn Hafter.
      rewrite (create_image_lists_keeps_last _ _ _ _ _ _ _ _ Hrun Hwalk Hn
                 Hafter).
      destruct (split_record_lists rt image_dir validation_pct
                  (basename sub_dir)) as (tr & va & -> & Hone & _).
      exists tr, va. split; [reflexivity|exact Hone].
Qed.

(** ** The worked tree *)

Lemma pets_ok : runtime_ok pets.
Proof.
  split.
  - intros pattern. cbn [glob_glob pets]. unfold pets_glob.
    repeat destruct (String.eqb pattern _);
      repeat (constructor; [cbn [In]; intuition discriminate|]);
      constructor.
  - intros pattern extension p Hext Hend Hin.
    cbn [glob_glob pets] in Hin. unfold pets_glob in Hin.
    unfold VALID_IMAGE_FORMATS in Hext. cbn [In] in Hext.
    repeat match type of Hin with
           | context [String.eqb pattern ?s] =>
               let E := fresh "E" in
               destruct (String.eqb pattern s) eqn:E;
               [apply String.eqb_eq in E; subst pattern|]
           end;
      try (destruct Hin; fail);
      destruct Hext as [<-|[<-|[<-|[<-|[]]]]];
      try (vm_compute in Hend; discriminate Hend);
      cbn [In] in Hin;
      repeat (destruct Hin as [<-|Hin]; [reflexivity|]);
      destruct Hin.
  - apply Permutation.NoDup_Permutation.
    + cbn [formats_order pets].
      repeat (constructor; [cbn [In]; intuition discriminate|]). constructor.
    + apply valid_formats_nodup.
    + intros x. cbn [formats_order pets VALID_IMAGE_FORMATS In]. tauto.
Qed.

Example pets_split :
  create_image_lists pets "data" (Int 60) =
  Ok ([("cats", class_record "Cats" ["a.jpg"] ["b.jpg"; "c.JPEG"]);
       ("dogs 2", class_record "dogs-2" ["a.jpg.jpeg"] [])],
      ["Folder has less than 20 images, which may cause issues.";
       "Folder has less than 20 images, which may cause issues.";
       "No files found"]).
Proof. vm_compute. reflexivity. Qed.

Lemma collected_files_are_distinct_witness :
  runtime_ok pets /\ List.NoDup (collect_files pets "data" "Cats").
Proof.
  split; [exact pets_ok|].
  apply (collected_files_are_distinct pets "data" "Cats" pets_ok).
Defined.

Lemma pets_encodable (sub_dir : string) :
  In sub_dir (skipn 1 (os_walk_dirs pets "data")) ->
  ~ passed_over pets "data" sub_dir ->
  encodable_files pets "data" (basename sub_dir) = true.
Proof.
  intros [<-|[<-|[<-|[]]]] _; reflexivity.
Qed.

Lemma partition_follows_hash_rule_witness :
  os_path_isdir pets "data" = true /\
  exists image_lists warned,
    create_image_lists pets "data" (Int 60) = Ok (image_lists, warned) /\
    dict_get image_lists (label_of pets "data/Cats")
    = Some (split_record pets "data" (Int 60) (basename "data/Cats")).
Proof.
  split; [reflexivity|].
  destruct (proj2 (proj2 (proj2 partition_follows_hash_rule)) pets "data"
              (Int 60) eq_refl pets_encodable)
    as (image_lists & warned & Hrun & _ & Hlast).
  exists image_lists, warned. split; [exact Hrun|].
  apply (Hlast [] "data/Cats" ["data/dogs-2"; "data/empty"] eq_refl).
  - intros [H|H]; vm_compute in H; discriminate H.
  - intros d Hd H.
    destruct Hd as [<-|[<-|[]]]; vm_compute in H; discriminate H.
Defined.

(** C1: a file whose name is not UTF-8 is not assigned by the rule.  With
    such a file beside [a.jpg] in the one class directory of an existing
    root, [create_image_lists] raises [UnicodeEncodeError] and returns no
    list at all. *)
Lemma undecodable_name_is_not_assigned :
  os_path_isdir strays "data" = true /\
  In ("data/Cats/" ++ raw_name) (collect_files strays "data" "Cats") /\
  hash_pct raw_name = Raise (Exc UnicodeEncodeError []) /\
  create_image_lists strays "data" (Int 10)
  = Raise (Exc UnicodeEncodeError []).
Proof.
  split; [reflexivity|]. split; [vm_compute; tauto|].
  split; vm_compute; reflexivity.
Qed.

Lemma each_file_in_exactly_one_list_witness :
  os_path_isdir pets "data" = true /\
  exists image_lists warned training_images validation_images,
    create_image_lists pets "data" (Int 10) = Ok (image_lists, warned) /\
    dict_get image_lists (label_of pets "data/Cats")
    = Some (class_record (basename "data/Cats") training_images
              validation_images) /\
    in_exactly_one (basename "data/Cats/b.jpg") training_images
      validation_images.
Proof.
  split; [reflexivity|].
  destruct (proj2 (proj2 each_file_in_exactly_one_list) pets "data" (Int 10)
              eq_refl pets_encodable)
    as (image_lists & warned & Hrun & _ & Hlast).
  destruct (Hlast [] "data/Cats" ["data/dogs-2"; "data/empty"] eq_refl)
    as (tr & va & Hget & Hone).
  - intros [H|H]; vm_compute in H; discriminate H.
  - intros d Hd H.
    destruct Hd as [<-|[<-|[]]]; vm_compute in H; discriminate H.
  - exists image_lists, warned, tr, va. split; [exact Hrun|].
    split; [exact Hget|]. apply (Hone "data/Cats/b.jpg").
    vm_compute. tauto.
Defined.

(** C2: the file whose name is not UTF-8 is a discovered file of its class
    and ends in neither list: the loop over the files of the class fails,
    and the function returns no dictionary. *)
Lemma undecodable_name_is_in_neither_list :
  In ("data/Cats/" ++ raw_name) (collect_files strays "data" "Cats") /\
  assign_all (Int 10) ([], []) (collect_files strays "data" "Cats")
  = Raise (Exc UnicodeEncodeError []) /\
  forall image_lists warned,
    create_image_lists strays "data" (Int 10) <> Ok (image_lists, warned).
Proof.
  split; [vm_compute; tauto|]. split; [vm_compute; reflexivity|].
  intros image_lists warned H. vm_compute in H. discriminate H.
Qed.

(** ** ImageListIterator: construction *)

Lemma dict_get_in_nodup {V} (d : dict V) (k : string) (v : V) :
  List.NoDup (dict_keys d) -> In (k, v) d -> dict_get d k = Some v.
Proof.
  induction d as [|[k0 v0] d IH]; cbn [dict_keys map fst In dict_get];
    intros Hnd Hin; [destruct Hin|].
  apply List.NoDup_cons_iff in Hnd as [Hk0 Hnd].
  destruct Hin as [E|Hin].
  - injection E as -> ->. rewrite String.eqb_refl. reflexivity.
  - destruct (String.eqb k0 k) eqn:E.
    + apply String.eqb_eq in E. subst k0. destruct Hk0.
      apply (in_map fst) in Hin. exact Hin.
    + apply IH; assumption.
Qed.

Lemma dict_set_fresh {V} (d : dict V) (k : string) (v : V) :
  ~ In k (dict_keys d) -> dict_set d k v = (d ++ [(k, v)])%list.
Proof.
  induction d as [|[k0 v0] d IH]; cbn [dict_keys map fst In dict_set app];
    intros H; [reflexivity|].
  destruct (String.eqb k0 k) eqn:E.
  - apply String.eqb_eq in E. tauto.
  - rewrite IH by tauto. reflexivity.
Qed.

Lemma dict_of_from {V} (pairs d : dict V) :
  List.NoDup (dict_keys d ++ dict_keys pairs) ->
  fold_left (fun d '(k, v) => dict_set d k v) pairs d = (d ++ pairs)%list.
Proof.
  revert d. induction pairs as [|[k v] pairs IH]; intros d Hnd;
    cbn [fold_left].
  - rewrite app_nil_r. reflexivity.
  - cbn [dict_keys map fst] in Hnd.
    rewrite dict_set_fresh.
    + rewrite IH.
      * rewrite <- app_assoc. reflexivity.
      * unfold dict_keys. rewrite map_app, <- app_assoc. exact Hnd.
    + apply List.NoDup_remove_2 in Hnd. intros Hin. apply Hnd.
      apply in_or_app. left. exact Hin.
Qed.

Lemma dict_of_nodup {V} (pairs : dict V) :
  List.NoDup (dict_keys pairs) -> dict_of pairs = pairs.
Proof. intros H. unfold dict_of. rewrite dict_of_from; [reflexivity|exact H]. Qed.

Lemma keys_of_combine (keys : list string) (a : nat) :
  dict_keys (combine keys (map Z.of_nat (seq a (length keys)))) = keys.
Proof.
  revert a. induction keys as [|k keys IH]; intros a; [reflexivity|].
  cbn [length seq map combine dict_keys fst]. f_equal. apply IH.
Qed.

Lemma dict_get_combine_seq (keys : list string) (a k : nat) (label : string) :
  List.NoDup keys -> keys !! k = Some label ->
  dict_get (combine keys (map Z.of_nat (seq a (length keys)))) label
  = Some (Z.of_nat (a + k)).
Proof.
  revert a k. induction keys as [|k0 keys IH]; intros a k Hnd Hk;
    [discriminate Hk|].
  apply List.NoDup_cons_iff in Hnd as [Hk0 Hnd].
  cbn [length seq map combine dict_get].
  destruct k as [|k]; cbn in Hk.
  - injection Hk as ->. rewrite String.eqb_refl, Nat.add_0_r. reflexivity.
  - destruct (String.eqb k0 label) eqn:E.
    + apply String.eqb_eq in E. subst k0. destruct Hk0.
      apply list_elem_of_In. eapply list_elem_of_lookup_2, Hk.
    + rewrite (IH (S a) k Hnd Hk). f_equal. lia.
Qed.

Lemma fold_count {A} (l : list A) (n0 : nat) :
  fold_left (fun n _ => S n) l n0 = n0 + length l.
Proof.
  revert n0. induction l as [|x l IH]; intros n0; cbn [fold_left length].
  - lia.
  - rewrite IH. lia.
Qed.

Lemma count_files_spec (il : dict (dict entry)) (category : string)
  (es : dict (dict entry)) (n0 n : nat) :
  (forall label lists, In (label, lists) es -> dict_get il label = Some lists) ->
  count_files il category (dict_keys es) n0 = Ok n ->
  n = n0 + list_sum (map (fun en => length (category_items category (snd en))) es).
Proof.
  revert n0. induction es as [|[label lists] es IH]; intros n0 Hes;
    cbn [dict_keys map fst snd count_files list_sum].
  - intros H. injection H as <-. cbn. lia.
  - unfold dict_getitem at 1.
    rewrite (Hes label lists (or_introl eq_refl)). cbn [res_bind].
    unfold dict_getitem at 1.
    destruct (dict_get lists category) as [files|] eqn:E; cbn [res_bind];
      [|discriminate].
    assert (Hc : category_items category lists = entry_items files)
      by (unfold category_items; rewrite E; reflexivity).
    intros H. apply IH in H.
    + rewrite fold_count in H.
      change (n = n0 + (length (category_items category lists)
                        + list_sum
                            (map (fun en =>
                                    length (category_items category (snd en)))
                               es))).
      rewrite Hc. lia.
    + intros l ls Hin. apply Hes. right. exact Hin.
Qed.

Lemma normalize_index_nat (n j : nat) :
  j < n -> normalize_index n (Z.of_nat j) = Ok j.
Proof.
  intros H. unfold normalize_index.
  replace ((0 <=? Z.of_nat j) && (Z.of_nat j <? Z.of_nat n))%Z with true.
  - rewrite Nat2Z.id. reflexivity.
  - symmetry. apply andb_true_iff. split; [apply Z.leb_le|apply Z.ltb_lt]; lia.
Qed.

Lemma py_index_nat {A} (a : list A) (j : nat) (x : A) :
  a !! j = Some x -> py_index a (Z.of_nat j) = Ok x.
Proof.
  intros H. unfold py_index.
  rewrite normalize_index_nat by (eapply lookup_lt_Some, H).
  cbn [res_bind]. rewrite H. reflexivity.
Qed.

Lemma dict_has_true {V} (d : dict V) (k : string) (v : V) :
  dict_get d k = Some v -> dict_has d k = true.
Proof.
  intros H. destruct (dict_has d k) eqn:E; [reflexivity|].
  apply dict_has_get in E. congruence.
Qed.

Lemma get_image_path_spec (il : dict (dict entry)) (label : string)
  (lists : dict entry) (category : string) (files : entry) (j : nat)
  (base image_dir p : string) :
  dict_get il label = Some lists ->
  dict_get lists category = Some files ->
  entry_items files !! j = Some base ->
  get_image_path il label (Z.of_nat j) image_dir category = Ok p ->
  p = sample_path image_dir lists base.
Proof.
  intros Hl Hc Hj. unfold get_image_path, dict_getitem.
  rewrite (dict_has_true _ _ _ Hl), Hl. cbn [negb res_bind].
  rewrite (dict_has_true _ _ _ Hc), Hc. cbn [negb res_bind].
  destruct (entry_items files) as [|b0 bs] eqn:Ei; [discriminate Hj|].
  rewrite Z.mod_small
    by (apply lookup_lt_Some in Hj; cbn [length] in *; lia).
  rewrite (py_index_nat _ _ _ Hj). cbn [res_bind].
  unfold sample_path.
  destruct (dict_get lists "dir") as [[sub_dir|]|]; cbn [res_bind];
    try discriminate.
  intros H. injection H as <-. reflexivity.
Qed.

Lemma np_store_int32_ok (a a' : list Z) (i : nat) (v : Z) :
  np_store_int32 a i v = Ok a' -> i < length a /\ a' = <[i := v]> a.
Proof.
  unfold np_store_int32.
  destruct (Nat.ltb_spec i (length a)); [|discriminate].
  destruct (in_int32 v); [|discriminate].
  intros E. injection E as <-. split; [assumption|reflexivity].
Qed.

(** Filling [js], positions of files of one label: the cursor advances by
    their number, the class index is written over that stretch of
    [self.classes] and the paths are appended. *)
Lemma fill_label_spec (il : dict (dict entry)) (c2i : dict Z)
  (image_dir category label : string) (lists : dict entry) (files : entry) :
  dict_get il label = Some lists ->
  dict_get lists category = Some files ->
  forall (js : list nat) (i : nat) (cls : list Z) (names : list string)
         (st' : fill_state),
    (forall j, In j js -> j < length (entry_items files)) ->
    i <= length cls ->
    fill_label il c2i image_dir category label (i, cls, names) js = Ok st' ->
    exists id,
      (js <> [] -> dict_get c2i label = Some id) /\
      i + length js <= length cls /\
      st' = (i + length js,
             (take i cls ++ repeat id (length js)
                ++ drop (i + length js) cls)%list,
             (names
                ++ map (fun j =>
                          sample_path image_dir lists
                            (nth j (entry_items files) ""))
                     js)%list).
Proof.
  intros Hl Hc js. induction js as [|j js IH]; intros i cls names st' Hjs Hi.
  - cbn [fill_label]. intros H. injection H as <-. exists 0%Z.
    split; [intros E; destruct E; reflexivity|].
    cbn [length repeat map app]. rewrite Nat.add_0_r, take_drop, app_nil_r.
    split; [exact Hi|reflexivity].
  - cbn [fill_label]. unfold fill_one at 1. unfold dict_getitem at 1.
    destruct (dict_get c2i label) as [id|] eqn:Eid; cbn [res_bind];
      [|discriminate].
    destruct (np_store_int32 cls i id) as [cls1|] eqn:Est; cbn [res_bind];
      [|discriminate].
    apply np_store_int32_ok in Est as [Hlt ->].
    destruct (get_image_path il label (Z.of_nat j) image_dir category)
      as [p|] eqn:Ep; cbn [res_bind]; [|discriminate].
    assert (Hj : entry_items files !! j
                 = Some (nth j (entry_items files) "")).
    { destruct (nth_lookup_or_length (entry_items files) j "") as [E|E];
        [exact E|].
      specialize (Hjs j (or_introl eq_refl)). lia. }
    apply (get_image_path_spec _ _ _ _ _ _ _ _ _ Hl Hc Hj) in Ep. subst p.
    intros H. apply IH in H.
    + destruct H as (id' & Hid' & Hlen & ->).
      rewrite length_insert in Hlen. exists id.
      split; [intros _; reflexivity|].
      cbn [length]. split; [lia|].
      assert (Eid' : repeat id' (length js) = repeat id (length js)).
      { destruct js as [|j' js']; [reflexivity|].
        assert (E : Some id = Some id') by (apply Hid'; discriminate).
        injection E as <-. reflexivity. }
      rewrite Eid'.
      rewrite (take_S_r _ _ id) by (apply list_lookup_insert_eq; exact Hlt).
      rewrite take_insert_ge by lia. rewrite drop_insert_lt by lia.
      replace (i + S (length js)) with (S i + length js) by lia.
      cbn [repeat map]. rewrite <- !app_assoc. reflexivity.
    + intros j' Hj'. apply Hjs. right. exact Hj'.
    + rewrite length_insert. lia.
Qed.

Lemma map_nth_seq_from {A B} (f : A -> B) (d : A) (l pre : list A) :
  map (fun j => f (nth j (pre ++ l) d)) (seq (length pre) (length l))
  = map f l.
Proof.
  revert pre. induction l as [|x l IH]; intros pre; [reflexivity|].
  cbn [length seq map]. rewrite nth_middle. f_equal.
  specialize (IH (pre ++ [x])%list).
  rewrite <- app_assoc, length_app in IH. cbn [length app] in IH.
  rewrite Nat.add_1_r in IH. exact IH.
Qed.

Lemma map_nth_seq {A B} (f : A -> B) (d : A) (l : list A) :
  map (fun j => f (nth j l d)) (seq 0 (length l)) = map f l.
Proof. apply (map_nth_seq_from f d l []). Qed.

(** Filling every label of [es]: label after label, each one's class index
    and paths take up as many positions as it has files. *)
Lemma fill_all_spec (il : dict (dict entry)) (c2i : dict Z)
  (image_dir category : string) (es : dict (dict entry)) :
  (forall label lists, In (label, lists) es -> dict_get il label = Some lists) ->
  forall (i : nat) (cls : list Z) (names : list string) (st' : fill_state),
    i <= length cls ->
    fill_all il c2i image_dir category (i, cls, names) (dict_keys es)
    = Ok st' ->
    let total :=
      list_sum (map (fun en => length (category_items category (snd en))) es) in
    i + total <= length cls /\
    st' = (i + total,
           (take i cls
              ++ flat_map
                   (fun '(label, lists) =>
                      repeat (id_of c2i label)
                        (length (category_items category lists)))
                   es
              ++ drop (i + total) cls)%list,
           (names
              ++ flat_map
                   (fun '(label, lists) =>
                      map (sample_path image_dir lists)
                        (category_items category lists))
                   es)%list).
Proof.
  induction es as [|[label lists] es IH]; intros Hes i cls names st' Hi.
  - cbn [dict_keys map fill_all]. intros H. injection H as <-.
    cbn. rewrite Nat.add_0_r, take_drop, app_nil_r.
    split; [exact Hi|reflexivity].
  - cbn [dict_keys map fst fill_all].
    assert (Hl : dict_get il label = Some lists)
      by (apply Hes; left; reflexivity).
    unfold dict_getitem at 1. rewrite Hl. cbn [res_bind].
    unfold dict_getitem at 1.
    destruct (dict_get lists category) as [files|] eqn:Hc; cbn [res_bind];
      [|discriminate].
    assert (Hitems : category_items category lists = entry_items files)
      by (unfold category_items; rewrite Hc; reflexivity).
    destruct (fill_label il c2i image_dir category label (i, cls, names)
                (seq 0 (length (entry_items files)))) as [st1|] eqn:E1;
      cbn [res_bind]; [|discriminate].
    apply (fill_label_spec _ _ _ _ _ _ _ Hl Hc) in E1; [|
      intros j Hj; apply in_seq in Hj; lia | exact Hi].
    destruct E1 as (id & Hid & Hlen & ->).
    rewrite length_seq in Hlen |- *. rewrite map_nth_seq.
    assert (Eid : repeat id (length (entry_items files))
                  = repeat (id_of c2i label) (length (entry_items files))).
    { destruct (entry_items files) as [|b bs]; [reflexivity|].
      unfold id_of. rewrite Hid; [reflexivity|]. cbn. discriminate. }
    rewrite Eid. clear Eid Hid id.
    set (m := length (entry_items files)) in *.
    intros H. apply IH in H.
    + cbn zeta in H. destruct H as [Htot ->].
      rewrite !length_app, repeat_length, length_take, length_drop in Htot.
      cbn [map snd list_sum fold_right flat_map].
      fold (list_sum
              (map (fun en => length (category_items category (snd en))) es))
        in *.
      rewrite Hitems. fold m.
      set (t := list_sum _) in *.
      split; [lia|].
      f_equal; [f_equal; [lia|]|].
      * rewrite (app_assoc (take i cls)).
        rewrite take_app_length'
          by (rewrite length_app, repeat_length, length_take; lia).
        rewrite <- (drop_drop _ t (i + m)).
        rewrite (drop_app_length' _ _ (i + m))
          by (rewrite length_app, repeat_length, length_take; lia).
        rewrite drop_drop.
        replace (i + (m + t)) with (i + m + t) by lia.
        rewrite <- !app_assoc. reflexivity.
      * rewrite <- !app_assoc. reflexivity.
    + intros l ls Hin. apply Hes. right. exact Hin.
    + rewrite !length_app, repeat_length, length_take, length_drop. lia.
Qed.

Lemma combine_app_same {A B} (a1 a2 : list A) (b1 b2 : list B) :
  length a1 = length b1 ->
  combine (a1 ++ a2) (b1 ++ b2) = (combine a1 b1 ++ combine a2 b2)%list.
Proof.
  revert b1. induction a1 as [|x a1 IH]; intros [|y b1] H;
    try discriminate H; [reflexivity|].
  cbn [app combine]. rewrite IH by (injection H as H; exact H). reflexivity.
Qed.

Lemma combine_map_repeat {A B C} (f : A -> B) (c : C) (l : list A) :
  combine (map f l) (repeat c (length l)) = map (fun x => (f x, c)) l.
Proof. induction l as [|x l IH]; [reflexivity|]. cbn. rewrite IH. reflexivity. Qed.

Lemma combine_blocks (image_dir category : string) (c2i : dict Z)
  (es : dict (dict entry)) :
  combine
    (flat_map (fun '(label, lists) =>
                 map (sample_path image_dir lists)
                   (category_items category lists)) es)
    (flat_map (fun '(label, lists) =>
                 repeat (id_of c2i label)
                   (length (category_items category lists))) es)
  = map (fun '(path, label) => (path, id_of c2i label))
      (flat_samples image_dir category es).
Proof.
  unfold flat_samples. induction es as [|[label lists] es IH]; [reflexivity|].
  cbn [flat_map]. rewrite combine_app_same
    by (rewrite length_map, repeat_length; reflexivity).
  rewrite IH, combine_map_repeat, map_app, map_map. reflexivity.
Qed.

Lemma length_blocks (category : string) {A}
  (f : string -> dict entry -> list A) (es : dict (dict entry)) :
  (forall label lists,
     length (f label lists) = length (category_items category lists)) ->
  length (flat_map (fun '(label, lists) => f label lists) es)
  = list_sum (map (fun en => length (category_items category (snd en))) es).
Proof.
  intros Hf. induction es as [|[label lists] es IH]; [reflexivity|].
  cbn [flat_map map snd]. rewrite length_app, Hf, IH. reflexivity.
Qed.

Section Construction.

Variable K : backend.
Variable image_lists : dict (dict entry).
Variables category image_dir : string.
Variable target_size : list Z.
Variable color_mode : string.
Variable mode : option string.
Variable batch_size : Z.
Variable shuffle : bool.
Variable seed : option Z.
Variable data_format : option string.
Variable save_to_dir : option string.
Variables save_prefix save_format : string.

(** What a successful construction leaves in the object. *)
Lemma ImageListIterator_init_spec (self : ImageListIterator) :
  List.NoDup (dict_keys image_lists) ->
  ImageListIterator_init K image_lists category image_dir target_size
    color_mode mode batch_size shuffle seed data_format save_to_dir
    save_prefix save_format = Ok self ->
  samples self
  = list_sum
      (map (fun en => length (category_items category (snd en))) image_lists)
  /\ length (filenames self) = samples self
  /\ length (classes self) = samples self
  /\ num_class self = length image_lists
  /\ (forall k label lists,
        image_lists !! k = Some (label, lists) ->
        dict_get (class2id self) label = Some (Z.of_nat k))
  /\ combine (filenames self) (classes self)
     = map (fun '(path, label) => (path, class_index self label))
         (flat_samples image_dir category image_lists)
  /\ (forall c, In c (classes self) ->
                (0 <= c < Z.of_nat (num_class self))%Z)
  /\ class_mode self = mode.
Proof.
  intros Hnd. unfold ImageListIterator_init.
  assert (Hes : forall label lists,
             In (label, lists) image_lists ->
             dict_get image_lists label = Some lists)
    by (intros label lists; apply dict_get_in_nodup, Hnd).
  destruct (count_files image_lists category (dict_keys image_lists) 0)
    as [n|] eqn:Ec; cbn [res_bind]; [|discriminate].
  apply (count_files_spec _ _ _ _ _ Hes) in Ec. cbn [Nat.add] in Ec.
  destruct (negb (String.eqb color_mode "rgb"
                  || String.eqb color_mode "grayscale")); [discriminate|].
  match goal with
  | |- (if negb ?c then _ else _) = _ -> _ => destruct (negb c)
  end; [discriminate|].
  rewrite dict_of_nodup by (rewrite keys_of_combine; exact Hnd).
  destruct (fill_all image_lists _ image_dir category (0, repeat 0%Z n, [])
              (dict_keys image_lists)) as [[[i cls] names]|] eqn:Ef;
    cbn [res_bind]; [|discriminate].
  apply (fill_all_spec _ _ _ _ _ Hes) in Ef; [|lia].
  cbn zeta in Ef. rewrite <- Ec in Ef. destruct Ef as [_ Ef].
  cbn [Nat.add take app] in Ef.
  rewrite drop_ge, app_nil_r in Ef by (rewrite repeat_length; lia).
  injection Ef as -> -> ->.
  intros H. injection H as <-.
  cbn [samples filenames classes num_class class2id class_index
       class_mode].
  assert (Hpos : forall k label lists,
             image_lists !! k = Some (label, lists) ->
             dict_get
               (combine (dict_keys image_lists)
                  (map Z.of_nat (seq 0 (length (dict_keys image_lists)))))
               label = Some (Z.of_nat k)).
  { intros k label lists Hk.
    apply (dict_get_combine_seq _ 0 k label Hnd).
    unfold dict_keys. rewrite list_lookup_fmap, Hk. reflexivity. }
  split; [exact Ec|]. repeat split.
  - rewrite (length_blocks category
               (fun _ lists => map (sample_path image_dir lists)
                                 (category_items category lists)))
      by (intros; apply length_map).
    symmetry. exact Ec.
  - rewrite (length_blocks category
               (fun label lists => repeat _ (length (category_items category lists))))
      by (intros; apply repeat_length).
    symmetry. exact Ec.
  - unfold dict_keys. apply length_map.
  - exact Hpos.
  - apply combine_blocks.
  - apply in_flat_map in H as ([label lists] & Hin & Hc).
    apply repeat_spec in Hc. subst c.
    apply list_elem_of_In, list_elem_of_lookup in Hin as [k Hk].
    unfold id_of. rewrite (Hpos _ _ _ Hk). lia.
  - apply in_flat_map in H as ([label lists] & Hin & Hc).
    apply repeat_spec in Hc. subst c.
    apply list_elem_of_In, list_elem_of_lookup in Hin as [k Hk].
    unfold id_of. rewrite (Hpos _ _ _ Hk).
    apply lookup_lt_Some in Hk. unfold dict_keys. rewrite length_map. lia.
Qed.

(** C10: for a dictionary (its keys are distinct) and a category the
    constructor accepts, [samples] is the sum over the labels of the number
    of entries of the category, [filenames] and [classes] have that length,
    [class2id] gives each label its position in the dictionary, and position
    by position [filenames] and [classes] hold the path and the class index
    of the samples taken label after label, in dictionary order, each
    label's entries in their own order. *)
Theorem iterator_index_matches_image_lists (self : ImageListIterator) :
  List.NoDup (dict_keys image_lists) ->
  ImageListIterator_init K image_lists category image_dir target_size
    color_mode mode batch_size shuffle seed data_format save_to_dir
    save_prefix save_format = Ok self ->
  samples self
  = list_sum
      (map (fun en => length (category_items category (snd en))) image_lists)
  /\ length (filenames self) = samples self
  /\ length (classes self) = samples self
  /\ (forall k label lists,
        image_lists !! k = Some (label, lists) ->
        dict_get (class2id self) label = Some (Z.of_nat k))
  /\ combine (filenames self) (classes self)
     = map (fun '(path, label) => (path, class_index self label))
         (flat_samples image_dir category image_lists).
Proof.
  intros Hnd Hinit.
  destruct (ImageListIterator_init_spec self Hnd Hinit)
    as (H1 & H2 & H3 & _ & H5 & H6 & _).
  repeat split; assumption.
Qed.

End Construction.

(** ** ImageListIterator: batches *)

Lemma mapM_spec {A B} (f : A -> res B) (l : list A) (ys : list B) :
  mapM f l = Ok ys ->
  length ys = length l /\
  forall k x, l !! k = Some x -> exists y, ys !! k = Some y /\ f x = Ok y.
Proof.
  revert ys. induction l as [|a l IH]; intros ys; cbn [mapM].
  - intros H. injection H as <-. split; [reflexivity|]. intros k x Hk.
    discriminate Hk.
  - destruct (f a) as [b|] eqn:Ea; cbn [res_bind]; [|discriminate].
    destruct (mapM f l) as [bs|]; cbn [res_bind]; [|discriminate].
    intros H. injection H as <-. destruct (IH bs eq_refl) as [Hlen Hk].
    split; [cbn [length]; lia|].
    intros [|k] x Hx; cbn in Hx.
    + injection Hx as <-. exists b. split; [reflexivity|exact Ea].
    + apply Hk, Hx.
Qed.

Lemma py_index_in {A} (a : list A) (j : Z) (x : A) :
  py_index a j = Ok x -> In x a.
Proof.
  unfold py_index.
  destruct (normalize_index (length a) j) as [i|]; cbn [res_bind];
    [|discriminate].
  destruct (a !! i) as [y|] eqn:E; [|discriminate].
  intros H. injection H as <-.
  apply list_elem_of_In. eapply list_elem_of_lookup_2, E.
Qed.

Lemma lookup_repeat {A} (x : A) (n i : nat) :
  i < n -> repeat x n !! i = Some x.
Proof.
  revert i. induction n as [|n IH]; intros i H; [lia|].
  destruct i as [|i]; [reflexivity|]. cbn. apply IH. lia.
Qed.

Lemma normalize_index_in_range (n : nat) (label : Z) :
  (0 <= label < Z.of_nat n)%Z ->
  normalize_index n label = Ok (Z.to_nat label).
Proof.
  intros H. unfold normalize_index.
  replace ((0 <=? label) && (label <? Z.of_nat n))%Z with true;
    [reflexivity|].
  symmetry. apply andb_true_iff. split; [apply Z.leb_le|apply Z.ltb_lt]; lia.
Qed.

Lemma floatx_one_is_not_zero (fx : floatx) : to_floatx fx 1 <> to_floatx fx 0.
Proof. destruct fx; vm_compute; discriminate. Qed.

(** Marking the labels from row [i] on: each row met gets the 1 at its
    label, every other row is left as it was. *)
Lemma fill_one_hot_spec (K : backend) (labels : list Z) :
  forall (m : list (list float)) (i : nat) (y : list (list float)),
    fill_one_hot K m i labels = Ok y ->
    length y = length m /\
    (forall r, r < i -> y !! r = m !! r) /\
    (forall k label,
       labels !! k = Some label ->
       exists row c,
         m !! (i + k) = Some row /\
         normalize_index (length row) label = Ok c /\
         y !! (i + k) = Some (<[c := to_floatx (K_floatx K) 1]> row)).
Proof.
  induction labels as [|label labels IH]; intros m i y; cbn [fill_one_hot].
  - intros H. injection H as <-. split; [reflexivity|].
    split; [reflexivity|]. intros k l Hk. discriminate Hk.
  - unfold np_store2 at 1.
    destruct (m !! i) as [row|] eqn:Erow; [|discriminate].
    destruct (normalize_index (length row) label) as [c|] eqn:Ec;
      cbn [res_bind]; [|discriminate].
    intros H. apply IH in H as (Hlen & Hbefore & Hrows).
    rewrite length_insert in Hlen.
    split; [exact Hlen|]. split.
    + intros r Hr. rewrite Hbefore by lia.
      apply list_lookup_insert_ne. lia.
    + intros [|k] l Hk; cbn in Hk.
      * injection Hk as <-. exists row, c. rewrite Nat.add_0_r.
        split; [exact Erow|]. split; [exact Ec|].
        rewrite Hbefore by lia. apply list_lookup_insert_eq.
        eapply lookup_lt_Some, Erow.
      * destruct (Hrows k l Hk) as (row' & c' & Hrow' & Hc' & Hy).
        exists row', c'.
        replace (i + S k) with (S i + k) by lia.
        split; [|split; [exact Hc'|exact Hy]].
        rewrite list_lookup_insert_ne in Hrow' by lia. exact Hrow'.
Qed.

Section BatchFacts.

Variable image : Type.
Variable blank : image.
Variable load_sample : ImageListIterator -> nat -> string -> res image.
Variable save_sample :
  ImageListIterator -> string -> Z -> nat -> image -> res unit.
Variable K : backend.

Lemma load_batch_length (self : ImageListIterator) (index_array : list Z) :
  forall (batch_x batch_x' : list image) (i : nat),
    load_batch image load_sample self batch_x i index_array = Ok batch_x' ->
    length batch_x' = length batch_x.
Proof.
  induction index_array as [|j rest IH]; intros batch_x batch_x' i;
    cbn [load_batch].
  - intros H. injection H as <-. reflexivity.
  - destruct (py_index (filenames self) j) as [name|]; cbn [res_bind];
      [|discriminate].
    destruct (load_sample self i name) as [x|]; cbn [res_bind];
      [|discriminate].
    destruct (i <? length batch_x)%nat; [|discriminate].
    intros H. apply IH in H. rewrite length_insert in H. exact H.
Qed.

(** C7: for an iterator the constructor has built over a dictionary (its keys
    are distinct), in "categorical" mode, every batch returned by [next] for
    an index array of the announced size carries a label array with one row
    per index; the row of index [j] has the length [num_class], holds 1 at
    the class index [classes[j]] and 0 at every other place, and 1 and 0 are
    different numbers of the label dtype. *)
Theorem categorical_rows_are_one_hot
  (image_lists : dict (dict entry)) (category image_dir : string)
  (target_size : list Z) (color_mode : string) (mode : option string)
  (batch_size : Z) (shuffle : bool) (seed : option Z)
  (data_format save_to_dir : option string) (save_prefix save_format : string)
  (self : ImageListIterator)
  (index_array : list Z) (current_index : Z) (current_batch_size : nat)
  (batch_x : list image) (batch_y : option batch_labels) :
  List.NoDup (dict_keys image_lists) ->
  ImageListIterator_init K image_lists category image_dir target_size
    color_mode mode batch_size shuffle seed data_format save_to_dir
    save_prefix save_format = Ok self ->
  class_mode self = Some "categorical" ->
  length index_array = current_batch_size ->
  ImageListIterator_next image blank load_sample save_sample K self
    index_array current_index current_batch_size = Ok (batch_x, batch_y) ->
  exists y,
    batch_y = Some (CategoricalLabels y) /\
    length y = length index_array /\
    to_floatx (K_floatx K) 1 <> to_floatx (K_floatx K) 0 /\
    forall i j,
      index_array !! i = Some j ->
      exists label row,
        py_index (classes self) j = Ok label /\
        (0 <= label < Z.of_nat (num_class self))%Z /\
        y !! i = Some row /\
        length row = num_class self /\
        forall c,
          c < num_class self ->
          row !! c =
          Some (if decide (c = Z.to_nat label)
                then to_floatx (K_floatx K) 1
                else to_floatx (K_floatx K) 0).
Proof.
  intros Hnd Hinit Hmode Hsize.
  destruct (ImageListIterator_init_spec _ _ _ _ _ _ _ _ _ _ _ _ _ _ _
              Hnd Hinit) as (_ & _ & _ & _ & _ & _ & Hrange & _).
  unfold ImageListIterator_next, mode_is. rewrite Hmode.
  destruct (load_batch image load_sample self (repeat blank current_batch_size)
              0 index_array) as [bx|] eqn:Eload; cbn [res_bind];
    [|discriminate].
  apply load_batch_length in Eload. rewrite repeat_length in Eload.
  match goal with
  | |- res_bind ?s _ = _ -> _ => destruct s as [[]|]
  end; cbn [res_bind]; [|discriminate].
  change (String.eqb "categorical" "sparse") with false.
  change (String.eqb "categorical" "binary") with false.
  change (String.eqb "categorical" "categorical") with true.
  cbn iota.
  destruct (np_take (classes self) index_array) as [labels|] eqn:Etake;
    cbn [res_bind]; [|discriminate].
  apply mapM_spec in Etake as [Hlen Hlabels].
  destruct (fill_one_hot K _ 0 labels) as [y|] eqn:Efill; cbn [res_bind];
    [|discriminate].
  apply fill_one_hot_spec in Efill as (Hy & _ & Hrows).
  rewrite repeat_length, Eload in Hy.
  intros H. injection H as <- <-.
  exists y. split; [reflexivity|]. split; [lia|].
  split; [apply floatx_one_is_not_zero|].
  intros i j Hj.
  destruct (Hlabels i j Hj) as (label & Hlabel & Hidx).
  assert (Hlab : (0 <= label < Z.of_nat (num_class self))%Z)
    by (apply Hrange; eapply py_index_in, Hidx).
  destruct (Hrows i label Hlabel) as (row & c & Hrow & Hc & Hyi).
  cbn [Nat.add] in Hrow, Hyi.
  assert (Hi : i < length bx)
    by (apply lookup_lt_Some in Hj; lia).
  rewrite lookup_repeat in Hrow by exact Hi.
  injection Hrow as <-.
  rewrite repeat_length, normalize_index_in_range in Hc by exact Hlab.
  injection Hc as <-.
  exists label, (<[Z.to_nat label := to_floatx (K_floatx K) 1]>
                   (repeat (to_floatx (K_floatx K) 0) (num_class self))).
  split; [exact Hidx|]. split; [exact Hlab|]. split; [exact Hyi|].
  split; [rewrite length_insert, repeat_length; reflexivity|].
  intros c Hc. destruct (decide (c = Z.to_nat label)) as [->|Hne].
  - apply list_lookup_insert_eq. rewrite repeat_length. exact Hc.
  - rewrite list_lookup_insert_ne by congruence.
    apply lookup_repeat, Hc.
Qed.

End BatchFacts.

(** ** ImageListIterator: when construction and batches succeed *)

Lemma get_image_path_total (il : dict (dict entry)) (label : string)
  (lists : dict entry) (category : string) (files : entry) (j : nat)
  (image_dir sub_dir : string) :
  dict_get il label = Some lists ->
  dict_get lists category = Some files ->
  j < length (entry_items files) ->
  dict_get lists "dir" = Some (EStr sub_dir) ->
  exists p, get_image_path il label (Z.of_nat j) image_dir category = Ok p.
Proof.
  intros Hl Hc Hj Hd. unfold get_image_path, dict_getitem.
  rewrite (dict_has_true _ _ _ Hl), Hl. cbn [negb res_bind].
  rewrite (dict_has_true _ _ _ Hc), Hc. cbn [negb res_bind].
  destruct (entry_items files) as [|b0 bs] eqn:Ei; [cbn in Hj; lia|].
  rewrite Z.mod_small by lia.
  destruct (lookup_lt_is_Some_2 (b0 :: bs) j Hj) as [base Hbase].
  rewrite (py_index_nat _ _ _ Hbase). cbn [res_bind]. rewrite Hd.
  cbn [res_bind]. eexists. reflexivity.
Qed.

Lemma fill_label_total (il : dict (dict entry)) (c2i : dict Z)
  (image_dir category label : string) (lists : dict entry) (files : entry)
  (id : Z) (sub_dir : string) :
  dict_get il label = Some lists ->
  dict_get lists category = Some files ->
  dict_get c2i label = Some id ->
  in_int32 id = true ->
  dict_get lists "dir" = Some (EStr sub_dir) ->
  forall (js : list nat) (i : nat) (cls : list Z) (names : list string),
    (forall j, In j js -> j < length (entry_items files)) ->
    i + length js <= length cls ->
    exists st',
      fill_label il c2i image_dir category label (i, cls, names) js = Ok st'.
Proof.
  intros Hl Hc Hid Hrange Hd js.
  induction js as [|j js IH]; intros i cls names Hjs Hcap; cbn [fill_label].
  - eexists. reflexivity.
  - cbn [length] in Hcap. unfold fill_one at 1. unfold dict_getitem at 1.
    rewrite Hid. cbn [res_bind]. unfold np_store_int32.
    destruct (Nat.ltb_spec i (length cls)) as [_|Hge]; [|lia].
    rewrite Hrange. cbn [res_bind].
    destruct (get_image_path_total il label lists category files j image_dir
                sub_dir Hl Hc (Hjs j (or_introl eq_refl)) Hd) as [p ->].
    cbn [res_bind]. apply IH.
    + intros j' Hj'. apply Hjs. right. exact Hj'.
    + rewrite length_insert. lia.
Qed.

Lemma count_files_total (il : dict (dict entry)) (category : string)
  (es : dict (dict entry)) (n0 : nat) :
  (forall label lists,
     In (label, lists) es ->
     dict_get il label = Some lists /\ label_ready category lists) ->
  exists n, count_files il category (dict_keys es) n0 = Ok n.
Proof.
  revert n0. induction es as [|[label lists] es IH]; intros n0 Hes;
    cbn [dict_keys map fst count_files].
  - eexists. reflexivity.
  - destruct (Hes label lists (or_introl eq_refl)) as [Hl (files & Hc & _)].
    unfold dict_getitem at 1. rewrite Hl. cbn [res_bind].
    unfold dict_getitem at 1. rewrite Hc. cbn [res_bind].
    apply IH. intros l ls Hin. apply Hes. right. exact Hin.
Qed.

Lemma fill_all_total (il : dict (dict entry)) (c2i : dict Z)
  (image_dir category : string) (es : dict (dict entry)) :
  (forall label lists,
     In (label, lists) es ->
     dict_get il label = Some lists /\ label_ready category lists /\
     exists id, dict_get c2i label = Some id /\ in_int32 id = true) ->
  forall (i : nat) (cls : list Z) (names : list string),
    i + list_sum
          (map (fun en => length (category_items category (snd en))) es)
    <= length cls ->
    exists st',
      fill_all il c2i image_dir category (i, cls, names) (dict_keys es)
      = Ok st'.
Proof.
  induction es as [|[label lists] es IH]; intros Hes i cls names Hcap;
    cbn [dict_keys map fst fill_all].
  - eexists. reflexivity.
  - destruct (Hes label lists (or_introl eq_refl))
      as (Hl & (files & Hc & Hdir) & id & Hid & Hrange).
    assert (Hitems : category_items category lists = entry_items files)
      by (unfold category_items; rewrite Hc; reflexivity).
    change (i + (length (category_items category lists)
                 + list_sum
                     (map (fun en => length (category_items category (snd en)))
                        es)) <= length cls) in Hcap.
    rewrite Hitems in Hcap.
    unfold dict_getitem at 1. rewrite Hl. cbn [res_bind].
    unfold dict_getitem at 1. rewrite Hc. cbn [res_bind].
    assert (Hlabel : exists st1,
               fill_label il c2i image_dir category label (i, cls, names)
                 (seq 0 (length (entry_items files))) = Ok st1).
    { destruct Hdir as [Hnil|[sub_dir Hd]].
      - rewrite Hnil. eexists. reflexivity.
      - apply (fill_label_total _ _ _ _ _ _ _ _ _ Hl Hc Hid Hrange Hd).
        + intros j Hj. apply in_seq in Hj. lia.
        + rewrite length_seq. lia. }
    destruct Hlabel as [st1 E1]. rewrite E1. cbn [res_bind].
    apply (fill_label_spec _ _ _ _ _ _ _ Hl Hc) in E1; [|
      intros j Hj; apply in_seq in Hj; lia | lia].
    destruct E1 as (id' & _ & Hlen & ->). rewrite length_seq in *.
    apply IH.
    + intros l ls Hin. apply Hes. right. exact Hin.
    + rewrite !length_app, repeat_length, length_take, length_drop. lia.
Qed.

(** The constructor accepts every dictionary with distinct keys and at most
    2^31 labels, each of them ready for the category, together with a known
    colour mode and class mode. *)
Lemma ImageListIterator_init_total (K : backend)
  (image_lists : dict (dict entry)) (category image_dir : string)
  (target_size : list Z) (color_mode : string) (mode : option string)
  (batch_size : Z) (shuffle : bool) (seed : option Z)
  (data_format save_to_dir : option string) (save_prefix save_format : string) :
  List.NoDup (dict_keys image_lists) ->
  (Z.of_nat (length image_lists) <= 2 ^ 31)%Z ->
  (forall label lists,
     In (label, lists) image_lists -> label_ready category lists) ->
  color_mode = "rgb" \/ color_mode = "grayscale" ->
  mode = None \/ mode = Some "categorical" \/ mode = Some "binary"
  \/ mode = Some "sparse" ->
  exists self,
    ImageListIterator_init K image_lists category image_dir target_size
      color_mode mode batch_size shuffle seed data_format save_to_dir
      save_prefix save_format = Ok self.
Proof.
  intros Hnd Hmany Hready Hcolor Hmode. unfold ImageListIterator_init.
  assert (Hget : forall label lists,
             In (label, lists) image_lists ->
             dict_get image_lists label = Some lists)
    by (intros label lists; apply dict_get_in_nodup, Hnd).
  destruct (count_files_total image_lists category image_lists 0) as [n Ec].
  { intros label lists Hin. split; [apply Hget, Hin|eapply Hready, Hin]. }
  rewrite Ec. cbn [res_bind].
  apply (count_files_spec _ _ _ _ _ Hget) in Ec. cbn [Nat.add] in Ec.
  replace (negb (String.eqb color_mode "rgb"
                 || String.eqb color_mode "grayscale")) with false
    by (destruct Hcolor as [-> | ->]; reflexivity).
  match goal with
  | |- exists _, (if negb ?c then _ else _) = _ =>
      replace (negb c) with false
        by (destruct Hmode as [-> | [-> | [-> | ->]]]; reflexivity)
  end.
  rewrite dict_of_nodup by (rewrite keys_of_combine; exact Hnd).
  destruct (fill_all_total image_lists
              (combine (dict_keys image_lists)
                 (map Z.of_nat (seq 0 (length (dict_keys image_lists)))))
              image_dir category image_lists) with (i := 0)
      (cls := repeat 0%Z n) (names := @nil string) as [[[i cls] names] ->].
  - intros label lists Hin. split; [apply Hget, Hin|].
    split; [eapply Hready, Hin|].
    apply list_elem_of_In, list_elem_of_lookup in Hin as [k Hk].
    exists (Z.of_nat k). split.
    + apply (dict_get_combine_seq _ 0 k label Hnd).
      unfold dict_keys. rewrite list_lookup_fmap, Hk. reflexivity.
    + apply lookup_lt_Some in Hk. unfold in_int32.
      apply andb_true_iff. split; [apply Z.leb_le|apply Z.ltb_lt]; lia.
  - rewrite repeat_length. lia.
  - cbn [res_bind]. eexists. reflexivity.
Qed.

Lemma np_take_total {A} (a : list A) (index_array : list Z) :
  (forall j, In j index_array -> (0 <= j < Z.of_nat (length a))%Z) ->
  exists ys, np_take a index_array = Ok ys.
Proof.
  unfold np_take. induction index_array as [|j rest IH]; intros Hidx;
    cbn [mapM].
  - eexists. reflexivity.
  - destruct (Hidx j (or_introl eq_refl)) as [H0 H1].
    destruct (lookup_lt_is_Some_2 a (Z.to_nat j)) as [x Hx]; [lia|].
    assert (Hpy : py_index a j = Ok x).
    { rewrite <- (Z2Nat.id j) by exact H0. apply py_index_nat. exact Hx. }
    rewrite Hpy. cbn [res_bind].
    destruct IH as [ys ->]; [intros j' Hj'; apply Hidx; right; exact Hj'|].
    cbn [res_bind]. eexists. reflexivity.
Qed.

Lemma fill_one_hot_total (K : backend) (nc : nat) (labels : list Z) :
  forall (m : list (list float)) (i : nat),
    Forall (fun row => length row = nc) m ->
    i + length labels <= length m ->
    (forall label, In label labels -> (0 <= label < Z.of_nat nc)%Z) ->
    exists y, fill_one_hot K m i labels = Ok y.
Proof.
  induction labels as [|label labels IH]; intros m i Hrows Hcap Hlabels;
    cbn [fill_one_hot].
  - eexists. reflexivity.
  - cbn [length] in Hcap. unfold np_store2.
    destruct (lookup_lt_is_Some_2 m i) as [row Hrow]; [lia|].
    rewrite Hrow.
    assert (Hlen : length row = nc).
    { exact (Forall_lookup_1 _ _ _ _ Hrows Hrow). }
    rewrite Hlen, normalize_index_in_range
      by (apply Hlabels; left; reflexivity).
    cbn [res_bind]. apply IH.
    + apply Forall_insert; [exact Hrows|].
      rewrite length_insert. exact Hlen.
    + rewrite length_insert. lia.
    + intros l Hl. apply Hlabels. right. exact Hl.
Qed.

Section BatchesProduced.

Variable image : Type.
Variable blank : image.
Variable load_sample : ImageListIterator -> nat -> string -> res image.
Variable save_sample :
  ImageListIterator -> string -> Z -> nat -> image -> res unit.
Variable K : backend.

Lemma load_batch_total (self : ImageListIterator) (index_array : list Z) :
  (forall i name, exists x, load_sample self i name = Ok x) ->
  (forall j, In j index_array ->
             (0 <= j < Z.of_nat (length (filenames self)))%Z) ->
  forall (batch_x : list image) (i : nat),
    i + length index_array <= length batch_x ->
    exists batch_x',
      load_batch image load_sample self batch_x i index_array = Ok batch_x'.
Proof.
  intros Hload. induction index_array as [|j rest IH];
    intros Hidx batch_x i Hcap; cbn [load_batch].
  - eexists. reflexivity.
  - cbn [length] in Hcap.
    destruct (np_take_total (filenames self) [j]) as [names Hnames].
    { intros j' [<-|[]]. apply Hidx. left. reflexivity. }
    unfold np_take in Hnames. cbn [mapM] in Hnames.
    destruct (py_index (filenames self) j) as [name|]; [|discriminate].
    cbn [res_bind]. destruct (Hload i name) as [x ->]. cbn [res_bind].
    destruct (Nat.ltb_spec i (length batch_x)) as [_|Hge]; [|lia].
    apply IH.
    + intros j' Hj'. apply Hidx. right. exact Hj'.
    + rewrite length_insert. lia.
Qed.

(** An iterator the constructor has built gives a batch, with its label
    array, for every index array within [0, samples) when the images load
    and no copy is saved. *)
Lemma categorical_batch_is_produced
  (image_lists : dict (dict entry)) (category image_dir : string)
  (target_size : list Z) (color_mode : string) (mode : option string)
  (batch_size : Z) (shuffle : bool) (seed : option Z)
  (data_format save_dir : option string) (save_prefix save_format : string)
  (self : ImageListIterator) (index_array : list Z) (current_index : Z) :
  List.NoDup (dict_keys image_lists) ->
  ImageListIterator_init K image_lists category image_dir target_size
    color_mode mode batch_size shuffle seed data_format save_dir
    save_prefix save_format = Ok self ->
  class_mode self = Some "categorical" ->
  save_to_dir self = None ->
  (forall i name, exists x, load_sample self i name = Ok x) ->
  (forall j, In j index_array -> (0 <= j < Z.of_nat (samples self))%Z) ->
  exists batch_x y,
    ImageListIterator_next image blank load_sample save_sample K self
      index_array current_index (length index_array)
    = Ok (batch_x, Some (CategoricalLabels y)).
Proof.
  intros Hnd Hinit Hmode Hsave Hload Hidx.
  destruct (ImageListIterator_init_spec _ _ _ _ _ _ _ _ _ _ _ _ _ _ _
              Hnd Hinit) as (_ & Hnames & Hclasses & _ & _ & _ & Hrange & _).
  unfold ImageListIterator_next, mode_is. rewrite Hmode.
  destruct (load_batch_total self index_array Hload) with
    (batch_x := repeat blank (length index_array)) (i := 0) as [bx Ebx].
  { rewrite Hnames. exact Hidx. }
  { rewrite repeat_length. lia. }
  rewrite Ebx. cbn [res_bind].
  apply load_batch_length in Ebx. rewrite repeat_length in Ebx.
  rewrite Hsave. cbn [res_bind].
  change (String.eqb "categorical" "sparse") with false.
  change (String.eqb "categorical" "binary") with false.
  change (String.eqb "categorical" "categorical") with true.
  cbn iota.
  destruct (np_take_total (classes self) index_array) as [labels Elab].
  { rewrite Hclasses. exact Hidx. }
  rewrite Elab. cbn [res_bind].
  destruct (mapM_spec _ _ _ Elab) as [Hlen Hlabels].
  destruct (fill_one_hot_total K (num_class self) labels
              (repeat (repeat (to_floatx (K_floatx K) 0) (num_class self))
                 (length bx)) 0) as [y ->].
  - apply Forall_forall. intros row Hrow.
    apply list_elem_of_In, repeat_spec in Hrow. subst row.
    apply repeat_length.
  - rewrite repeat_length. lia.
  - intros label Hlabel.
    apply list_elem_of_In, list_elem_of_lookup in Hlabel as [k Hk].
    destruct (lookup_lt_is_Some_2 index_array k) as [j Hj];
      [apply lookup_lt_Some in Hk; lia|].
    destruct (Hlabels k j Hj) as (label' & Hk' & Hidx').
    rewrite Hk in Hk'. injection Hk' as <-.
    apply Hrange. eapply py_index_in, Hidx'.
  - cbn [res_bind]. eexists. eexists. reflexivity.
Qed.

End BatchesProduced.

(** ** The worked iterator *)

Lemma zoo_keys_distinct : List.NoDup (dict_keys zoo_lists).
Proof.
  cbn [dict_keys zoo_lists map fst].
  repeat (constructor; [cbn [In]; intuition discriminate|]). constructor.
Qed.

Example zoo_iterator_built : zoo_iterator = Ok zoo_self.
Proof. vm_compute. reflexivity. Qed.

Example zoo_batch :
  ImageListIterator_next string "" name_as_image no_save tf_backend zoo_self
    [2; 0; -2]%Z 0 3
  = Ok (zoo_batch_x, Some (CategoricalLabels zoo_batch_y)).
Proof. vm_compute. reflexivity. Qed.

Lemma iterator_index_matches_image_lists_witness :
  List.NoDup (dict_keys zoo_lists) /\
  zoo_iterator = Ok zoo_self /\
  combine (filenames zoo_self) (classes zoo_self)
  = map (fun '(path, label) => (path, class_index zoo_self label))
      (flat_samples "data" "training" zoo_lists).
Proof.
  split; [exact zoo_keys_distinct|]. split; [exact zoo_iterator_built|].
  apply (iterator_index_matches_image_lists tf_backend zoo_lists "training"
           "data" [224; 224]%Z "rgb" (Some "categorical") 32 true None None
           None "" "jpeg" zoo_self zoo_keys_distinct zoo_iterator_built).
Defined.

Lemma categorical_rows_are_one_hot_witness :
  List.NoDup (dict_keys zoo_lists) /\
  zoo_iterator = Ok zoo_self /\
  class_mode zoo_self = Some "categorical" /\
  length [2; 0; -2]%Z = 3 /\
  ImageListIterator_next string "" name_as_image no_save tf_backend zoo_self
    [2; 0; -2]%Z 0 3
  = Ok (zoo_batch_x, Some (CategoricalLabels zoo_batch_y)) /\
  exists y,
    Some (CategoricalLabels zoo_batch_y) = Some (CategoricalLabels y) /\
    length y = 3.
Proof.
  split; [exact zoo_keys_distinct|]. split; [exact zoo_iterator_built|].
  split; [reflexivity|]. split; [reflexivity|]. split; [exact zoo_batch|].
  destruct (categorical_rows_are_one_hot string "" name_as_image no_save
              tf_backend zoo_lists "training" "data" [224; 224]%Z "rgb"
              (Some "categorical") 32 true None None None "" "jpeg" zoo_self
              [2; 0; -2]%Z 0 3 zoo_batch_x
              (Some (CategoricalLabels zoo_batch_y))
              zoo_keys_distinct zoo_iterator_built eq_refl eq_refl zoo_batch)
    as (y & Hy & Hlen & _).
  exists y. split; [exact Hy|exact Hlen].
Defined.

(** * Further properties *)

(** ** Order of strings and [sorted] *)

Lemma ascii_compare_trans_le (a b c : ascii) :
  Ascii.compare a b <> Gt -> Ascii.compare b c <> Gt ->
  Ascii.compare a c <> Gt.
Proof.
  unfold Ascii.compare. rewrite !N.compare_gt_iff. lia.
Qed.

Lemma string_compare_le_trans (s1 : string) :
  forall s2 s3,
    String.compare s1 s2 <> Gt -> String.compare s2 s3 <> Gt ->
    String.compare s1 s3 <> Gt.
Proof.
  induction s1 as [|a s1 IH]; intros [|b s2] [|c s3]; cbn [String.compare];
    try congruence.
  destruct (Ascii.compare a b) eqn:Eab; [| |congruence];
    destruct (Ascii.compare b c) eqn:Ebc; try congruence.
  - apply Ascii.compare_eq_iff in Eab, Ebc. subst.
    replace (Ascii.compare c c) with Eq
      by (symmetry; unfold Ascii.compare; apply N.compare_refl).
    apply IH.
  - apply Ascii.compare_eq_iff in Eab. subst. rewrite Ebc. congruence.
  - apply Ascii.compare_eq_iff in Ebc. subst. rewrite Eab. congruence.
  - intros _ _.
    assert (H : Ascii.compare a c = Lt).
    { unfold Ascii.compare in *. rewrite N.compare_lt_iff in *. lia. }
    rewrite H. congruence.
Qed.

Lemma leb_trans (s1 s2 s3 : string) :
  String.leb s1 s2 = true -> String.leb s2 s3 = true ->
  String.leb s1 s3 = true.
Proof.
  unfold String.leb. intros H1 H2.
  pose proof (string_compare_le_trans s1 s2 s3) as H.
  destruct (String.compare s1 s2), (String.compare s2 s3),
    (String.compare s1 s3); try reflexivity; try discriminate;
    exfalso; apply H; congruence.
Qed.

Lemma insert_by_permutation {A} (key : A -> string) (x : A) (l : list A) :
  Permutation (insert_by key x l) (x :: l).
Proof.
  induction l as [|y l IH]; cbn [insert_by]; [reflexivity|].
  destruct (String.leb (key x) (key y)); [reflexivity|].
  rewrite IH. apply perm_swap.
Qed.

Lemma sorted_by_permutation {A} (key : A -> string) (l : list A) :
  Permutation (sorted_by key l) l.
Proof.
  induction l as [|x l IH]; [reflexivity|].
  cbn [sorted_by fold_right]. fold (sorted_by key l).
  rewrite insert_by_permutation, IH. reflexivity.
Qed.

Lemma insert_by_ascending {A} (key : A -> string) (x : A) (l : list A) :
  ascending key l -> ascending key (insert_by key x l).
Proof.
  unfold ascending. induction 1 as [|y l Hl IH Hy]; cbn [insert_by].
  - constructor; constructor.
  - destruct (String.leb (key x) (key y)) eqn:E.
    + constructor; [constructor; assumption|].
      constructor; [exact E|].
      rewrite List.Forall_forall in *. intros z Hz.
      eapply leb_trans; [exact E|apply Hy, Hz].
    + constructor; [exact IH|].
      rewrite List.Forall_forall in *. intros z Hz.
      apply (Permutation_in _ (insert_by_permutation key x l)) in Hz.
      destruct Hz as [<-|Hz]; [|apply Hy, Hz].
      destruct (String.leb_total (key x) (key y)); congruence.
Qed.

Lemma sorted_by_ascending {A} (key : A -> string) (l : list A) :
  ascending key (sorted_by key l).
Proof.
  induction l as [|x l IH]; [constructor|].
  cbn [sorted_by fold_right]. apply insert_by_ascending, IH.
Qed.

Lemma same_key_same_item {A} (key : A -> string) (l : list A) (x y : A) :
  List.NoDup (map key l) -> In x l -> In y l -> key x = key y -> x = y.
Proof.
  induction l as [|z l IH]; cbn [map In]; intros Hnd Hx Hy E; [destruct Hx|].
  apply List.NoDup_cons_iff in Hnd as [Hz Hnd].
  destruct Hx as [->|Hx], Hy as [->|Hy].
  - reflexivity.
  - destruct Hz. rewrite E. apply in_map, Hy.
  - destruct Hz. rewrite <- E. apply in_map, Hx.
  - apply IH; assumption.
Qed.

(** Two ascending arrangements of the same items, no two of which share a
    key, are the same list. *)
Lemma ascending_unique {A} (key : A -> string) (l1 : list A) :
  forall l2,
    ascending key l1 -> ascending key l2 -> Permutation l1 l2 ->
    List.NoDup (map key l1) -> l1 = l2.
Proof.
  unfold ascending.
  induction l1 as [|x l1 IH]; intros l2 H1 H2 Hp Hnd.
  - apply Permutation_nil in Hp. subst. reflexivity.
  - destruct l2 as [|y l2];
      [apply Permutation_sym, Permutation_nil in Hp; discriminate|].
    apply StronglySorted_inv in H1 as [H1 Hx].
    apply StronglySorted_inv in H2 as [H2 Hy].
    rewrite List.Forall_forall in Hx, Hy.
    assert (Exy : x = y).
    { assert (Hyin : In y (x :: l1))
        by (apply (Permutation_in _ (Permutation_sym Hp)); left; reflexivity).
      assert (Hxin : In x (y :: l2))
        by (apply (Permutation_in _ Hp); left; reflexivity).
      apply (same_key_same_item key (x :: l1));
        [exact Hnd|left; reflexivity|exact Hyin|].
      destruct Hyin as [E|Hyin]; [rewrite E; reflexivity|].
      destruct Hxin as [E|Hxin]; [rewrite E; reflexivity|].
      apply String.leb_antisym; [apply Hx, Hyin|apply Hy, Hxin]. }
    subst y. f_equal. apply IH; try assumption.
    + eapply Permutation_cons_inv, Hp.
    + cbn [map] in Hnd. apply List.NoDup_cons_iff in Hnd. tauto.
Qed.

Lemma sorted_by_permuted {A} (key : A -> string) (l1 l2 : list A) :
  Permutation l1 l2 -> List.NoDup (map key l1) ->
  sorted_by key l1 = sorted_by key l2.
Proof.
  intros Hp Hnd. apply (ascending_unique key).
  - apply sorted_by_ascending.
  - apply sorted_by_ascending.
  - rewrite !sorted_by_permutation. exact Hp.
  - eapply Permutation_NoDup; [|exact Hnd].
    apply Permutation_map, Permutation_sym, sorted_by_permutation.
Qed.

(** ** Config: keyword order, scope and fields *)







Section ConfigOrder.

Variable float_repr : float -> string.
Variable object_str : value -> string.
Variable int_max_str_digits : option nat.
Variable repr_room : nat.



End ConfigOrder.




Section ConfigFields.

Variable float_repr : float -> string.
Variable object_str : value -> string.
Variable int_max_str_digits : option nat.
Variable repr_room : nat.





End ConfigFields.



(** ** linear_decay and lr_scheduler: the ends of the range *)

(** With no iterations to spread the change over, the decay divides by
    zero: [linear_decay] raises [ZeroDivisionError] for [n_iter = 0], and so
    does [lr_scheduler] at every epoch when [epochs] is 0. *)
Theorem zero_iterations_is_zero_division (start end_ : float)
  (current_iter : Z) (config : scheduler_config) :
  raised (linear_decay start end_ 0 current_iter) ZeroDivisionError /\
  (epochs (train config) = 0%Z ->
   raised (lr_scheduler current_iter config) ZeroDivisionError).
Proof.
  assert (H : forall s e c, raised (linear_decay s e 0 c) ZeroDivisionError).
  { intros s e c. exists []. reflexivity. }
  split; [apply H|].
  intros E. unfold lr_scheduler. rewrite Z.ltb_irrefl, E. apply H.
Qed.

Lemma zero_iterations_is_zero_division_witness :
  epochs (train {| train := {| lr_min := f0_01; lr_max := f100; epochs := 0 |} |})
  = 0%Z /\
  raised (lr_scheduler 5
            {| train := {| lr_min := f0_01; lr_max := f100; epochs := 0 |} |})
    ZeroDivisionError.
Proof.
  split; [reflexivity|].
  apply (zero_iterations_is_zero_division f100 f0_01 5
           {| train := {| lr_min := f0_01; lr_max := f100; epochs := 0 |} |}).
  reflexivity.
Defined.

Lemma decay_at_zero (start end_ : float) (n_iter : Z) :
  (0 < n_iter < 2 ^ 53)%Z ->
  is_finite (fdiv (fsub end_ start) (int_to_double n_iter)) = true ->
  is_nonzero_finite start = true ->
  linear_decay start end_ n_iter 0 = Ok start.
Proof.
  intros Hn Hslope Hstart. unfold linear_decay, float_div_int.
  rewrite float_of_int_small by lia. cbn [res_bind].
  unfold float_truediv.
  destruct n_iter as [|m|m]; try lia.
  destruct (int_to_double_finite m) as (m' & e' & Hd); [lia|].
  rewrite Hd in *. cbn [is_zero res_bind].
  change (float_mul_int ?x 0) with (Ok (fmul x (S754_zero false))).
  cbn [res_bind]. f_equal.
  destruct (fdiv (fsub end_ start) (S754_finite false m' e'))
    as [s| | |s m0 e0]; try discriminate Hslope;
    destruct start; try discriminate Hstart; reflexivity.
Qed.

(** At iteration 0 the decay is exactly [start]: for a positive number of
    iterations, a finite non-zero [start] and a slope that does not overflow,
    [linear_decay(start, end, n_iter, 0)] returns [start], and
    [lr_scheduler(0, config)] returns [lr_max]. *)
Theorem decay_begins_at_start (start end_ : float) (n_iter : Z)
  (config : scheduler_config) :
  (0 < n_iter < 2 ^ 53)%Z ->
  is_finite (fdiv (fsub end_ start) (int_to_double n_iter)) = true ->
  is_nonzero_finite start = true ->
  linear_decay start end_ n_iter 0 = Ok start /\
  (lr_max (train config) = start -> lr_min (train config) = end_ ->
   epochs (train config) = n_iter ->
   lr_scheduler 0 config = Ok start).
Proof.
  intros Hn Hslope Hstart. split; [apply decay_at_zero; assumption|].
  intros E1 E2 E3. unfold lr_scheduler. rewrite E1, E2, E3. cbn [Z.ltb Z.compare].
  apply decay_at_zero; assumption.
Qed.

Lemma decay_begins_at_start_witness :
  (0 < 30 < 2 ^ 53)%Z /\
  lr_scheduler 0 thirty_epochs = Ok (lr_max (train thirty_epochs)).
Proof.
  split; [lia|].
  apply (decay_begins_at_start (lr_max (train thirty_epochs))
           (lr_min (train thirty_epochs)) 30 thirty_epochs);
    try reflexivity; lia.
Defined.

(** ** create_image_lists: labels *)

Lemma sub_non_alnum_normal (s : string) (in_run : bool) :
  normal_label in_run (sub_non_alnum in_run s) = true.
Proof.
  revert in_run. induction s as [|c s IH]; intros in_run; [reflexivity|].
  cbn [sub_non_alnum]. destruct (is_lower_alnum c) eqn:E.
  - cbn [normal_label]. rewrite E. apply IH.
  - destruct in_run; [apply IH|].
    cbn [normal_label]. rewrite (IH true). reflexivity.
Qed.

(** The keys of the returned dictionary are made of lowercase letters,
    digits and single spaces only, whatever the directories are called and
    whatever [str.lower] does to their names. *)
Theorem labels_are_normalised (rt : runtime) (image_dir : string)
  (validation_pct : number) (image_lists : dict (dict entry))
  (warned : list string) (label : string) :
  create_image_lists rt image_dir validation_pct = Ok (image_lists, warned) ->
  In label (dict_keys image_lists) ->
  normal_label false label = true.
Proof.
  intros Hrun Hin.
  destruct (create_image_lists_returned _ _ _ _ _ Hrun) as [_ Hall].
  unfold dict_keys in Hin. apply in_map_iff in Hin as ([l rec] & <- & Hin).
  destruct (Hall _ _ Hin) as (sub_dir & _ & -> & _).
  apply sub_non_alnum_normal.
Qed.

Lemma pets_run : create_image_lists pets "data" (Int 60)
                 = Ok (pets_lists, pets_warnings).
Proof. vm_compute. reflexivity. Qed.

Lemma labels_are_normalised_witness :
  create_image_lists pets "data" (Int 60) = Ok (pets_lists, pets_warnings)
  /\ normal_label false "dogs 2" = true.
Proof.
  split; [exact pets_run|].
  apply (labels_are_normalised pets "data" (Int 60) pets_lists pets_warnings
           "dogs 2" pets_run).
  cbn. right. left. reflexivity.
Defined.

(** ** create_image_lists: which directory a class comes from *)

(** A walked sub-directory that is not passed over (its base name is not
    [image_dir], and the globs of line 174, which look for the directory of
    that base name directly under [image_dir], find files) gets its label
    into the dictionary, with the split of the files found; when several
    such directories share a label, the class of the one walked last is the
    one kept. *)
Theorem last_directory_of_a_label_is_kept (rt : runtime)
  (image_dir : string) (validation_pct : number)
  (image_lists : dict (dict entry)) (warned : list string)
  (before after : list string) (sub_dir : string) :
  create_image_lists rt image_dir validation_pct = Ok (image_lists, warned) ->
  skipn 1 (os_walk_dirs rt image_dir) = (before ++ sub_dir :: after)%list ->
  basename sub_dir <> image_dir ->
  collect_files rt image_dir (basename sub_dir) <> [] ->
  (forall d, In d after -> label_of rt d = label_of rt sub_dir ->
             passed_over rt image_dir d) ->
  dict_get image_lists (label_of rt sub_dir)
  = Some (split_record rt image_dir validation_pct (basename sub_dir)).
Proof.
  intros Hrun Hwalk Hname Hfiles Hafter.
  apply (create_image_lists_keeps_last _ _ _ _ _ _ _ _ Hrun Hwalk);
    [|exact Hafter].
  intros [H|H]; [exact (Hname H)|exact (Hfiles H)].
Qed.

(** A directory two levels down is walked, but the globs look for its base
    name directly under the root: its files are not found and it gets no
    class, no more than the directory above it. *)
Example nested_directory_is_passed_over :
  In "data/nested/inner" (skipn 1 (os_walk_dirs nested "data")) /\
  glob_glob nested "data/nested/inner/*.jpg" = ["data/nested/inner/y.jpg"] /\
  collect_files nested "data" (basename "data/nested/inner") = [] /\
  create_image_lists nested "data" (Int 10)
  = Ok ([], ["No files found"; "No files found"]).
Proof.
  split; [vm_compute; tauto|]. repeat split; vm_compute; reflexivity.
Qed.

Lemma last_directory_of_a_label_is_kept_witness :
  create_image_lists pets "data" (Int 60) = Ok (pets_lists, pets_warnings)
  /\ basename "data/Cats" <> "data"
  /\ collect_files pets "data" (basename "data/Cats") <> []
  /\ dict_get pets_lists (label_of pets "data/Cats")
     = Some (split_record pets "data" (Int 60) (basename "data/Cats")).
Proof.
  assert (Hname : basename "data/Cats" <> "data")
    by (intros H; vm_compute in H; discriminate H).
  assert (Hfiles : collect_files pets "data" (basename "data/Cats") <> [])
    by (intros H; vm_compute in H; discriminate H).
  split; [exact pets_run|]. split; [exact Hname|]. split; [exact Hfiles|].
  apply (last_directory_of_a_label_is_kept pets "data" (Int 60) pets_lists
           pets_warnings [] ["data/dogs-2"; "data/empty"] "data/Cats"
           pets_run eq_refl Hname Hfiles).
  intros d Hd H. destruct Hd as [<-|[<-|[]]]; vm_compute in H; discriminate H.
Defined.

(** ** create_image_lists: how many files a class holds *)

Lemma filter_split_permutation {A} (f : A -> bool) (l : list A) :
  Permutation (List.filter (fun x => negb (f x)) l ++ List.filter f l) l.
Proof.
  induction l as [|x l IH]; [constructor|].
  cbn [List.filter]. destruct (f x); cbn [negb].
  - apply Permutation_sym. apply Permutation_cons_app, Permutation_sym, IH.
  - cbn [app]. constructor. exact IH.
Qed.

(** The two lists of a class hold the base names of the files collected for
    its directory, each as often as it was collected, and at least one: no
    file is dropped or repeated by the split, and no class is empty. *)
Theorem class_lists_hold_the_files (rt : runtime) (image_dir : string)
  (validation_pct : number) (image_lists : dict (dict entry))
  (warned : list string) (label : string) (rec : dict entry) :
  create_image_lists rt image_dir validation_pct = Ok (image_lists, warned) ->
  dict_get image_lists label = Some rec ->
  exists dir_name training_images validation_images,
    rec = class_record dir_name training_images validation_images /\
    Permutation (training_images ++ validation_images)
      (map basename (collect_files rt image_dir dir_name)) /\
    0 < length training_images + length validation_images.
Proof.
  intros Hrun Hget.
  destruct (create_image_lists_returned _ _ _ _ _ Hrun) as [_ Hall].
  destruct (Hall _ _ (dict_get_In _ _ _ Hget))
    as (sub_dir & _ & _ & -> & Hfiles).
  do 3 eexists. split; [reflexivity|].
  pose proof (filter_split_permutation (spec_validation validation_pct)
                (map basename (collect_files rt image_dir (basename sub_dir))))
    as Hp.
  split; [exact Hp|].
  apply Permutation_length in Hp.
  rewrite length_app, length_map in Hp. rewrite Hp.
  destruct (collect_files rt image_dir (basename sub_dir)) eqn:E;
    [destruct Hfiles; right; exact E|cbn [length]; lia].
Qed.

Lemma class_lists_hold_the_files_witness :
  create_image_lists pets "data" (Int 60) = Ok (pets_lists, pets_warnings)
  /\ dict_get pets_lists "cats"
     = Some (class_record "Cats" ["a.jpg"] ["b.jpg"; "c.JPEG"])
  /\ exists dir_name training_images validation_images,
       class_record "Cats" ["a.jpg"] ["b.jpg"; "c.JPEG"]
       = class_record dir_name training_images validation_images /\
       Permutation (training_images ++ validation_images)
         (map basename (collect_files pets "data" dir_name)) /\
       0 < length training_images + length validation_images.
Proof.
  split; [exact pets_run|]. split; [reflexivity|].
  apply (class_lists_hold_the_files pets "data" (Int 60) pets_lists
           pets_warnings "cats" _ pets_run eq_refl).
Defined.

(** ** create_image_lists: the percentage asked for *)

Lemma iter_pos_shr_1_nonneg (p : positive) (mrs : shr_record) :
  (0 <= shr_m mrs)%Z -> (0 <= shr_m (SpecFloat.iter_pos shr_1 p mrs))%Z.
Proof.
  revert mrs. induction p as [p IH|p IH|]; intros mrs H; cbn [SpecFloat.iter_pos].
  - assert (H1 : (0 <= shr_m (shr_1 mrs))%Z)
      by (destruct mrs as [[|[q|q|]|q] r s]; cbn in *; lia).
    apply IH, IH, H1.
  - apply IH, IH, H.
  - destruct mrs as [[|[q|q|]|q] r s]; cbn in *; lia.
Qed.

Lemma shr_fexp_nonneg (prec emax m e : Z) (l : location) :
  (0 <= m)%Z -> (0 <= shr_m (fst (shr_fexp prec emax m e l)))%Z.
Proof.
  intros H. unfold shr_fexp, shr.
  assert (H0 : (0 <= shr_m (shr_record_of_loc m l))%Z)
    by (destruct l as [|[]]; exact H).
  destruct (fexp prec emax (Zdigits2 m + e) - e)%Z; cbn [fst];
    [exact H0|apply iter_pos_shr_1_nonneg, H0|exact H0].
Qed.

Lemma round_nearest_even_nonneg (m : Z) (l : location) :
  (0 <= m)%Z -> (0 <= round_nearest_even m l)%Z.
Proof.
  intros H. unfold round_nearest_even.
  destruct l as [|[]]; [lia| |lia|lia].
  destruct (IntDef.Z.even m); lia.
Qed.

(** Rounding a magnitude with a clear sign bit gives no negative number. *)
Lemma binary_round_aux_not_negative (prec emax mx ex : Z) (lx : location) :
  (0 <= mx)%Z ->
  not_negative (binary_round_aux prec emax false mx ex lx) = true.
Proof.
  intros H. unfold binary_round_aux.
  pose proof (shr_fexp_nonneg prec emax mx ex lx H) as H1.
  destruct (shr_fexp prec emax mx ex lx) as [mrs' e']. cbn [fst] in H1.
  pose proof (shr_fexp_nonneg prec emax _ e' loc_Exact
                (round_nearest_even_nonneg _ (loc_of_shr_record mrs') H1))
    as H2.
  destruct (shr_fexp prec emax _ e' loc_Exact) as [mrs'' e''].
  cbn [fst] in H2.
  destruct (shr_m mrs'') as [|m|m]; [reflexivity| |lia].
  destruct (e'' <=? emax - prec)%Z; reflexivity.
Qed.

(** No hash percentage is negative. *)
Lemma spec_percentage_not_negative (base_name : string) :
  not_negative (spec_percentage base_name) = true.
Proof.
  unfold spec_percentage.
  set (n := (digest_number base_name mod (2 ^ 27 - 1 + 1))%Z).
  assert (Hn : (0 <= n < 2 ^ 53)%Z).
  { pose proof (Z.mod_pos_bound (digest_number base_name) (2 ^ 27 - 1 + 1))
      as B. unfold n. lia. }
  assert (Hc : exists mc ec,
             fdiv f100 (int_to_double (2 ^ 27 - 1)) = S754_finite false mc ec)
    by (vm_compute; do 2 eexists; reflexivity).
  destruct Hc as (mc & ec & ->).
  destruct n as [|m|m]; [reflexivity| |lia].
  destruct (int_to_double_finite m (proj2 Hn)) as (m' & e & ->).
  unfold fmul, SFmul. cbn [xorb].
  apply binary_round_aux_not_negative. lia.
Qed.

Lemma float_lt_not_positive (f : float) (p : number) :
  not_negative f = true -> not_positive p = true -> float_lt f p = false.
Proof.
  intros Hf Hp. destruct p as [z|g]; cbn [float_lt not_positive] in *.
  - apply Z.leb_le in Hp.
    destruct f as [s|s| |s m e]; cbn [float_lt_int not_negative] in *;
      try discriminate Hf.
    + apply Z.ltb_ge. lia.
    + destruct s; [discriminate Hf|reflexivity].
    + destruct s; [discriminate Hf|].
      destruct (0 <=? e)%Z eqn:E; apply Z.ltb_ge.
      * apply Z.leb_le in E.
        pose proof (Z.pow_pos_nonneg 2 e ltac:(lia) E). nia.
      * apply Z.leb_gt in E.
        pose proof (Z.pow_pos_nonneg 2 (- e) ltac:(lia) ltac:(lia)). nia.
  - destruct f as [s|s| |s m e], g as [t|t| |t m' e'];
      cbn [not_negative] in *; try discriminate Hf; try discriminate Hp;
      try reflexivity;
      try (destruct s; [discriminate Hf|]);
      try (destruct t; [|discriminate Hp]); reflexivity.
Qed.

(** With a percentage of zero or less (or a float that is not a number)
    nothing is kept for validation: every class has all the base names of
    its files, in the order collected, as training images. *)
Theorem no_validation_at_zero_percent (rt : runtime) (image_dir : string)
  (validation_pct : number) (image_lists : dict (dict entry))
  (warned : list string) (label : string) (rec : dict entry) :
  not_positive validation_pct = true ->
  create_image_lists rt image_dir validation_pct = Ok (image_lists, warned) ->
  dict_get image_lists label = Some rec ->
  exists dir_name,
    rec = class_record dir_name
            (map basename (collect_files rt image_dir dir_name)) [].
Proof.
  intros Hp Hrun Hget.
  destruct (create_image_lists_returned _ _ _ _ _ Hrun) as [_ Hall].
  destruct (Hall _ _ (dict_get_In _ _ _ Hget)) as (sub_dir & _ & _ & -> & _).
  exists (basename sub_dir). unfold split_record.
  assert (Hv : forall b, spec_validation validation_pct b = false).
  { intros b. apply float_lt_not_positive;
      [apply spec_percentage_not_negative|exact Hp]. }
  f_equal.
  - induction (map basename (collect_files rt image_dir (basename sub_dir)))
      as [|b l IH]; [reflexivity|].
    cbn [List.filter]. rewrite Hv. cbn [negb]. f_equal. exact IH.
  - induction (map basename (collect_files rt image_dir (basename sub_dir)))
      as [|b l IH]; [reflexivity|].
    cbn [List.filter]. rewrite Hv. exact IH.
Qed.

Lemma no_validation_at_zero_percent_witness :
  not_positive (Int 0) = true
  /\ create_image_lists pets "data" (Int 0)
     = Ok ([("cats", class_record "Cats" ["a.jpg"; "b.jpg"; "c.JPEG"] []);
            ("dogs 2", class_record "dogs-2" ["a.jpg.jpeg"] [])],
           pets_warnings)
  /\ exists dir_name,
       class_record "Cats" ["a.jpg"; "b.jpg"; "c.JPEG"] []
       = class_record dir_name
           (map basename (collect_files pets "data" dir_name)) [].
Proof.
  assert (Hrun : create_image_lists pets "data" (Int 0)
                 = Ok ([("cats",
                         class_record "Cats" ["a.jpg"; "b.jpg"; "c.JPEG"] []);
                        ("dogs 2", class_record "dogs-2" ["a.jpg.jpeg"] [])],
                       pets_warnings))
    by (vm_compute; reflexivity).
  split; [reflexivity|]. split; [exact Hrun|].
  apply (no_validation_at_zero_percent pets "data" (Int 0) _ _ "cats" _
           eq_refl Hrun eq_refl).
Defined.

Lemma dict_set_same_classes (rt : runtime) (image_dir : string)
  (p q : number) (a b : dict (dict entry)) (label dir_name : string) :
  same_classes rt image_dir p q a b ->
  same_classes rt image_dir p q
    (dict_set a label (split_record rt image_dir p dir_name))
    (dict_set b label (split_record rt image_dir q dir_name)).
Proof.
  unfold same_classes. induction 1 as [|[k1 r1] [k2 r2] a b [Hk Hr] Hab IH];
    cbn [dict_set].
  - constructor; [|constructor]. split; [reflexivity|].
    exists dir_name. split; reflexivity.
  - cbn [fst snd] in Hk, Hr. subst k2.
    destruct (String.eqb k1 label).
    + constructor; [|exact Hab]. split; [reflexivity|].
      exists dir_name. split; reflexivity.
    + constructor; [|exact IH]. split; [reflexivity|exact Hr].
Qed.

Lemma index_sub_dirs_parallel (rt : runtime) (image_dir : string)
  (p q : number) (sub_dirs : list string) :
  forall sp sq sp' sq',
    same_classes rt image_dir p q (fst sp) (fst sq) ->
    index_sub_dirs rt image_dir p sp sub_dirs = Ok sp' ->
    index_sub_dirs rt image_dir q sq sub_dirs = Ok sq' ->
    same_classes rt image_dir p q (fst sp') (fst sq').
Proof.
  induction sub_dirs as [|d rest IH]; intros sp sq sp' sq' Hs Hp Hq.
  - injection Hp as <-. injection Hq as <-. exact Hs.
  - cbn [index_sub_dirs] in Hp, Hq.
    destruct (index_sub_dir rt image_dir p sp d) as [sp1|e] eqn:Ep;
      cbn [res_bind] in Hp; [|discriminate Hp].
    destruct (index_sub_dir rt image_dir q sq d) as [sq1|e] eqn:Eq;
      cbn [res_bind] in Hq; [|discriminate Hq].
    apply (IH sp1 sq1 sp' sq'); [|exact Hp|exact Hq].
    destruct (index_sub_dir_ok _ _ _ _ _ _ Ep) as [[Pp ->]|[Np ->]],
             (index_sub_dir_ok _ _ _ _ _ _ Eq) as [[Pq ->]|[Nq ->]];
      [exact Hs|destruct (Nq Pp)|destruct (Np Pq)|].
    apply dict_set_same_classes, Hs.
Qed.

Lemma same_classes_get (rt : runtime) (image_dir : string) (p q : number)
  (a b : dict (dict entry)) (label : string) (rec : dict entry) :
  same_classes rt image_dir p q a b ->
  dict_get a label = Some rec ->
  exists dir_name,
    rec = split_record rt image_dir p dir_name /\
    dict_get b label = Some (split_record rt image_dir q dir_name).
Proof.
  unfold same_classes. induction 1 as [|[k1 r1] [k2 r2] a b [Hk Hr] Hab IH];
    cbn [dict_get]; [discriminate|].
  cbn [fst snd] in Hk, Hr. subst k2.
  destruct (String.eqb k1 label); [|exact IH].
  intros H. injection H as <-. destruct Hr as (dir_name & -> & ->).
  exists dir_name. split; reflexivity.
Qed.

Lemma same_classes_keys (rt : runtime) (image_dir : string) (p q : number)
  (a b : dict (dict entry)) :
  same_classes rt image_dir p q a b -> dict_keys a = dict_keys b.
Proof.
  unfold same_classes, dict_keys.
  induction 1 as [|x y a b [Hk _] _ IH]; [reflexivity|].
  cbn [map]. rewrite Hk, IH. reflexivity.
Qed.

Lemma float_lt_int_mono (f : float) (p q : Z) :
  (p <= q)%Z -> float_lt_int f p = true -> float_lt_int f q = true.
Proof.
  intros Hpq. destruct f as [s|s| |s m e]; cbn [float_lt_int];
    [|trivial|trivial|].
  - rewrite !Z.ltb_lt. lia.
  - destruct (0 <=? e)%Z; rewrite !Z.ltb_lt; [lia|].
    intros H. pose proof (Z.pow_nonneg 2 (- e) ltac:(lia)). nia.
Qed.

(** Asking for a larger whole percentage changes neither the labels nor
    their order nor their directories; in every class the files kept for
    validation before are still kept, and no file comes back to training. *)
Theorem larger_percentage_only_adds_validation (rt : runtime)
  (image_dir : string) (p q : Z)
  (lists_p lists_q : dict (dict entry)) (warned_p warned_q : list string)
  (label dir_name : string) (training_p validation_p : list string) :
  (p <= q)%Z ->
  create_image_lists rt image_dir (Int p) = Ok (lists_p, warned_p) ->
  create_image_lists rt image_dir (Int q) = Ok (lists_q, warned_q) ->
  dict_get lists_p label
  = Some (class_record dir_name training_p validation_p) ->
  dict_keys lists_p = dict_keys lists_q /\
  exists training_q validation_q,
    dict_get lists_q label
    = Some (class_record dir_name training_q validation_q) /\
    (forall b, In b validation_p -> In b validation_q) /\
    (forall b, In b training_q -> In b training_p).
Proof.
  intros Hpq Hp Hq Hget.
  assert (Hs : same_classes rt image_dir (Int p) (Int q) lists_p lists_q).
  { pose proof (create_image_lists_isdir _ _ _ _ Hp) as Hdir.
    unfold create_image_lists in Hp, Hq. rewrite Hdir in Hp, Hq.
    cbn [negb] in Hp, Hq.
    apply (index_sub_dirs_parallel rt image_dir (Int p) (Int q) _
             ([], []) ([], []) _ _ (List.Forall2_nil _) Hp Hq). }
  split; [apply (same_classes_keys _ _ _ _ _ _ Hs)|].
  destruct (same_classes_get _ _ _ _ _ _ _ _ Hs Hget) as (d & Hrec & Hgq).
  unfold split_record, class_record in Hrec.
  injection Hrec as -> -> ->.
  do 2 eexists. split; [exact Hgq|].
  assert (Hmono : forall b, spec_validation (Int p) b = true ->
                            spec_validation (Int q) b = true)
    by (intros b; apply float_lt_int_mono, Hpq).
  split; intros b; rewrite !filter_In; intros [Hin Hb]; (split; [exact Hin|]).
  - apply Hmono, Hb.
  - change (negb (spec_validation (Int p) b) = true).
    destruct (spec_validation (Int p) b) eqn:E; [|reflexivity].
    rewrite (Hmono b E) in Hb. discriminate Hb.
Qed.

Lemma larger_percentage_only_adds_validation_witness :
  (0 <= 60)%Z
  /\ create_image_lists pets "data" (Int 0)
     = Ok ([("cats", class_record "Cats" ["a.jpg"; "b.jpg"; "c.JPEG"] []);
            ("dogs 2", class_record "dogs-2" ["a.jpg.jpeg"] [])],
           pets_warnings)
  /\ create_image_lists pets "data" (Int 60) = Ok (pets_lists, pets_warnings)
  /\ exists training_q validation_q,
       dict_get pets_lists "cats"
       = Some (class_record "Cats" training_q validation_q) /\
       (forall b, In b [] -> In b validation_q) /\
       (forall b, In b training_q -> In b ["a.jpg"; "b.jpg"; "c.JPEG"]).
Proof.
  assert (H0 : create_image_lists pets "data" (Int 0)
               = Ok ([("cats",
                       class_record "Cats" ["a.jpg"; "b.jpg"; "c.JPEG"] []);
                      ("dogs 2", class_record "dogs-2" ["a.jpg.jpeg"] [])],
                     pets_warnings))
    by (vm_compute; reflexivity).
  split; [lia|]. split; [exact H0|]. split; [exact pets_run|].
  apply (larger_percentage_only_adds_validation pets "data" 0 60 _ _ _ _
           "cats" "Cats" _ _ ltac:(lia) H0 pets_run eq_refl).
Defined.

(** ** get_image_path: any index, and the ways it fails *)

(** For a label that has the category with at least one entry and names its
    directory, every integer index is accepted, negative or however large:
    the path returned is the one of the entry at [index] modulo the number
    of entries, so indices that differ by a multiple of that number give the
    same path. *)
Theorem get_image_path_takes_any_index (il : dict (dict entry))
  (label category image_dir sub_dir : string) (lists : dict entry)
  (files : entry) (index k : Z) :
  dict_get il label = Some lists ->
  dict_get lists category = Some files ->
  entry_items files <> [] ->
  dict_get lists "dir" = Some (EStr sub_dir) ->
  let n := Z.of_nat (length (entry_items files)) in
  exists base_name,
    entry_items files !! Z.to_nat (index mod n) = Some base_name /\
    get_image_path il label index image_dir category
    = Ok (path_join image_dir [sub_dir; base_name]) /\
    get_image_path il label (index + k * n) image_dir category
    = Ok (path_join image_dir [sub_dir; base_name]).
Proof.
  intros Hl Hc Hne Hd n.
  assert (Hn : (0 < n)%Z).
  { unfold n. destruct (entry_items files); [destruct Hne; reflexivity|].
    cbn [length]. lia. }
  pose proof (Z.mod_pos_bound index n Hn) as Hm.
  destruct (lookup_lt_is_Some_2 (entry_items files) (Z.to_nat (index mod n)))
    as [base Hbase]; [unfold n in *; lia|].
  exists base. split; [exact Hbase|].
  assert (Hrun : forall i, (i mod n = index mod n)%Z ->
             get_image_path il label i image_dir category
             = Ok (path_join image_dir [sub_dir; base])).
  { intros i Hi. unfold get_image_path, dict_getitem.
    rewrite (dict_has_true _ _ _ Hl), Hl. cbn [negb res_bind].
    rewrite (dict_has_true _ _ _ Hc), Hc. cbn [negb res_bind].
    destruct (entry_items files) as [|b0 bs] eqn:Ei;
      [destruct Hne; reflexivity|].
    fold n. rewrite Hi.
    rewrite <- (Z2Nat.id (index mod n)) at 1 by lia.
    rewrite (py_index_nat _ _ _ Hbase). cbn [res_bind].
    rewrite Hd. reflexivity. }
  split; apply Hrun; [reflexivity|].
  apply Z.mod_add. lia.
Qed.

Lemma get_image_path_takes_any_index_witness :
  exists base_name,
    ["a.jpg"; "b.jpg"] !! Z.to_nat (-3 mod 2) = Some base_name /\
    get_image_path zoo_lists "cats" (-3) "data" "training"
    = Ok (path_join "data" ["Cats"; base_name]) /\
    get_image_path zoo_lists "cats" (-3 + 5 * 2) "data" "training"
    = Ok (path_join "data" ["Cats"; base_name]).
Proof.
  apply (get_image_path_takes_any_index zoo_lists "cats" "training" "data"
           "Cats" (class_record "Cats" ["a.jpg"; "b.jpg"] ["c.jpg"])
           (EList ["a.jpg"; "b.jpg"]) (-3) 5 eq_refl eq_refl).
  - discriminate.
  - reflexivity.
Defined.

(** A label that is not in the dictionary, a category the label does not
    have and a category without entries are each reported with a
    [ValueError]; a label whose entries are there but whose ['dir'] is
    missing fails with the [KeyError] of the lookup.  No index makes the
    function fail. *)
Theorem get_image_path_failures (il : dict (dict entry))
  (label category image_dir : string) (index : Z) :
  (dict_get il label = None ->
   raised (get_image_path il label index image_dir category) ValueError) /\
  (forall lists,
     dict_get il label = Some lists ->
     (dict_get lists category = None ->
      raised (get_image_path il label index image_dir category) ValueError) /\
     (forall files,
        dict_get lists category = Some files ->
        (entry_items files = [] ->
         raised (get_image_path il label index image_dir category)
           ValueError) /\
        (entry_items files <> [] ->
         dict_get lists "dir" = None ->
         raised (get_image_path il label index image_dir category)
           KeyError))).
Proof.
  split.
  { intros Hl. unfold get_image_path.
    rewrite (proj2 (dict_has_get il label) Hl). eexists. reflexivity. }
  intros lists Hl. split.
  { intros Hc. unfold get_image_path, dict_getitem.
    rewrite (dict_has_true _ _ _ Hl), Hl. cbn [negb res_bind].
    rewrite (proj2 (dict_has_get lists category) Hc).
    eexists. reflexivity. }
  intros files Hc. split.
  { intros He. unfold get_image_path, dict_getitem.
    rewrite (dict_has_true _ _ _ Hl), Hl. cbn [negb res_bind].
    rewrite (dict_has_true _ _ _ Hc), Hc. cbn [negb res_bind].
    rewrite He. eexists. reflexivity. }
  intros Hne Hd. unfold get_image_path, dict_getitem.
  rewrite (dict_has_true _ _ _ Hl), Hl. cbn [negb res_bind].
  rewrite (dict_has_true _ _ _ Hc), Hc. cbn [negb res_bind].
  destruct (entry_items files) as [|b0 bs] eqn:Ei;
    [destruct Hne; reflexivity|].
  set (n := Z.of_nat (length (b0 :: bs))).
  assert (Hn : (0 < n)%Z) by (unfold n; cbn [length]; lia).
  pose proof (Z.mod_pos_bound index n Hn) as Hm.
  destruct (lookup_lt_is_Some_2 (b0 :: bs) (Z.to_nat (index mod n)))
    as [base Hbase]; [unfold n in *; lia|].
  rewrite <- (Z2Nat.id (index mod n)) by lia.
  rewrite (py_index_nat _ _ _ Hbase). cbn [res_bind].
  rewrite Hd. eexists. reflexivity.
Qed.

Lemma get_image_path_failures_witness :
  raised (get_image_path zoo_lists "wolves" 0 "data" "training") ValueError
  /\ raised (get_image_path zoo_lists "dogs" 7 "data" "training") ValueError.
Proof.
  split.
  - apply (proj1 (get_image_path_failures zoo_lists "wolves" "training"
                    "data" 0)).
    reflexivity.
  - apply (proj1 (proj2 (proj2 (get_image_path_failures zoo_lists "dogs"
                                  "training" "data" 7)
                           (class_record "Dogs" [] ["d.jpg"]) eq_refl)
                    (EList []) eq_refl)).
    reflexivity.
Defined.

(** ** Paths: the base name of a joined path *)

Lemma basename_no_sep (s : string) : has_sep s = false -> basename s = s.
Proof.
  destruct s as [|c rest]; [reflexivity|].
  cbn [has_sep basename]. intros H. apply orb_false_iff in H as [Hc Hr].
  rewrite Hr, Hc. reflexivity.
Qed.

Lemma has_sep_basename (p : string) : has_sep (basename p) = false.
Proof.
  induction p as [|c rest IH]; [reflexivity|].
  cbn [basename]. destruct (has_sep rest) eqn:Hr; [exact IH|].
  destruct (Ascii.eqb c "/") eqn:Hc; [exact Hr|].
  cbn [has_sep]. rewrite Hc, Hr. reflexivity.
Qed.

Lemma has_sep_app_slash (a b : string) :
  endswith a "/" = true -> has_sep (a ++ b) = true.
Proof.
  induction a as [|c a IH]; intros H.
  - vm_compute in H. discriminate H.
  - apply endswith_cases in H as [H|(c' & rest & E & H)].
    + injection H as -> ->. reflexivity.
    + injection E as -> ->. cbn [append has_sep]. rewrite (IH H).
      apply orb_true_r.
Qed.

Lemma basename_app_slash (a b : string) :
  has_sep b = false -> endswith a "/" = true -> basename (a ++ b) = b.
Proof.
  intros Hb. induction a as [|c a IH]; intros H.
  - vm_compute in H. discriminate H.
  - apply endswith_cases in H as [H|(c' & rest & E & H)].
    + injection H as -> ->. cbn [append basename]. rewrite Hb. reflexivity.
    + injection E as -> ->. cbn [append basename].
      rewrite (has_sep_app_slash _ b H). apply IH, H.
Qed.

Lemma startswith_no_sep (b : string) :
  has_sep b = false -> startswith b "/" = false.
Proof.
  destruct b as [|c rest]; [reflexivity|].
  cbn [has_sep]. intros H. apply orb_false_iff in H as [Hc _].
  unfold startswith. cbn [String.prefix].
  destruct (ascii_dec "/" c) as [<-|_]; [discriminate Hc|reflexivity].
Qed.

(** [os.path.basename(os.path.join(path, name))] is [name] when the name
    holds no slash. *)
Lemma basename_join2 (path b : string) :
  has_sep b = false -> basename (join2 path b) = b.
Proof.
  intros Hb. unfold join2. rewrite (startswith_no_sep b Hb).
  destruct (String.eqb path "") eqn:Ep; cbn [orb].
  - apply String.eqb_eq in Ep. subst path. apply basename_no_sep, Hb.
  - destruct (endswith path "/") eqn:Ee.
    + apply basename_app_slash; assumption.
    + rewrite <- append_assoc. apply basename_app_slash; [exact Hb|].
      apply endswith_app.
Qed.

(** ** From create_image_lists to the iterators *)

(** The path asked for the [j]-th entry of a class of a dictionary that
    [create_image_lists] returned is found, lies in the class directory
    under the root given, and has the stored name as its base name. *)
Theorem created_lists_give_paths (rt : runtime) (image_dir : string)
  (validation_pct : number) (image_lists : dict (dict entry))
  (warned : list string) (label category root base_name : string)
  (rec : dict entry) (j : nat) :
  create_image_lists rt image_dir validation_pct = Ok (image_lists, warned) ->
  dict_get image_lists label = Some rec ->
  category = "training" \/ category = "validation" ->
  category_items category rec !! j = Some base_name ->
  exists p,
    get_image_path image_lists label (Z.of_nat j) root category = Ok p /\
    p = path_join root [class_dir rec; base_name] /\
    basename p = base_name.
Proof.
  intros Hrun Hget Hcat Hj.
  destruct (create_image_lists_returned _ _ _ _ _ Hrun) as [_ Hall].
  destruct (Hall _ _ (dict_get_In _ _ _ Hget)) as (sub_dir & _ & _ & -> & _).
  set (names := map basename
                  (collect_files rt image_dir (basename sub_dir))) in *.
  assert (Hfiles : exists l,
             dict_get (split_record rt image_dir validation_pct
                         (basename sub_dir)) category = Some (EList l)
             /\ (forall b, In b l -> In b names)).
  { destruct Hcat as [-> | ->]; eexists; (split; [reflexivity|]);
      intros b Hb; apply filter_In in Hb as [Hb _]; exact Hb. }
  destruct Hfiles as (l & Hl & Hsub).
  unfold category_items in Hj. rewrite Hl in Hj. cbn [entry_items] in Hj.
  assert (Hsep : has_sep base_name = false).
  { apply list_elem_of_lookup_2, list_elem_of_In, Hsub in Hj.
    unfold names in Hj. apply in_map_iff in Hj as (f & <- & _).
    apply has_sep_basename. }
  exists (path_join root [basename sub_dir; base_name]).
  split; [|split; [reflexivity|]].
  - destruct (get_image_path_total image_lists label _ category (EList l) j
                root (basename sub_dir) Hget Hl) as [p Hp];
      [apply lookup_lt_Some in Hj; exact Hj|reflexivity|].
    rewrite Hp. f_equal.
    apply (get_image_path_spec _ _ _ _ _ _ _ _ _ Hget Hl Hj Hp).
  - unfold path_join. cbn [fold_left]. apply basename_join2, Hsep.
Qed.

Lemma created_lists_give_paths_witness :
  create_image_lists pets "data" (Int 60) = Ok (pets_lists, pets_warnings)
  /\ exists p,
       get_image_path pets_lists "cats" 1 "photos" "validation" = Ok p /\
       p = path_join "photos" ["Cats"; "c.JPEG"] /\
       basename p = "c.JPEG".
Proof.
  split; [exact pets_run|].
  apply (created_lists_give_paths pets "data" (Int 60) pets_lists
           pets_warnings "cats" "validation" "photos" "c.JPEG"
           (class_record "Cats" ["a.jpg"] ["b.jpg"; "c.JPEG"]) 1
           pets_run eq_refl (or_intror eq_refl) eq_refl).
Defined.

(** What the constructor stores without computing: the maps between labels
    and class indices come from the keys of the dictionary alone. *)
Lemma ImageListIterator_init_fields (K : backend)
  (image_lists : dict (dict entry)) (category image_dir : string)
  (target_size : list Z) (color_mode : string) (mode : option string)
  (batch_size : Z) (shuffle : bool) (seed : option Z)
  (data_format save_dir : option string) (save_prefix save_format : string)
  (self : ImageListIterator) :
  ImageListIterator_init K image_lists category image_dir target_size
    color_mode mode batch_size shuffle seed data_format save_dir
    save_prefix save_format = Ok self ->
  class2id self
  = dict_of (combine (dict_keys image_lists)
               (map Z.of_nat (seq 0 (length (dict_keys image_lists)))))
  /\ id2class self
     = fold_left (fun d '(k, v) => int_dict_set d v k) (class2id self) []
  /\ save_to_dir self = save_dir.
Proof.
  unfold ImageListIterator_init.
  destruct (count_files image_lists category (dict_keys image_lists) 0)
    as [n|]; cbn [res_bind]; [|discriminate].
  destruct (negb (String.eqb color_mode "rgb"
                  || String.eqb color_mode "grayscale")); [discriminate|].
  match goal with
  | |- (if negb ?c then _ else _) = _ -> _ => destruct (negb c)
  end; [discriminate|].
  destruct (fill_all image_lists _ image_dir category (0, repeat 0%Z n, [])
              (dict_keys image_lists)) as [[[i cls] names]|];
    cbn [res_bind]; [|discriminate].
  intros H. injection H as <-. cbn [class2id id2class save_to_dir].
  repeat split.
Qed.

Lemma list_sum_cons (x : nat) (l : list nat) :
  list_sum (x :: l) = x + list_sum l.
Proof. reflexivity. Qed.

Lemma split_lengths (f : string -> bool) (l : list string) :
  length (List.filter (fun x => negb (f x)) l) + length (List.filter f l)
  = length l.
Proof.
  rewrite <- length_app.
  apply Permutation_length, filter_split_permutation.
Qed.

(** [get_generators] accepts every dictionary [create_image_lists] returns
    (with no more than 2^31 labels): both iterators are built, they number
    the labels alike, and together they index as many samples as files were
    collected for the classes of the dictionary. *)
Theorem generators_cover_created_lists (rt : runtime) (image_dir : string)
  (validation_pct : number) (image_lists : dict (dict entry))
  (warned : list string) (K : backend) (datagen_format : option string)
  (config : data.config) :
  create_image_lists rt image_dir validation_pct = Ok (image_lists, warned) ->
  (Z.of_nat (length image_lists) <= 2 ^ 31)%Z ->
  exists train_generator validation_generator,
    get_generators K datagen_format image_lists config
    = Ok (train_generator, validation_generator) /\
    class2id train_generator = class2id validation_generator /\
    num_class train_generator = length image_lists /\
    num_class validation_generator = length image_lists /\
    samples train_generator + samples validation_generator
    = list_sum
        (map (fun en =>
                length (collect_files rt image_dir (class_dir (snd en))))
           image_lists).
Proof.
  intros Hrun Hmany.
  destruct (create_image_lists_returned _ _ _ _ _ Hrun) as [Hnd Hall].
  assert (Hready : forall category,
             category = "training" \/ category = "validation" ->
             forall label lists,
               In (label, lists) image_lists -> label_ready category lists).
  { intros category Hcat label lists Hin.
    destruct (Hall _ _ Hin) as (sub_dir & _ & _ & -> & _).
    destruct Hcat as [-> | ->]; eexists; (split; [reflexivity|]);
      right; eexists; reflexivity. }
  unfold get_generators, flow_from_image_lists.
  destruct (ImageListIterator_init_total K image_lists "training"
              (data.path_to_data config)
              [data.img_height config; data.img_width config] "rgb"
              (Some "categorical") (data.batch_size config) true None
              datagen_format None "" "jpeg" Hnd Hmany
              (Hready _ (or_introl eq_refl)) (or_introl eq_refl)
              (or_intror (or_introl eq_refl))) as [tr Etr].
  destruct (ImageListIterator_init_total K image_lists "validation"
              (data.path_to_data config)
              [data.img_height config; data.img_width config] "rgb"
              (Some "categorical") (data.batch_size config) true None
              datagen_format None "" "jpeg" Hnd Hmany
              (Hready _ (or_intror eq_refl)) (or_introl eq_refl)
              (or_intror (or_introl eq_refl))) as [va Eva].
  rewrite Etr, Eva. cbn [res_bind]. exists tr, va.
  split; [reflexivity|].
  destruct (ImageListIterator_init_fields _ _ _ _ _ _ _ _ _ _ _ _ _ _ _ Etr)
    as (-> & _).
  destruct (ImageListIterator_init_fields _ _ _ _ _ _ _ _ _ _ _ _ _ _ _ Eva)
    as (-> & _).
  split; [reflexivity|].
  destruct (ImageListIterator_init_spec _ _ _ _ _ _ _ _ _ _ _ _ _ _ _ Hnd Etr)
    as (-> & _ & _ & -> & _).
  destruct (ImageListIterator_init_spec _ _ _ _ _ _ _ _ _ _ _ _ _ _ _ Hnd Eva)
    as (-> & _ & _ & -> & _).
  split; [reflexivity|]. split; [reflexivity|].
  clear Etr Eva Hrun Hnd Hmany Hready.
  induction image_lists as [|[label lists] rest IH]; [reflexivity|].
  rewrite !map_cons, !list_sum_cons. cbn [snd].
  rewrite <- IH by (intros l r Hin; apply Hall; right; exact Hin).
  destruct (Hall label lists (or_introl eq_refl))
    as (sub_dir & _ & _ & -> & _).
  change (class_dir (split_record rt image_dir validation_pct
                       (basename sub_dir))) with (basename sub_dir).
  pose proof (split_lengths (spec_validation validation_pct)
                (map basename
                   (collect_files rt image_dir (basename sub_dir)))) as Hs.
  rewrite length_map in Hs.
  change (length (category_items "training"
                    (split_record rt image_dir validation_pct
                       (basename sub_dir))))
    with (length (List.filter
                    (fun b => negb (spec_validation validation_pct b))
                    (map basename
                       (collect_files rt image_dir (basename sub_dir))))).
  change (length (category_items "validation"
                    (split_record rt image_dir validation_pct
                       (basename sub_dir))))
    with (length (List.filter (spec_validation validation_pct)
                    (map basename
                       (collect_files rt image_dir (basename sub_dir))))).
  lia.
Qed.

Lemma generators_cover_created_lists_witness :
  create_image_lists pets "data" (Int 60) = Ok (pets_lists, pets_warnings)
  /\ (Z.of_nat (length pets_lists) <= 2 ^ 31)%Z
  /\ exists train_generator validation_generator,
       get_generators tf_backend None pets_lists pets_config
       = Ok (train_generator, validation_generator) /\
       samples train_generator + samples validation_generator = 4.
Proof.
  assert (Hmany : (Z.of_nat (length pets_lists) <= 2 ^ 31)%Z)
    by (vm_compute; discriminate).
  split; [exact pets_run|]. split; [exact Hmany|].
  destruct (generators_cover_created_lists pets "data" (Int 60) pets_lists
              pets_warnings tf_backend None pets_config pets_run Hmany)
    as (tr & va & Hg & _ & _ & _ & Hs).
  exists tr, va. split; [exact Hg|]. rewrite Hs. reflexivity.
Defined.

(** ** ImageListIterator: what the constructor rejects *)

Lemma count_files_key_error (il : dict (dict entry)) (category : string)
  (label : string) (lists : dict entry) (es : dict (dict entry)) :
  forall n0,
    (forall l ls, In (l, ls) es -> dict_get il l = Some ls) ->
    In (label, lists) es ->
    dict_get lists category = None ->
    raised (count_files il category (dict_keys es) n0) KeyError.
Proof.
  induction es as [|[l0 ls0] es IH]; intros n0 Hes Hin Hc; [destruct Hin|].
  cbn [dict_keys map fst count_files].
  unfold dict_getitem at 1. rewrite (Hes l0 ls0 (or_introl eq_refl)).
  cbn [res_bind]. unfold dict_getitem at 1.
  destruct (dict_get ls0 category) as [files|] eqn:E; cbn [res_bind].
  - destruct Hin as [Hin|Hin]; [injection Hin as -> ->; congruence|].
    apply IH; [intros l ls H; apply Hes; right; exact H|exact Hin|exact Hc].
  - eexists. reflexivity.
Qed.

Lemma count_files_ok (il : dict (dict entry)) (category : string)
  (es : dict (dict entry)) :
  forall n0,
    (forall l ls, In (l, ls) es ->
                  dict_get il l = Some ls /\ dict_get ls category <> None) ->
    exists n, count_files il category (dict_keys es) n0 = Ok n.
Proof.
  induction es as [|[l0 ls0] es IH]; intros n0 Hes;
    cbn [dict_keys map fst count_files]; [eexists; reflexivity|].
  destruct (Hes l0 ls0 (or_introl eq_refl)) as [Hl Hc].
  unfold dict_getitem at 1. rewrite Hl. cbn [res_bind].
  unfold dict_getitem at 1.
  destruct (dict_get ls0 category) as [files|]; [|destruct Hc; reflexivity].
  cbn [res_bind]. apply IH. intros l ls H. apply Hes. right. exact H.
Qed.

(** A dictionary in which some label lacks the category is refused with the
    [KeyError] of the lookup, raised while the files are counted: before the
    colour mode and the class mode are looked at, whatever they are. *)
Theorem missing_category_is_key_error (K : backend)
  (image_lists : dict (dict entry)) (category image_dir : string)
  (target_size : list Z) (color_mode : string) (mode : option string)
  (batch_size : Z) (shuffle : bool) (seed : option Z)
  (data_format save_dir : option string) (save_prefix save_format : string)
  (label : string) (lists : dict entry) :
  List.NoDup (dict_keys image_lists) ->
  In (label, lists) image_lists ->
  dict_get lists category = None ->
  raised (ImageListIterator_init K image_lists category image_dir target_size
            color_mode mode batch_size shuffle seed data_format save_dir
            save_prefix save_format) KeyError.
Proof.
  intros Hnd Hin Hc. unfold ImageListIterator_init.
  destruct (count_files_key_error image_lists category label lists
              image_lists 0) as [args ->]; [|exact Hin|exact Hc|].
  - intros l ls. apply dict_get_in_nodup, Hnd.
  - eexists. reflexivity.
Qed.

Lemma missing_category_is_key_error_witness :
  List.NoDup (dict_keys zoo_lists)
  /\ raised (ImageListIterator_init tf_backend zoo_lists "testing" "data"
               [224; 224]%Z "cmyk" (Some "categorical") 32 true None None
               None "" "jpeg") KeyError.
Proof.
  split; [exact zoo_keys_distinct|].
  apply (missing_category_is_key_error tf_backend zoo_lists "testing" "data"
           [224; 224]%Z "cmyk" (Some "categorical") 32 true None None None
           "" "jpeg" "cats" (class_record "Cats" ["a.jpg"; "b.jpg"] ["c.jpg"])
           zoo_keys_distinct).
  - left. reflexivity.
  - reflexivity.
Defined.

(** When every label has the category, a colour mode other than "rgb" and
    "grayscale" is refused with a [ValueError], and so is, for a known colour
    mode, a class mode other than "categorical", "binary", "sparse" and
    [None]. *)
Theorem unknown_modes_are_value_errors (K : backend)
  (image_lists : dict (dict entry)) (category image_dir : string)
  (target_size : list Z) (color_mode : string) (mode : option string)
  (batch_size : Z) (shuffle : bool) (seed : option Z)
  (data_format save_dir : option string) (save_prefix save_format : string) :
  List.NoDup (dict_keys image_lists) ->
  (forall label lists,
     In (label, lists) image_lists -> dict_get lists category <> None) ->
  (color_mode <> "rgb" /\ color_mode <> "grayscale") \/
  (exists m, mode = Some m /\ m <> "categorical" /\ m <> "binary"
             /\ m <> "sparse") ->
  raised (ImageListIterator_init K image_lists category image_dir target_size
            color_mode mode batch_size shuffle seed data_format save_dir
            save_prefix save_format) ValueError.
Proof.
  intros Hnd Hcat Hbad. unfold ImageListIterator_init.
  destruct (count_files_ok image_lists category image_lists 0) as [n ->].
  { intros l ls Hin. split; [apply dict_get_in_nodup; assumption|].
    apply (Hcat l ls Hin). }
  cbn [res_bind].
  destruct (negb (String.eqb color_mode "rgb"
                  || String.eqb color_mode "grayscale")) eqn:Ecol;
    [eexists; reflexivity|].
  destruct Hbad as [[H1 H2]|(m & -> & H1 & H2 & H3)].
  - apply String.eqb_neq in H1, H2. rewrite H1, H2 in Ecol.
    discriminate Ecol.
  - apply String.eqb_neq in H1, H2, H3. rewrite H1, H2, H3. cbn [orb negb].
    eexists. reflexivity.
Qed.

Lemma unknown_modes_are_value_errors_witness :
  raised (ImageListIterator_init tf_backend zoo_lists "training" "data"
            [224; 224]%Z "cmyk" (Some "categorical") 32 true None None
            None "" "jpeg") ValueError
  /\ raised (ImageListIterator_init tf_backend zoo_lists "training" "data"
               [224; 224]%Z "rgb" (Some "input") 32 true None None
               None "" "jpeg") ValueError.
Proof.
  assert (Hcat : forall label lists,
             In (label, lists) zoo_lists ->
             dict_get lists "training" <> None).
  { intros label lists [H|[H|[H|[]]]]; injection H as <- <-; discriminate. }
  split.
  - apply (unknown_modes_are_value_errors tf_backend zoo_lists "training"
             "data" [224; 224]%Z "cmyk" (Some "categorical") 32 true None
             None None "" "jpeg" zoo_keys_distinct Hcat).
    left. split; discriminate.
  - apply (unknown_modes_are_value_errors tf_backend zoo_lists "training"
             "data" [224; 224]%Z "rgb" (Some "input") 32 true None
             None None "" "jpeg" zoo_keys_distinct Hcat).
    right. exists "input". repeat split; discriminate.
Defined.

(** ** ImageListIterator: labels and class indices *)

Lemma int_dict_set_fresh {V} (d : list (Z * V)) (k : Z) (v : V) :
  (forall x, In x (map fst d) -> x <> k) ->
  int_dict_set d k v = (d ++ [(k, v)])%list.
Proof.
  induction d as [|[k0 v0] d IH]; intros H; [reflexivity|].
  cbn [int_dict_set app].
  destruct (Z.eqb_spec k0 k) as [E|_];
    [destruct (H k0 (or_introl eq_refl) E)|].
  rewrite IH by (intros x Hx; apply H; right; exact Hx). reflexivity.
Qed.

Lemma id2class_fold (keys : list string) :
  forall (a : nat) (d : list (Z * string)),
    (forall x, In x (map fst d) -> (x < Z.of_nat a)%Z) ->
    fold_left (fun d '(k, v) => int_dict_set d v k)
      (combine keys (map Z.of_nat (seq a (length keys)))) d
    = (d ++ combine (map Z.of_nat (seq a (length keys))) keys)%list.
Proof.
  induction keys as [|key keys IH]; intros a d Hd.
  - cbn. rewrite app_nil_r. reflexivity.
  - cbn [length seq map combine fold_left].
    rewrite int_dict_set_fresh
      by (intros x Hx; specialize (Hd x Hx); lia).
    rewrite IH.
    + rewrite <- app_assoc. reflexivity.
    + intros x Hx. rewrite map_app in Hx.
      apply in_app_or in Hx as [Hx|[<-|[]]];
        [specialize (Hd x Hx)|cbn [fst]]; lia.
Qed.

Lemma int_dict_get_combine_seq (keys : list string) :
  forall (a : nat) (id : Z) (label : string),
    int_dict_get (combine (map Z.of_nat (seq a (length keys))) keys) id
    = Some label <->
    exists k, id = Z.of_nat (a + k) /\ keys !! k = Some label.
Proof.
  induction keys as [|key keys IH]; intros a id label.
  - cbn. split; [discriminate|]. intros (k & _ & H). discriminate H.
  - cbn [length seq map combine int_dict_get].
    destruct (Z.eqb_spec (Z.of_nat a) id) as [E|E].
    + split.
      * intros H. injection H as ->. exists 0. split; [lia|reflexivity].
      * intros (k & Hk & Hl). destruct k as [|k]; [exact Hl|lia].
    + rewrite IH. split.
      * intros (k & -> & Hl). exists (S k). split; [lia|exact Hl].
      * intros (k & -> & Hl). destruct k as [|k]; [lia|].
        exists k. split; [lia|exact Hl].
Qed.

Lemma dict_get_combine_seq_inv (keys : list string) :
  forall (a : nat) (id : Z) (label : string),
    dict_get (combine keys (map Z.of_nat (seq a (length keys)))) label
    = Some id ->
    exists k, id = Z.of_nat (a + k) /\ keys !! k = Some label.
Proof.
  induction keys as [|key keys IH]; intros a id label; [discriminate|].
  cbn [length seq map combine dict_get].
  destruct (String.eqb key label) eqn:E.
  - apply String.eqb_eq in E. subst key. intros H. injection H as <-.
    exists 0. split; [lia|reflexivity].
  - intros H. apply IH in H as (k & -> & Hl).
    exists (S k). split; [lia|exact Hl].
Qed.

(** [id2class] is the inverse of [class2id]: an index leads to a label
    exactly when the label leads to the index, and the labels are numbered
    from 0 in the order of the dictionary. *)
Theorem id2class_inverts_class2id (K : backend)
  (image_lists : dict (dict entry)) (category image_dir : string)
  (target_size : list Z) (color_mode : string) (mode : option string)
  (batch_size : Z) (shuffle : bool) (seed : option Z)
  (data_format save_dir : option string) (save_prefix save_format : string)
  (self : ImageListIterator) :
  List.NoDup (dict_keys image_lists) ->
  ImageListIterator_init K image_lists category image_dir target_size
    color_mode mode batch_size shuffle seed data_format save_dir
    save_prefix save_format = Ok self ->
  (forall id label,
     int_dict_get (id2class self) id = Some label <->
     dict_get (class2id self) label = Some id) /\
  (forall k label lists,
     image_lists !! k = Some (label, lists) ->
     int_dict_get (id2class self) (Z.of_nat k) = Some label).
Proof.
  intros Hnd Hinit.
  destruct (ImageListIterator_init_fields _ _ _ _ _ _ _ _ _ _ _ _ _ _ _ Hinit)
    as (Hc & Hi & _).
  rewrite dict_of_nodup in Hc by (rewrite keys_of_combine; exact Hnd).
  rewrite Hi, Hc.
  rewrite (id2class_fold (dict_keys image_lists) 0 [])
    by (intros x []).
  cbn [app].
  assert (Hpos : forall id label,
             int_dict_get
               (combine (map Z.of_nat (seq 0 (length (dict_keys image_lists))))
                  (dict_keys image_lists)) id = Some label <->
             exists k, id = Z.of_nat k /\
                       dict_keys image_lists !! k = Some label)
    by (intros id label; apply (int_dict_get_combine_seq _ 0)).
  split.
  - intros id label. rewrite Hpos. split.
    + intros (k & -> & Hk).
      apply (dict_get_combine_seq _ 0 k label Hnd Hk).
    + intros H. apply dict_get_combine_seq_inv in H. exact H.
  - intros k label lists Hk. apply Hpos. exists k. split; [reflexivity|].
    unfold dict_keys. rewrite list_lookup_fmap, Hk. reflexivity.
Qed.

Lemma id2class_inverts_class2id_witness :
  List.NoDup (dict_keys zoo_lists)
  /\ zoo_iterator = Ok zoo_self
  /\ int_dict_get (id2class zoo_self) 2 = Some "owls".
Proof.
  split; [exact zoo_keys_distinct|]. split; [exact zoo_iterator_built|].
  apply (proj2 (id2class_inverts_class2id tf_backend zoo_lists "training"
                  "data" [224; 224]%Z "rgb" (Some "categorical") 32 true
                  None None None "" "jpeg" zoo_self
                  zoo_keys_distinct zoo_iterator_built)
           2 "owls" (class_record "Owls" ["e.jpg"] [])).
  reflexivity.
Defined.

(** ** ImageListIterator: what a batch holds *)

Lemma py_index_lookup {A} (a : list A) (j : Z) (x : A) :
  py_index a j = Ok x ->
  exists i, normalize_index (length a) j = Ok i /\ a !! i = Some x.
Proof.
  unfold py_index.
  destruct (normalize_index (length a) j) as [i|]; cbn [res_bind];
    [|discriminate].
  destruct (a !! i) as [y|] eqn:E; [|discriminate].
  intros H. injection H as <-. exists i. split; [reflexivity|exact E].
Qed.

Lemma py_index_of_lookup {A} (a : list A) (j : Z) (i : nat) (x : A) :
  normalize_index (length a) j = Ok i -> a !! i = Some x ->
  py_index a j = Ok x.
Proof.
  intros Hn Hx. unfold py_index. rewrite Hn. cbn [res_bind].
  rewrite Hx. reflexivity.
Qed.

Lemma py_index_failure {A} (a : list A) (j : Z) (e : exception) :
  py_index a j = Raise e -> e = Exc IndexError [].
Proof.
  unfold py_index, normalize_index.
  destruct ((0 <=? j) && (j <? Z.of_nat (length a)))%Z; cbn [res_bind].
  - destruct (a !! Z.to_nat j); [discriminate|]. intros H.
    injection H as <-. reflexivity.
  - destruct ((- Z.of_nat (length a) <=? j) && (j <? 0))%Z; cbn [res_bind].
    + destruct (a !! Z.to_nat (j + Z.of_nat (length a))); [discriminate|].
      intros H. injection H as <-. reflexivity.
    + intros H. injection H as <-. reflexivity.
Qed.

Lemma py_index_range {A} (a : list A) (j : Z) (x : A) :
  py_index a j = Ok x ->
  (- Z.of_nat (length a) <= j < Z.of_nat (length a))%Z.
Proof.
  intros H. apply py_index_lookup in H as (i & H & _).
  unfold normalize_index in H.
  destruct ((0 <=? j) && (j <? Z.of_nat (length a)))%Z eqn:E1.
  - apply andb_true_iff in E1 as [H0 H1].
    apply Z.leb_le in H0. apply Z.ltb_lt in H1. lia.
  - destruct ((- Z.of_nat (length a) <=? j) && (j <? 0))%Z eqn:E2;
      [|discriminate H].
    apply andb_true_iff in E2 as [H0 H1].
    apply Z.leb_le in H0. apply Z.ltb_lt in H1. lia.
Qed.

Lemma lookup_combine {A B} (a : list A) (b : list B) (i : nat) (x : A)
  (y : B) :
  a !! i = Some x -> b !! i = Some y -> combine a b !! i = Some (x, y).
Proof.
  revert b i. induction a as [|a0 a IH]; intros [|b0 b] [|i] Ha Hb;
    try discriminate.
  - injection Ha as <-. injection Hb as <-. reflexivity.
  - apply (IH b i Ha Hb).
Qed.

Lemma fst_of_combine {A B} (a : list A) (b : list B) :
  length a = length b -> map fst (combine a b) = a.
Proof.
  revert b. induction a as [|x a IH]; intros [|y b] Hlen;
    try discriminate Hlen; [reflexivity|].
  cbn [combine map fst]. f_equal. apply IH.
  injection Hlen as Hlen. exact Hlen.
Qed.

Section BatchContents.

Variable image : Type.
Variable blank : image.
Variable load_sample : ImageListIterator -> nat -> string -> res image.
Variable save_sample :
  ImageListIterator -> string -> Z -> nat -> image -> res unit.
Variable K : backend.

(** Loading from slot [i] on: the slots before are left alone, and the slot
    of each index holds the image loaded for the file of that index. *)
Lemma load_batch_spec (self : ImageListIterator) (index_array : list Z) :
  forall (batch_x batch_x' : list image) (i : nat),
    load_batch image load_sample self batch_x i index_array = Ok batch_x' ->
    (forall r, r < i -> batch_x' !! r = batch_x !! r) /\
    forall k j,
      index_array !! k = Some j ->
      exists name x,
        py_index (filenames self) j = Ok name /\
        load_sample self (i + k) name = Ok x /\
        batch_x' !! (i + k) = Some x.
Proof.
  induction index_array as [|j0 rest IH]; intros batch_x batch_x' i;
    cbn [load_batch].
  - intros H. injection H as <-. split; [reflexivity|].
    intros k j Hk. discriminate Hk.
  - destruct (py_index (filenames self) j0) as [name|] eqn:En;
      cbn [res_bind]; [|discriminate].
    destruct (load_sample self i name) as [x|] eqn:Ex; cbn [res_bind];
      [|discriminate].
    destruct (Nat.ltb_spec i (length batch_x)) as [Hi|_]; [|discriminate].
    intros H. destruct (IH _ _ _ H) as [Hkeep Hslots]. split.
    + intros r Hr. rewrite Hkeep by lia.
      apply list_lookup_insert_ne. lia.
    + intros [|k] j Hk.
      * injection Hk as <-. exists name, x.
        rewrite Nat.add_0_r. split; [exact En|]. split; [exact Ex|].
        rewrite Hkeep by lia. apply list_lookup_insert_eq. exact Hi.
      * destruct (Hslots k j Hk) as (name' & x' & Hn & Hx & Hb).
        exists name', x'. replace (i + S k) with (S i + k) by lia.
        split; [exact Hn|]. split; [exact Hx|exact Hb].
Qed.

Section Built.

Variable image_lists : dict (dict entry).
Variables category image_dir : string.
Variable target_size : list Z.
Variable color_mode : string.
Variable mode : option string.
Variable batch_size : Z.
Variable shuffle : bool.
Variable seed : option Z.
Variables data_format save_dir : option string.
Variables save_prefix save_format : string.
Variable self : ImageListIterator.

Hypothesis keys_distinct : List.NoDup (dict_keys image_lists).
Hypothesis built :
  ImageListIterator_init K image_lists category image_dir target_size
    color_mode mode batch_size shuffle seed data_format save_dir
    save_prefix save_format = Ok self.

(** The file and the class at an index of a constructed iterator are those
    of one sample of the dictionary. *)
Lemma sample_at_index (j : Z) (name : string) (c : Z) :
  py_index (filenames self) j = Ok name ->
  py_index (classes self) j = Ok c ->
  exists label,
    py_index (flat_samples image_dir category image_lists) j
    = Ok (name, label) /\
    c = class_index self label.
Proof.
  intros Hn Hc.
  destruct (ImageListIterator_init_spec _ _ _ _ _ _ _ _ _ _ _ _ _ _ _
              keys_distinct built)
    as (_ & Hnames & Hclasses & _ & _ & Hcomb & _).
  apply py_index_lookup in Hn as (i & Hi & Hname).
  apply py_index_lookup in Hc as (i' & Hi' & Hclass).
  rewrite Hclasses, <- Hnames, Hi in Hi'. injection Hi' as <-.
  pose proof (lookup_combine _ _ _ _ _ Hname Hclass) as Hp.
  rewrite Hcomb, list_lookup_fmap in Hp.
  destruct (flat_samples image_dir category image_lists !! i)
    as [[path label]|] eqn:Ef; [|discriminate Hp].
  cbn in Hp. injection Hp as -> <-.
  exists label. split; [|reflexivity].
  apply (py_index_of_lookup _ _ i); [|exact Ef].
  replace (length (flat_samples image_dir category image_lists))
    with (length (filenames self)); [exact Hi|].
  apply (f_equal (@length _)) in Hcomb.
  rewrite length_map, length_combine in Hcomb. lia.
Qed.

(** Whatever the class mode, the image batch has as many slots as were
    announced, and slot [i] holds what the pipeline loaded for slot [i] from
    the file of the sample that the [i]-th index picks among the samples of
    the dictionary (a negative index counts from the end). *)
Theorem batch_images_follow_the_index (index_array : list Z)
  (current_index : Z) (current_batch_size : nat) (batch_x : list image)
  (batch_y : option batch_labels) :
  ImageListIterator_next image blank load_sample save_sample K self
    index_array current_index current_batch_size = Ok (batch_x, batch_y) ->
  length batch_x = current_batch_size /\
  forall i j,
    index_array !! i = Some j ->
    exists path label x,
      py_index (flat_samples image_dir category image_lists) j
      = Ok (path, label) /\
      load_sample self i path = Ok x /\
      batch_x !! i = Some x.
Proof.
  unfold ImageListIterator_next.
  destruct (load_batch image load_sample self (repeat blank current_batch_size)
              0 index_array) as [bx|] eqn:Eload; cbn [res_bind];
    [|discriminate].
  intros Hnext.
  assert (Hbx : batch_x = bx).
  { match type of Hnext with
    | res_bind ?s _ = _ => destruct s as [[]|]
    end; cbn [res_bind] in Hnext; [|discriminate Hnext].
    repeat match type of Hnext with
           | (if ?c then _ else _) = _ => destruct c
           | res_bind ?s _ = _ =>
               destruct s; cbn [res_bind] in Hnext; [|discriminate Hnext]
           end;
      injection Hnext as <- _; reflexivity. }
  subst bx. split.
  - apply load_batch_length in Eload. rewrite repeat_length in Eload.
    exact Eload.
  - intros i j Hj.
    destruct (load_batch_spec _ _ _ _ _ Eload) as [_ Hslots].
    destruct (Hslots i j Hj) as (name & x & Hn & Hx & Hb).
    cbn [Nat.add] in Hx, Hb.
    destruct (ImageListIterator_init_spec _ _ _ _ _ _ _ _ _ _ _ _ _ _ _
                keys_distinct built)
      as (_ & Hnames & Hclasses & _).
    destruct (py_index_lookup _ _ _ Hn) as (k & Hk & Hname).
    destruct (lookup_lt_is_Some_2 (classes self) k) as [c Hc];
      [apply lookup_lt_Some in Hname; lia|].
    assert (Hpc : py_index (classes self) j = Ok c).
    { apply (py_index_of_lookup _ _ k); [|exact Hc].
      rewrite Hclasses, <- Hnames. exact Hk. }
    destruct (sample_at_index j name c Hn Hpc) as (label & Hs & _).
    exists name, label, x. split; [exact Hs|]. split; [exact Hx|exact Hb].
Qed.

(** In "sparse" mode the label batch holds, for each index, the class index
    of the label of the very sample whose file went into the image batch;
    in "binary" mode that class index as a number of the backend's float
    type; with no class mode the batch has no labels. *)
Theorem batch_labels_follow_the_index (index_array : list Z)
  (current_index : Z) (current_batch_size : nat) (batch_x : list image)
  (batch_y : option batch_labels) :
  ImageListIterator_next image blank load_sample save_sample K self
    index_array current_index current_batch_size = Ok (batch_x, batch_y) ->
  (class_mode self = None -> batch_y = None) /\
  (class_mode self = Some "sparse" ->
   exists y,
     batch_y = Some (SparseLabels y) /\
     length y = length index_array /\
     forall i j,
       index_array !! i = Some j ->
       exists path label,
         py_index (flat_samples image_dir category image_lists) j
         = Ok (path, label) /\
         py_index (filenames self) j = Ok path /\
         y !! i = Some (class_index self label)) /\
  (class_mode self = Some "binary" ->
   exists y,
     batch_y = Some (BinaryLabels y) /\
     length y = length index_array /\
     forall i j,
       index_array !! i = Some j ->
       exists path label,
         py_index (flat_samples image_dir category image_lists) j
         = Ok (path, label) /\
         py_index (filenames self) j = Ok path /\
         y !! i = Some (to_floatx (K_floatx K) (class_index self label))).
Proof.
  unfold ImageListIterator_next, mode_is.
  destruct (load_batch image load_sample self (repeat blank current_batch_size)
              0 index_array) as [bx|] eqn:Eload; cbn [res_bind];
    [|discriminate].
  destruct (load_batch_spec _ _ _ _ _ Eload) as [_ Hslots].
  match goal with
  | |- res_bind ?s _ = _ -> _ => destruct s as [[]|]
  end; cbn [res_bind]; [|discriminate].
  assert (Hlabels : forall labels,
             np_take (classes self) index_array = Ok labels ->
             length labels = length index_array /\
             forall i j,
               index_array !! i = Some j ->
               exists path label,
                 py_index (flat_samples image_dir category image_lists) j
                 = Ok (path, label) /\
                 py_index (filenames self) j = Ok path /\
                 labels !! i = Some (class_index self label)).
  { intros labels Etake. apply mapM_spec in Etake as [Hlen Hl].
    split; [exact Hlen|]. intros i j Hj.
    destruct (Hl i j Hj) as (c & Hc & Hidx).
    destruct (Hslots i j Hj) as (name & _ & Hn & _).
    destruct (sample_at_index j name c Hn Hidx) as (label & Hs & ->).
    exists name, label. split; [exact Hs|]. split; [exact Hn|exact Hc]. }
  intros Hnext. split; [|split]; intros Hmode; rewrite Hmode in Hnext.
  - injection Hnext as _ <-. reflexivity.
  - change (String.eqb "sparse" "sparse") with true in Hnext. cbn iota in Hnext.
    destruct (np_take (classes self) index_array) as [labels|] eqn:Etake;
      cbn [res_bind] in Hnext; [|discriminate Hnext].
    injection Hnext as _ <-. exists labels. split; [reflexivity|].
    apply Hlabels. reflexivity.
  - change (String.eqb "binary" "sparse") with false in Hnext.
    change (String.eqb "binary" "binary") with true in Hnext.
    cbn iota in Hnext.
    destruct (np_take (classes self) index_array) as [labels|] eqn:Etake;
      cbn [res_bind] in Hnext; [|discriminate Hnext].
    injection Hnext as _ <-.
    destruct (Hlabels labels eq_refl) as [Hlen Hl].
    eexists. split; [reflexivity|]. split; [rewrite length_map; exact Hlen|].
    intros i j Hj. destruct (Hl i j Hj) as (path & label & Hs & Hn & Hc).
    exists path, label. split; [exact Hs|]. split; [exact Hn|].
    rewrite list_lookup_fmap, Hc. reflexivity.
Qed.

End Built.

(** An index outside [-n, n), for [n] file names, makes [next] fail with
    [IndexError] when the loading of images itself does not fail. *)
Theorem index_outside_the_samples_is_index_error (self : ImageListIterator)
  (index_array : list Z) (current_index : Z) (current_batch_size : nat)
  (j : Z) :
  (forall i name, exists x, load_sample self i name = Ok x) ->
  In j index_array ->
  ~ (- Z.of_nat (length (filenames self)) <= j
     < Z.of_nat (length (filenames self)))%Z ->
  raised (ImageListIterator_next image blank load_sample save_sample K self
            index_array current_index current_batch_size) IndexError.
Proof.
  intros Hload Hin Hout. unfold ImageListIterator_next.
  assert (H : forall batch_x i,
             raised (load_batch image load_sample self batch_x i index_array)
               IndexError).
  { induction index_array as [|j0 rest IH]; intros batch_x i;
      [destruct Hin|].
    cbn [load_batch].
    destruct (py_index (filenames self) j0) as [name|e] eqn:En;
      cbn [res_bind].
    - destruct (Hload i name) as [x ->]. cbn [res_bind].
      destruct (i <? length batch_x)%nat; [|eexists; reflexivity].
      apply IH. destruct Hin as [->|Hin]; [|exact Hin].
      destruct Hout. apply (py_index_range _ _ _ En).
    - apply py_index_failure in En. subst e. eexists. reflexivity. }
  destruct (H (repeat blank current_batch_size) 0) as [args ->].
  eexists. reflexivity.
Qed.

End BatchContents.

Lemma zoo_sparse_built :
  ImageListIterator_init tf_backend zoo_lists "training" "data" [224; 224]%Z
    "rgb" (Some "sparse") 32 true None None None "" "jpeg" = Ok zoo_sparse.
Proof. vm_compute. reflexivity. Qed.

Lemma batch_images_follow_the_index_witness :
  List.NoDup (dict_keys zoo_lists)
  /\ zoo_iterator = Ok zoo_self
  /\ ImageListIterator_next string "" name_as_image no_save tf_backend
       zoo_self [2; 0; -2]%Z 0 3
     = Ok (zoo_batch_x, Some (CategoricalLabels zoo_batch_y))
  /\ length zoo_batch_x = 3
  /\ exists path label x,
       py_index (flat_samples "data" "training" zoo_lists) (-2)
       = Ok (path, label) /\
       name_as_image zoo_self 2 path = Ok x /\
       zoo_batch_x !! 2 = Some x.
Proof.
  split; [exact zoo_keys_distinct|]. split; [exact zoo_iterator_built|].
  split; [exact zoo_batch|].
  destruct (batch_images_follow_the_index string "" name_as_image no_save
              tf_backend zoo_lists "training" "data" [224; 224]%Z "rgb"
              (Some "categorical") 32 true None None None "" "jpeg" zoo_self
              zoo_keys_distinct zoo_iterator_built [2; 0; -2]%Z 0 3
              zoo_batch_x (Some (CategoricalLabels zoo_batch_y)) zoo_batch)
    as [Hlen Hslots].
  split; [exact Hlen|]. apply (Hslots 2 (-2)%Z). reflexivity.
Defined.

Lemma batch_labels_follow_the_index_witness :
  List.NoDup (dict_keys zoo_lists)
  /\ ImageListIterator_init tf_backend zoo_lists "training" "data"
       [224; 224]%Z "rgb" (Some "sparse") 32 true None None None ""
       "jpeg" = Ok zoo_sparse
  /\ ImageListIterator_next string "" name_as_image no_save tf_backend
       zoo_sparse [2; 0; -2]%Z 0 3
     = Ok (zoo_batch_x, Some (SparseLabels [2; 0; 0]%Z))
  /\ exists y,
       Some (SparseLabels [2; 0; 0]%Z) = Some (SparseLabels y) /\
       length y = 3.
Proof.
  assert (Hnext : ImageListIterator_next string "" name_as_image no_save
                    tf_backend zoo_sparse [2; 0; -2]%Z 0 3
                  = Ok (zoo_batch_x, Some (SparseLabels [2; 0; 0]%Z)))
    by (vm_compute; reflexivity).
  split; [exact zoo_keys_distinct|]. split; [exact zoo_sparse_built|].
  split; [exact Hnext|].
  destruct (proj1 (proj2
              (batch_labels_follow_the_index string "" name_as_image no_save
                 tf_backend zoo_lists "training" "data" [224; 224]%Z "rgb"
                 (Some "sparse") 32 true None None None "" "jpeg" zoo_sparse
                 zoo_keys_distinct zoo_sparse_built [2; 0; -2]%Z 0 3
                 zoo_batch_x (Some (SparseLabels [2; 0; 0]%Z)) Hnext))
              eq_refl) as (y & Hy & Hlen & _).
  exists y. split; [exact Hy|exact Hlen].
Defined.

Lemma index_outside_the_samples_is_index_error_witness :
  raised (ImageListIterator_next string "" name_as_image no_save tf_backend
            zoo_self [0; 3]%Z 0 2) IndexError.
Proof.
  apply (index_outside_the_samples_is_index_error string "" name_as_image
           no_save tf_backend zoo_self [0; 3]%Z 0 2 3).
  - intros i name. exists name. reflexivity.
  - right. left. reflexivity.
  - cbn. lia.
Defined.

Lemma categorical_batch_is_produced_witness :
  List.NoDup (dict_keys zoo_lists)
  /\ zoo_iterator = Ok zoo_self
  /\ exists batch_x y,
       ImageListIterator_next string "" name_as_image no_save tf_backend
         zoo_self [2; 0; 1]%Z 0 (length [2; 0; 1]%Z)
       = Ok (batch_x, Some (CategoricalLabels y)).
Proof.
  split; [exact zoo_keys_distinct|]. split; [exact zoo_iterator_built|].
  apply (categorical_batch_is_produced string "" name_as_image no_save
           tf_backend zoo_lists "training" "data" [224; 224]%Z "rgb"
           (Some "categorical") 32 true None None None "" "jpeg" zoo_self
           [2; 0; 1]%Z 0 zoo_keys_distinct zoo_iterator_built eq_refl
           eq_refl).
  - intros i name. exists name. reflexivity.
  - intros j [<-|[<-|[<-|[]]]]; cbn; lia.
Defined.

(** ** except_catcher: producers that never fail, producers that are done *)

Section Wrapped.

Context {D St : Type}.
Variable next : St -> outcome D * St.

(** Where every pull succeeds the wrapper is transparent: it hands on the
    values of the producer one for one, prints nothing, and needs a single
    turn of its loop for each. *)
Theorem wrapper_is_transparent_without_failures (healthy : St -> Prop)
  (fuel n : nat) (s : St) :
  (forall s, healthy s ->
             exists data s', next s = (Returns data, s') /\ healthy s') ->
  healthy s ->
  except_catcher_take next (S fuel) n s = ([], first_values next n s) /\
  length (first_values next n s) = n.
Proof.
  intros Hstep. revert s. induction n as [|n IH]; intros s Hs.
  - split; reflexivity.
  - destruct (Hstep s Hs) as (data & s' & E & Hs').
    destruct (IH s' Hs') as [Etake Elen].
    rewrite take_step. cbn [except_catcher_next first_values].
    rewrite E, Etake. cbn [fst snd app length]. rewrite Elen.
    split; reflexivity.
Qed.

(** A producer that is exhausted, or broken for good, raises an [Exception]
    on every pull; the wrapper swallows each one, so a pull on the wrapper
    never comes to an end: however many turns of its loop are allowed, it
    is still looping, with one diagnostic printed per turn, and the wrapped
    sequence gets no further value. *)
Theorem finished_producer_is_pulled_forever (finished : St -> Prop)
  (fuel n : nat) (s : St) :
  (forall s, finished s ->
             exists e s', next s = (Raises e, s') /\
                          is_Exception (exc_cls e) = true /\ finished s') ->
  finished s ->
  (exists printed s',
     except_catcher_next next fuel s = (printed, Looping s') /\
     length printed = fuel /\ finished s') /\
  snd (except_catcher_take next fuel n s) = [].
Proof.
  intros Hstep Hs.
  assert (Hloop : forall fuel s, finished s ->
             exists printed s',
               except_catcher_next next fuel s = (printed, Looping s') /\
               length printed = fuel /\ finished s').
  { clear fuel s Hs. induction fuel as [|fuel IH]; intros s Hs.
    - exists [], s. repeat split. exact Hs.
    - destruct (Hstep s Hs) as (e & s' & E & He & Hs').
      destruct (IH s' Hs') as (printed & s'' & Enext & Hlen & Hs'').
      exists (diagnostic e :: printed), s''.
      cbn [except_catcher_next]. rewrite E, He, Enext.
      cbn [length]. rewrite Hlen. repeat split. exact Hs''. }
  split; [apply Hloop, Hs|].
  destruct n as [|n]; [reflexivity|].
  rewrite take_step.
  destruct (Hloop fuel s Hs) as (printed & s' & -> & _). reflexivity.
Qed.

End Wrapped.

Lemma wrapper_is_transparent_without_failures_witness :
  except_catcher_take third_pull_fails 1 4 3 = ([], [4; 5; 6; 7]).
Proof.
  refine (eq_trans
            (proj1 (wrapper_is_transparent_without_failures third_pull_fails
                      (fun s => 3 <= s) 0 4 3 _ _)) _).
  - intros s Hs. exists (S s), (S s). split; [|lia].
    unfold third_pull_fails.
    destruct (Nat.eqb_spec (S s) 3) as [E|_]; [lia|reflexivity].
  - lia.
  - reflexivity.
Defined.

Lemma finished_producer_is_pulled_forever_witness :
  except_catcher_take two_values 5 2 0 = ([], [1; 2])
  /\ (exists printed s',
        except_catcher_next two_values 5 2 = (printed, Looping s') /\
        length printed = 5 /\ 2 <= s')
  /\ snd (except_catcher_take two_values 5 1 2) = [].
Proof.
  split; [reflexivity|].
  apply (finished_producer_is_pulled_forever two_values (fun s => 2 <= s)
           5 1 2).
  - intros s Hs. exists (Exc StopIteration []), s.
    unfold two_values.
    destruct (Nat.ltb_spec s 2) as [E|_]; [lia|].
    repeat split. exact Hs.
  - lia.
Defined.

(** ** get_classes_map and find_files *)

Lemma split_slash_no_sep (s : string) :
  has_sep s = false -> split_slash s = [s].
Proof.
  induction s as [|c rest IH]; [reflexivity|].
  cbn [has_sep split_slash]. intros H.
  apply orb_false_iff in H as [Hc Hr]. rewrite Hc, (IH Hr). reflexivity.
Qed.

Lemma split_slash_sep (s : string) :
  has_sep s = true ->
  exists head next tail, split_slash s = head :: next :: tail.
Proof.
  induction s as [|c rest IH]; [discriminate|].
  cbn [has_sep split_slash]. intros H.
  destruct (Ascii.eqb c "/").
  - destruct rest as [|c' rest']; [do 3 eexists; reflexivity|].
    destruct (split_slash (String c' rest')) as [|h t] eqn:E.
    + cbn [split_slash] in E. destruct (Ascii.eqb c' "/"); [discriminate E|].
      destruct (split_slash rest'); discriminate E.
    + do 3 eexists. reflexivity.
  - cbn [orb] in H. destruct (IH H) as (h & n & t & ->).
    do 3 eexists. reflexivity.
Qed.

(** [path.split('/')[-1]] is [os.path.basename(path)]. *)
Lemma last_split_slash (p : string) :
  List.last (split_slash p) "" = basename p.
Proof.
  induction p as [|c rest IH]; [reflexivity|].
  cbn [split_slash basename].
  destruct (has_sep rest) eqn:Hr.
  - destruct (split_slash_sep rest Hr) as (h & n & t & E).
    rewrite E in IH |- *. rewrite <- IH.
    destruct (Ascii.eqb c "/"); reflexivity.
  - rewrite (split_slash_no_sep rest Hr).
    destruct (Ascii.eqb c "/"); reflexivity.
Qed.

Lemma class_of_joined_path (path_to_data name : string) :
  has_sep name = false ->
  List.last (split_slash (path_join path_to_data [name])) "" = name.
Proof.
  intros H. rewrite last_split_slash. unfold path_join. cbn [fold_left].
  apply basename_join2, H.
Qed.

Lemma enumerate_as_dict (classes : list string) :
  fold_left (fun d '(i, class_) => int_dict_set d i class_)
    (combine (map Z.of_nat (seq 0 (length classes))) classes) []
  = combine (map Z.of_nat (seq 0 (length classes))) classes.
Proof.
  assert (H : forall (a : nat) (d : list (Z * string)),
             (forall x, In x (map fst d) -> (x < Z.of_nat a)%Z) ->
             fold_left (fun d '(i, class_) => int_dict_set d i class_)
               (combine (map Z.of_nat (seq a (length classes))) classes) d
             = (d ++ combine (map Z.of_nat (seq a (length classes)))
                       classes)%list).
  { induction classes as [|c classes IH]; intros a d Hd.
    - cbn. rewrite app_nil_r. reflexivity.
    - cbn [length seq map combine fold_left].
      rewrite int_dict_set_fresh
        by (intros x Hx; specialize (Hd x Hx); lia).
      rewrite IH.
      + rewrite <- app_assoc. reflexivity.
      + intros x Hx. rewrite map_app in Hx.
        apply in_app_or in Hx as [Hx|[<-|[]]];
          [specialize (Hd x Hx)|cbn [fst]]; lia. }
  apply (H 0 []). intros x [].
Qed.

Lemma filter_map_comm {A B} (f : A -> B) (p : B -> bool) (l : list A) :
  List.filter p (map f l) = map f (List.filter (fun x => p (f x)) l).
Proof.
  induction l as [|x l IH]; [reflexivity|].
  cbn [map List.filter]. destruct (p (f x)); cbn [map]; rewrite IH;
    reflexivity.
Qed.

(** The classes [get_classes_map] numbers, for a listing without slashes in
    its names: the listed names that are directories under the data path,
    sorted. *)
Lemma get_classes_map_spec (fs : listing) (path_to_data : string)
  (names : list string) :
  os_listdir fs path_to_data = Ok names ->
  (forall name, In name names -> has_sep name = false) ->
  let classes :=
    sorted_by (fun class_ => class_)
      (List.filter
         (fun name => path_isdir fs (path_join path_to_data [name])) names) in
  get_classes_map fs path_to_data
  = Ok (combine (map Z.of_nat (seq 0 (length classes))) classes).
Proof.
  intros Hls Hsep classes. unfold get_classes_map. rewrite Hls.
  cbn [res_bind]. rewrite enumerate_as_dict.
  rewrite filter_map_comm, map_map.
  replace (map (fun x => List.last (split_slash (path_join path_to_data [x])) "")
             (List.filter
                (fun x => path_isdir fs (path_join path_to_data [x])) names))
    with (List.filter
            (fun x => path_isdir fs (path_join path_to_data [x])) names);
    [reflexivity|].
  rewrite <- (map_id (List.filter _ names)) at 1.
  apply map_ext_in. intros name Hin. symmetry.
  apply class_of_joined_path, Hsep.
  apply filter_In in Hin as [Hin _]. exact Hin.
Qed.

(** [get_classes_map] numbers from 0, in ascending order of their names,
    exactly the listed names that are directories under the data path (the
    names [os.listdir] gives hold no slash): the last component of each
    joined path is the name it was joined from. *)
Theorem classes_map_numbers_the_directories (fs : listing)
  (path_to_data : string) (names : list string) :
  os_listdir fs path_to_data = Ok names ->
  (forall name, In name names -> has_sep name = false) ->
  exists classes,
    get_classes_map fs path_to_data
    = Ok (combine (map Z.of_nat (seq 0 (length classes))) classes) /\
    ascending (fun class_ => class_) classes /\
    Permutation classes
      (List.filter
         (fun name => path_isdir fs (path_join path_to_data [name])) names) /\
    forall i class_,
      classes !! i = Some class_ <->
      int_dict_get (combine (map Z.of_nat (seq 0 (length classes))) classes)
        (Z.of_nat i) = Some class_.
Proof.
  intros Hls Hsep. eexists. split; [apply (get_classes_map_spec _ _ _ Hls Hsep)|].
  split; [apply sorted_by_ascending|].
  split; [apply sorted_by_permutation|].
  intros i class_.
  rewrite (int_dict_get_combine_seq _ 0). split.
  - intros H. exists i. split; [reflexivity|exact H].
  - intros (k & Hk & H). assert (k = i) by lia. subst k. exact H.
Qed.

Example cars_classes :
  get_classes_map cars "cars" = Ok [(0%Z, "audi"); (1%Z, "vw")].
Proof. vm_compute. reflexivity. Qed.

Lemma classes_map_numbers_the_directories_witness :
  os_listdir cars "cars" = Ok ["vw"; "readme.txt"; "audi"]
  /\ exists classes,
       get_classes_map cars "cars"
       = Ok (combine (map Z.of_nat (seq 0 (length classes))) classes) /\
       Permutation classes
         (List.filter
            (fun name => path_isdir cars (path_join "cars" [name]))
            ["vw"; "readme.txt"; "audi"]).
Proof.
  split; [reflexivity|].
  destruct (classes_map_numbers_the_directories cars "cars"
              ["vw"; "readme.txt"; "audi"] eq_refl)
    as (classes & Hrun & _ & Hperm & _).
  - intros name [<-|[<-|[<-|[]]]]; reflexivity.
  - exists classes. split; [exact Hrun|exact Hperm].
Defined.

Lemma filter_permutation {A} (f : A -> bool) (l1 l2 : list A) :
  Permutation l1 l2 -> Permutation (List.filter f l1) (List.filter f l2).
Proof.
  induction 1 as [|x l1 l2 _ IH|x y l|l1 l2 l3 _ IH1 _ IH2].
  - constructor.
  - cbn [List.filter]. destruct (f x); [constructor|]; exact IH.
  - cbn [List.filter]. destruct (f x), (f y); try reflexivity. constructor.
  - exact (Permutation_trans IH1 IH2).
Qed.

(** The map does not depend on the order in which [os.listdir] lists the
    directory: two listings of the same names (each listed once, none with
    a slash) over the same directories give the same map. *)
Theorem classes_map_ignores_listing_order (fs fs' : listing)
  (path_to_data : string) (names names' : list string) :
  os_listdir fs path_to_data = Ok names ->
  os_listdir fs' path_to_data = Ok names' ->
  (forall p, path_isdir fs p = path_isdir fs' p) ->
  Permutation names names' ->
  List.NoDup names ->
  (forall name, In name names -> has_sep name = false) ->
  get_classes_map fs path_to_data = get_classes_map fs' path_to_data.
Proof.
  intros Hls Hls' Hdir Hperm Hnd Hsep.
  rewrite (get_classes_map_spec _ _ _ Hls Hsep).
  rewrite (get_classes_map_spec _ _ _ Hls').
  2:{ intros name Hin. apply Hsep.
      apply (Permutation_in _ (Permutation_sym Hperm)), Hin. }
  cbn zeta.
  replace (List.filter
             (fun name => path_isdir fs' (path_join path_to_data [name]))
             names')
    with (List.filter
            (fun name => path_isdir fs (path_join path_to_data [name]))
            names')
    by (apply filter_ext; intros name; apply Hdir).
  rewrite (sorted_by_permuted (fun class_ : string => class_) _ _
             (filter_permutation _ _ _ Hperm)); [reflexivity|].
  rewrite map_id. apply List.NoDup_filter, Hnd.
Qed.

Lemma classes_map_ignores_listing_order_witness :
  Permutation ["vw"; "readme.txt"; "audi"] ["audi"; "vw"; "readme.txt"]
  /\ get_classes_map cars "cars" = get_classes_map cars_relisted "cars".
Proof.
  assert (Hperm : Permutation ["vw"; "readme.txt"; "audi"]
                    ["audi"; "vw"; "readme.txt"]).
  { apply Permutation_sym.
    apply (Permutation_cons_app ["vw"; "readme.txt"] [] "audi").
    reflexivity. }
  split; [exact Hperm|].
  apply (classes_map_ignores_listing_order cars cars_relisted "cars"
           ["vw"; "readme.txt"; "audi"] ["audi"; "vw"; "readme.txt"]
           eq_refl eq_refl (fun p => eq_refl) Hperm).
  - repeat (constructor; [cbn [In]; intuition discriminate|]). constructor.
  - intros name [<-|[<-|[<-|[]]]]; reflexivity.
Defined.

(** With [sort] set, [find_files] returns its files in ascending order, the
    same paths, each as often, as without sorting; and every path returned
    is the join of a walked directory and one of its file names that the
    pattern filter kept. *)
Theorem sorted_files_are_the_found_files (fs : listing)
  (path filename_pattern : string) :
  ascending (fun file => file) (find_files fs path filename_pattern true) /\
  Permutation (find_files fs path filename_pattern true)
    (find_files fs path filename_pattern false) /\
  forall (sort : bool) (file : string),
    In file (find_files fs path filename_pattern sort) ->
    exists root dirs filenames filename,
      In (root, dirs, filenames) (os_walk fs path) /\
      In filename (fnmatch_filter fs filenames filename_pattern) /\
      file = join2 root filename.
Proof.
  split; [apply sorted_by_ascending|].
  split; [apply sorted_by_permutation|].
  intros sort file Hin.
  assert (Hin' : In file (find_files fs path filename_pattern false)).
  { destruct sort; [|exact Hin].
    unfold find_files in Hin.
    apply (Permutation_in _ (sorted_by_permutation (fun file => file) _)),
      Hin. }
  unfold find_files in Hin'. apply in_flat_map in Hin'
    as ([[root dirs] filenames] & Hw & Hf).
  apply in_map_iff in Hf as (filename & <- & Hf).
  exists root, dirs, filenames, filename. repeat split; assumption.
Qed.

Example cars_files :
  find_files cars "cars" "*.jpg" true
  = ["cars/audi/c.jpg"; "cars/vw/a.jpg"; "cars/vw/b.jpg"]
  /\ find_files cars "cars" "*.jpg" false
     = ["cars/vw/b.jpg"; "cars/vw/a.jpg"; "cars/audi/c.jpg"].
Proof. split; vm_compute; reflexivity. Qed.

Lemma sorted_files_are_the_found_files_witness :
  In "cars/vw/a.jpg" (find_files cars "cars" "*.jpg" true)
  /\ exists root dirs filenames filename,
       In (root, dirs, filenames) (os_walk cars "cars") /\
       In filename (fnmatch_filter cars filenames "*.jpg") /\
       "cars/vw/a.jpg" = join2 root filename.
Proof.
  assert (Hin : In "cars/vw/a.jpg" (find_files cars "cars" "*.jpg" true))
    by (vm_compute; tauto).
  split; [exact Hin|].
  apply (proj2 (proj2 (sorted_files_are_the_found_files cars "cars" "*.jpg"))
           true "cars/vw/a.jpg" Hin).
Defined.
